(** * SickChill process lifecycle: restore, hydration, startup, shutdown

    A shallow embedding of [SickChill.py] (the process entry point of
    SickChill) and the properties its specification states about it.

    The Python code is effectful: it moves files, appends to lists held
    in the [settings] module, calls into other packages and terminates
    the process.  Every method is embedded as a function in a small
    state-and-exception monad [Py.M]; what the method would do to the
    outside world is either a change of the explicit state (the file
    store, the show registry, the log) or an entry in a trace of
    external calls. *)

From Stdlib Require Import ZArith String Ascii List Lia.
From stdpp Require Import base option list gmap strings fin_maps.

Open Scope string_scope.

(** ** Python control flow: return, raise, process exit *)

Module Py.

(** Exceptions that derive from Python's [Exception]; these are the
    ones an [except Exception:] clause catches. *)
Inductive exn : Type :=
| FileNotFoundError (path : string)
| OSError (what : string)
| RuntimeError (what : string).

(** [str(error)] as used when an exception is formatted into a message. *)
Definition exn_str (e : exn) : string :=
  match e with
  | FileNotFoundError p => "[Errno 2] No such file or directory: '" +:+ p +:+ "'"
  | OSError w => w
  | RuntimeError w => w
  end.

(** [isinstance(e, OSError)]; [os.error] is an alias of [OSError]. *)
Definition is_os_error (e : exn) : bool :=
  match e with
  | FileNotFoundError _ | OSError _ => true
  | RuntimeError _ => false
  end.

(** How a process ends: [sys.exit(n)] / [os._exit(n)] carry a status,
    [raise SystemExit(msg)] prints [msg] and ends with status 1. *)
Inductive exit_status : Type :=
| ExitCode (code : Z)
| ExitMsg (msg : string).

Definition status_code (x : exit_status) : Z :=
  match x with
  | ExitCode c => c
  | ExitMsg _ => 1
  end.

(** The three ways a piece of Python code can stop, each with the
    state it leaves behind: Python does not roll anything back when an
    exception is raised. *)
Inductive outcome (S A : Type) : Type :=
| Ret (a : A) (s : S)
| Raise (e : exn) (s : S)
| Exit (x : exit_status) (s : S).
Arguments Ret {S A} a s.
Arguments Raise {S A} e s.
Arguments Exit {S A} x s.

Definition M (S A : Type) : Type := S -> outcome S A.

Definition ret {S A} (a : A) : M S A := fun s => Ret a s.

Definition bind {S A B} (m : M S A) (k : A -> M S B) : M S B :=
  fun s =>
    match m s with
    | Ret a s' => k a s'
    | Raise e s' => Raise e s'
    | Exit x s' => Exit x s'
    end.

Definition raise {S A} (e : exn) : M S A := fun s => Raise e s.

Definition exit {S A} (x : exit_status) : M S A := fun s => Exit x s.

Definition get {S} : M S S := fun s => Ret s s.

Definition modify {S} (f : S -> S) : M S unit := fun s => Ret tt (f s).

(** [try: body / except Exception: handler].  [SystemExit] is not an
    [Exception], so a process exit passes through. *)
Definition try_except {S A} (body : M S A) (handler : exn -> M S A) : M S A :=
  fun s =>
    match body s with
    | Ret a s' => Ret a s'
    | Raise e s' => handler e s'
    | Exit x s' => Exit x s'
    end.

(** [try: body / except os.error: handler]. *)
Definition try_except_os {S A} (body : M S A) (handler : exn -> M S A) : M S A :=
  fun s =>
    match body s with
    | Ret a s' => Ret a s'
    | Raise e s' => if is_os_error e then handler e s' else Raise e s'
    | Exit x s' => Exit x s'
    end.

Definition when {S} (b : bool) (m : M S unit) : M S unit :=
  if b then m else ret tt.

Definition outcome_state {S A} (o : outcome S A) : S :=
  match o with
  | Ret _ s | Raise _ s | Exit _ s => s
  end.

Definition raised {S A} (o : outcome S A) : bool :=
  match o with
  | Raise _ _ => true
  | _ => false
  end.

End Py.

Import Py.

Declare Scope py_scope.
Delimit Scope py_scope with py.
Notation "x <- m ;; k" := (bind m (fun x => k))
  (at level 100, m at next level, k at level 200, right associativity) : py_scope.
Notation "m ;; k" := (bind m (fun _ => k))
  (at level 100, k at level 200, right associativity) : py_scope.
Open Scope py_scope.

(** ** Paths and timestamps *)

Module Path.

Definition sep : ascii := "/"%char.

Definition starts_with_sep (s : string) : bool :=
  match s with
  | String c _ => Ascii.eqb c sep
  | EmptyString => false
  end.

Fixpoint ends_with_sep (s : string) : bool :=
  match s with
  | EmptyString => false
  | String c EmptyString => Ascii.eqb c sep
  | String _ r => ends_with_sep r
  end.

(** [os.path.join(a, b)] of posixpath for two components. *)
Definition join (a b : string) : string :=
  if starts_with_sep b then b
  else if (String.eqb a "" || ends_with_sep a)%bool then a +:+ b
  else a +:+ "/" +:+ b.

(** What [join] puts in front of a relative second component. *)
Definition dir_prefix (a : string) : string :=
  if (String.eqb a "" || ends_with_sep a)%bool then a else a +:+ "/".

Fixpoint has_sep (s : string) : bool :=
  match s with
  | EmptyString => false
  | String c r => (Ascii.eqb c sep || has_sep r)%bool
  end.

(** [os.path.basename]: what follows the last separator. *)
Fixpoint basename (p : string) : string :=
  match p with
  | EmptyString => EmptyString
  | String c r =>
      if has_sep r then basename r
      else if Ascii.eqb c sep then r else p
  end.

(** [datetime.datetime] as far as [strftime] reads it. *)
Record datetime : Type := {
  year : nat; month : nat; day : nat;
  hour : nat; minute : nat; second : nat
}.

Definition digit (n : nat) : ascii := ascii_of_nat (48 + n mod 10).

(** [%m], [%d], [%H], [%M], [%S]: two decimal digits. *)
Definition pad2 (n : nat) : string :=
  String (digit (n / 10)) (String (digit n) EmptyString).

(** [%Y] for a year of the current era: four decimal digits. *)
Definition pad4 (n : nat) : string :=
  String (digit (n / 1000)) (String (digit (n / 100)) (pad2 n)).

(** [t.strftime("%Y%m%d_%H%M%S")]. *)
Definition strftime (t : datetime) : string :=
  pad4 (year t) +:+ pad2 (month t) +:+ pad2 (day t) +:+ "_"
    +:+ pad2 (hour t) +:+ pad2 (minute t) +:+ pad2 (second t).

(** ["{}.bak-{}".format(filename, stamp)]. *)
Definition bak_name (filename stamp : string) : string :=
  filename +:+ ".bak-" +:+ stamp.

End Path.

(** ** restore_db: moving a backup into the data directory *)

Module Restore.

(** The regular files of the file system: path to content.  Only
    regular files are tracked; no directory is assumed to sit at a
    path the restore reads or writes. *)
Abbreviation store := (gmap string string).

(** What the code cannot decide by itself: the clock read by
    [datetime.datetime.now()] (indexed by the number of earlier reads),
    whether the operating system lets one path be moved onto another
    (permissions, read-only media, another file system, ...), and, when
    it does not, how far the copy that [shutil.move] falls back on has
    got by the time the move raises: [None] when the destination was
    never opened, [Some n] when the first [n] characters of the source
    were written there (all of them when [n] is not less than their
    number: the copy was whole and what failed came after it). *)
Record os_env : Type := {
  now : nat -> Path.datetime;
  os_refuses : string -> string -> bool;
  copied : string -> string -> option nat
}.

(** What a copy that got [n] characters far has put at its
    destination. *)
Definition copy_part (n : nat) (c : string) : string :=
  String.substring 0 n c.

(** [os.path.isfile(p)]. *)
Definition isfile (p : string) : M store bool :=
  fun s => Ret (bool_decide (is_Some (s !! p))) s.

(** [shutil.move(src, dst)] for a source that is a regular file and a
    destination that is not a directory.  It tries [os.rename], which
    replaces an existing destination; when that is refused it copies
    the source to the destination and then unlinks the source.  A move
    that goes through, one way or the other, leaves the content at the
    destination and nothing at the source.  A missing source raises
    with nothing changed.  A move that is refused to the end raises
    with the source in place and with what the copy had written by
    then at the destination; nothing is written when the two paths
    are the same. *)
Definition shutil_move (E : os_env) (src dst : string) : M store unit :=
  fun s =>
    match s !! src with
    | None => Raise (FileNotFoundError src) s
    | Some c =>
        if os_refuses E src dst
        then Raise (OSError ("cannot move '" +:+ src +:+ "' to '" +:+ dst +:+ "'"))
               (match copied E src dst with
                | Some n =>
                    if String.eqb src dst then s
                    else <[dst := copy_part n c]> s
                | None => s
                end)
        else Ret tt (<[dst := c]> (delete src s))
    end.

Definition files_list : list string :=
  ["sickbeard.db"; "sickchill.db"; "config.ini"; "failed.db"; "cache.db"].

(** One iteration of [for filename in files_list]; [i] counts the
    iterations done so far, each of which read the clock once. *)
Definition restore_step (E : os_env) (src_dir dst_dir : string)
    (i : nat) (filename : string) : M store unit :=
  let src_file := Path.join src_dir filename in
  let dst_file := Path.join dst_dir filename in
  let bak_file :=
    Path.join dst_dir (Path.bak_name filename (Path.strftime (now E i))) in
  let sickchill_db := Path.join dst_dir "sickchill.db" in
  let sickbeard_db := Path.join src_dir "sickbeard.db" in
  src_is_file <- isfile src_file ;;
  if src_is_file : bool then
    let dst_file :=
      if String.eqb src_file sickbeard_db then sickchill_db else dst_file in
    dst_is_file <- isfile dst_file ;;
    when dst_is_file (shutil_move E dst_file bak_file) ;;
    shutil_move E src_file dst_file
  else ret tt.

Fixpoint restore_loop (E : os_env) (src_dir dst_dir : string)
    (i : nat) (files : list string) : M store unit :=
  match files with
  | [] => ret tt
  | filename :: rest =>
      restore_step E src_dir dst_dir i filename ;;
      restore_loop E src_dir dst_dir (S i) rest
  end.

(** The statements after the loop, up to [return True]. *)
Definition restore_legacy (E : os_env) (dst_dir : string) : M store unit :=
  let sickbeard_db := Path.join dst_dir "sickbeard.db" in
  let sickchill_db := Path.join dst_dir "sickchill.db" in
  legacy <- isfile sickbeard_db ;;
  current <- isfile sickchill_db ;;
  when (legacy && negb current) (shutil_move E sickbeard_db sickchill_db).

(** The body of the [try]. *)
Definition restore_body (E : os_env) (src_dir dst_dir : string) : M store bool :=
  restore_loop E src_dir dst_dir 0 files_list ;;
  restore_legacy E dst_dir ;;
  ret true.

Definition restore_db (E : os_env) (src_dir dst_dir : string) : M store bool :=
  try_except (restore_body E src_dir dst_dir) (fun _ => ret false).

(** The destination an iteration moves its source file to. *)
Definition target (src_dir dst_dir filename : string) : string :=
  if String.eqb (Path.join src_dir filename) (Path.join src_dir "sickbeard.db")
  then Path.join dst_dir "sickchill.db"
  else Path.join dst_dir filename.

(** The backup path iteration [i] computes for [filename]. *)
Definition bak_file (E : os_env) (dst_dir : string) (i : nat) (filename : string)
    : string :=
  Path.join dst_dir (Path.bak_name filename (Path.strftime (now E i))).

(** A clock that ticks one second per reading and an operating
    system that refuses nothing. *)
Definition sample_clock (i : nat) : Path.datetime :=
  {| Path.year := 2024; Path.month := 3; Path.day := 9;
     Path.hour := 7; Path.minute := 5; Path.second := i |}.

Definition sample_os : os_env :=
  {| now := sample_clock; os_refuses := fun _ _ => false;
     copied := fun _ _ => None |}.

(** An operating system that refuses to move the backed-up
    configuration file. *)
Definition sample_refusing_os : os_env :=
  {| now := sample_clock;
     os_refuses := fun a _ => String.eqb a "restore/config.ini";
     copied := fun _ _ => None |}.

(** One that lets the configuration file be copied but not removed
    from the backup. *)
Definition sample_copying_os : os_env :=
  {| now := sample_clock;
     os_refuses := fun a _ => String.eqb a "restore/config.ini";
     copied := fun _ _ => Some 8 |}.

(** A backup holding only the legacy database, next to a data
    directory that already has a current one. *)
Definition sample_store : store :=
  <["restore/sickbeard.db" := "backup"]>
    (<["data/sickchill.db" := "live"]> ∅).

(** A data directory still holding the database under its legacy
    name, and a backup with nothing in it. *)
Definition sample_legacy_store : store :=
  <["data/sickbeard.db" := "legacy"]> ∅.

(** A backup that also brings a configuration file. *)
Definition sample_config_store : store :=
  <["restore/config.ini" := "settings"]> sample_store.

(** Content [c] is found at no path other than [p]. *)
Definition held_only_at (s : store) (c : string) (p : string) : Prop :=
  forall q, s !! q = Some c -> q = p.

End Restore.

Import Restore.

(** ** load_shows_from_db: hydrating the show registry *)

Module Hydrate.

Inductive level : Type := DEBUG | INFO | WARNING | ERROR.

Definition level_eqb (a b : level) : bool :=
  match a, b with
  | DEBUG, DEBUG | INFO, INFO | WARNING, WARNING | ERROR, ERROR => true
  | _, _ => false
  end.

(** A row of [SELECT indexer, indexer_id, location FROM tv_shows]. *)
Record sql_row : Type := {
  indexer : Z;
  indexer_id : Z;
  location : string
}.

Section WithShow.

(** [sickchill.tv.TVShow] lives outside this file: its objects are
    an arbitrary type, its constructor and [nextEpisode] arbitrary
    functions that may raise. *)
Context {show : Type}.

Record tv_env : Type := {
  TVShow : Z -> Z -> exn + show;
  nextEpisode : show -> exn + show;
  format_exc : exn -> string
}.

(** [settings.showList] and what the logger received. *)
Record registry : Type := {
  showList : list show;
  log : list (level * string)
}.

Definition logger (l : level) (msg : string) : M registry unit :=
  modify (fun r => {| showList := showList r; log := log r ++ [(l, msg)] |}).

Definition set_showList (l : list show) : M registry unit :=
  modify (fun r => {| showList := l; log := log r |}).

Definition append_show (x : show) : M registry unit :=
  modify (fun r => {| showList := showList r ++ [x]; log := log r |}).

Definition call_ext {A} (r : exn + A) : M registry A :=
  match r with
  | inl e => raise e
  | inr a => ret a
  end.

Definition error_message (row : sql_row) (error : exn) : string :=
  "There was an error creating the show in " +:+ location row
    +:+ ": Error " +:+ exn_str error.

(** The body of [for sql_show in sql_results]. *)
Definition load_show (E : tv_env) (sql_show : sql_row) : M registry unit :=
  try_except
    (cur_show <- call_ext (TVShow E (indexer sql_show) (indexer_id sql_show)) ;;
     cur_show <- call_ext (nextEpisode E cur_show) ;;
     append_show cur_show)
    (fun error =>
       logger ERROR (error_message sql_show error) ;;
       logger DEBUG (format_exc E error)).

Fixpoint load_rows (E : tv_env) (sql_results : list sql_row) : M registry unit :=
  match sql_results with
  | [] => ret tt
  | sql_show :: rest => load_show E sql_show ;; load_rows E rest
  end.

(** [select] is the answer of the database to the query: the rows,
    or the exception the connection raised. *)
Definition load_shows_from_db (E : tv_env) (select : exn + list sql_row)
    : M registry unit :=
  logger DEBUG "Loading initial show list" ;;
  sql_results <- call_ext select ;;
  set_showList [] ;;
  load_rows E sql_results.

(** The shows a row builds, when both steps succeed. *)
Definition build (E : tv_env) (row : sql_row) : exn + show :=
  match TVShow E (indexer row) (indexer_id row) with
  | inl e => inl e
  | inr x => nextEpisode E x
  end.

Definition builds (E : tv_env) (row : sql_row) : bool :=
  match build E row with inr _ => true | inl _ => false end.

Fixpoint built_shows (E : tv_env) (rows : list sql_row) : list show :=
  match rows with
  | [] => []
  | row :: rest =>
      match build E row with
      | inr x => x :: built_shows E rest
      | inl _ => built_shows E rest
      end
  end.

(** What the logger receives for the rows that do not build. *)
Fixpoint failure_log (E : tv_env) (rows : list sql_row) : list (level * string) :=
  match rows with
  | [] => []
  | row :: rest =>
      match build E row with
      | inr _ => failure_log E rest
      | inl e =>
          (ERROR, error_message row e) :: (DEBUG, format_exc E e)
            :: failure_log E rest
      end
  end.

End WithShow.

Arguments tv_env : clear implicits.
Arguments registry : clear implicits.

(** The messages logged at level [ERROR]. *)
Definition errors (l : list (level * string)) : list string :=
  map snd (List.filter (fun e => level_eqb (fst e) ERROR) l).

(** A sample: shows are their two identifiers, and the show with
    identifier 13 cannot be built. *)
Definition sample_tv : tv_env (Z * Z) :=
  {| TVShow := fun i n =>
       if (n =? 13)%Z then inl (RuntimeError "show 13 not found on indexer")
       else inr (i, n);
     nextEpisode := fun x => inr x;
     format_exc := fun e => "Traceback (most recent call last): " +:+ exn_str e |}.

Definition sample_rows : list sql_row :=
  [ {| indexer := 1; indexer_id := 7; location := "/tv/Seven" |};
    {| indexer := 1; indexer_id := 13; location := "/tv/Thirteen" |};
    {| indexer := 1; indexer_id := 21; location := "/tv/Blackjack" |} ].

Definition sample_registry : registry (Z * Z) :=
  {| showList := [(1, 99)%Z]; log := [(INFO, "earlier")] |}.

End Hydrate.

(** ** The process: start, force_update, clear_cache, shutdown *)

Module Proc.

(** [sickchill.oldbeard.event_queue.Events.SystemEvent]. *)
Inductive SystemEvent : Type := RESTART | SHUTDOWN.

Definition SystemEvent_eqb (a b : SystemEvent) : bool :=
  match a, b with
  | RESTART, RESTART | SHUTDOWN, SHUTDOWN => true
  | _, _ => false
  end.

(** Calls that leave this file, in the order they are made.  [print]
    stands for [print(...)] and [sys.stdout.write(...)], with the text
    without its line end; [logger_info] carries the format string and
    the values formatted into it. *)
Inductive call : Type :=
| print (msg : string)
| check_installed
| PipUpdateManager_update
| makedirs (path : string) (mode : Z)
| chdir (path : string)
| restore_db_call (src_dir dst_dir : string)
| ConfigObj (path : string)
| initialize (consoleLogging : bool)
| load_shows_from_db_call
| logger_info (msg : string) (args : list string)
| logger_warning (msg : string)
| rmtree (path : string)
| MovieList
| SRWebServer_start (options : gmap string Z)
| FlaskServer_start (host : string) (port : Z)
| start_threads
| build_name_cache
| update_network_dict
| launchBrowser (protocol : string) (port : Z) (web_root : string)
| halt
| saveAll
| web_server_shutdown
| web_server_join (timeout : Z)
| remove_pid_file
| logger_shutdown
| Popen (argv : list string) (cwd : string).

(** What [os.access], [os.path.isfile] and [os.path.isdir] see. *)
Record node : Type := {
  is_dir : bool;
  writable : bool
}.

(** The parsed command line ([SickChillArgumentParser.parse_args]). *)
Record Args : Type := {
  force_update : bool;
  noresize : bool;
  quiet : bool;
  daemon : bool;
  nolaunch : bool;
  port : option Z;
  pidfile : option string;
  datadir : option string;
  config : option string;
  flask : bool;
  flask_port : option Z;
  flask_host : option string
}.

(** Python truth of an optional integer and of an optional string. *)
Definition truthy_int (o : option Z) : bool :=
  match o with
  | Some z => negb (z =? 0)%Z
  | None => false
  end.

Definition truthy_str (o : option string) : bool :=
  match o with
  | Some s => negb (String.eqb s "")
  | None => false
  end.

(** The attributes of the [settings] module that [start] and [shutdown]
    read ([MY_NAME] and [PID] are written and never read here). *)
Record Settings : Type := {
  MY_FULLNAME : string;
  MY_ARGS : list string;
  DATA_DIR : string;
  CONFIG_FILE : string;
  CACHE_DIR : string;
  NO_RESIZE : bool;
  NO_RESTART : bool;
  DEVELOPER : bool;
  WEB_PORT : Z;
  WEB_HOST : string;
  WEB_IPV6 : bool;
  WEB_ROOT : string;
  ENABLE_HTTPS : bool;
  LAUNCH_BROWSER : bool;
  started : bool
}.

(** The attributes of the [SickChill] instance. *)
Record Self : Type := {
  run_as_daemon : bool;
  web_server : option (gmap string Z);
  forced_port : option Z;
  no_launch : bool;
  start_port : Z;
  console_logging : bool;
  flask_server : option (string * Z)
}.

(** The state of the process: module globals, the instance, the part
    of the file system the preflight looks at, and the calls made. *)
Record proc : Type := {
  settings : Settings;
  self : Self;
  nodes : gmap string node;
  trace : list call
}.

(** What the surroundings decide. *)
Record env : Type := {
  fails : call -> option exn;
  installed : bool;
  update_ok : bool;
  restore_ok : bool;
  umask : Z;
  abspath : string -> string;
  getcwd : string;
  sys_executable : string;
  sys_argv : list string;
  sys_frozen : bool;
  platform_system : string;
  this_file : string;
  chosen_data_dir : string;
  current_version : string;
  FlaskServer_imported : bool;
  configured : Settings -> Settings
}.

Definition set_settings (f : Settings -> Settings) : M proc unit :=
  modify (fun p => {| settings := f (settings p); self := self p;
                      nodes := nodes p; trace := trace p |}).

Definition set_self (f : Self -> Self) : M proc unit :=
  modify (fun p => {| settings := settings p; self := f (self p);
                      nodes := nodes p; trace := trace p |}).

Definition set_nodes (f : gmap string node -> gmap string node) : M proc unit :=
  modify (fun p => {| settings := settings p; self := self p;
                      nodes := f (nodes p); trace := trace p |}).

Definition with_trace (p : proc) (t : list call) : proc :=
  {| settings := settings p; self := self p; nodes := nodes p; trace := t |}.

Definition record (c : call) : M proc unit :=
  modify (fun p => with_trace p (trace p ++ [c])).

(** An external call: it is made, and then either returns or raises. *)
Definition ext (E : env) (c : call) : M proc unit :=
  record c ;;
  match fails E c with
  | Some e => raise e
  | None => ret tt
  end.

(** [os._exit(n)] and [sys.exit(n)]. *)
Definition os_exit (n : Z) : M proc unit := exit (ExitCode n).

(** [raise SystemExit(msg)]. *)
Definition SystemExit (msg : string) : M proc unit := exit (ExitMsg msg).

Definition access_F (p : string) : M proc bool :=
  st <- get ;; ret (bool_decide (is_Some (nodes st !! p))).

Definition access_W (p : string) : M proc bool :=
  st <- get ;;
  ret (match nodes st !! p with Some n => writable n | None => false end).

Definition isfile (p : string) : M proc bool :=
  st <- get ;;
  ret (match nodes st !! p with Some n => negb (is_dir n) | None => false end).

Definition isdir (p : string) : M proc bool :=
  st <- get ;;
  ret (match nodes st !! p with Some n => is_dir n | None => false end).

(** The permission bits a created directory gets, and whether its
    owner may write to it (bit 7, [S_IWUSR]). *)
Definition created_mode (E : env) (mode : Z) : Z :=
  Z.land mode (Z.lnot (umask E)).

Definition owner_writable (mode : Z) : bool := Z.testbit mode 7.

(** [os.makedirs(path, mode)]. *)
Definition os_makedirs (E : env) (path : string) (mode : Z) : M proc unit :=
  ext E (makedirs path mode) ;;
  set_nodes (insert path {| is_dir := true;
                            writable := owner_writable (created_mode E mode) |}).

(** [os.path.dirname] of posixpath. *)
Fixpoint head_of (p : string) : string :=
  match p with
  | EmptyString => EmptyString
  | String c r =>
      if Path.has_sep r then String c (head_of r)
      else if Ascii.eqb c Path.sep then String c EmptyString else EmptyString
  end.

Fixpoint rstrip_sep (s : string) : string :=
  match s with
  | EmptyString => EmptyString
  | String c r =>
      let r' := rstrip_sep r in
      if (String.eqb r' "" && Ascii.eqb c Path.sep)%bool
      then EmptyString else String c r'
  end.

Definition dirname (p : string) : string :=
  let head := head_of p in
  if String.eqb (rstrip_sep head) "" then head else rstrip_sep head.

(** *** clear_cache *)

Definition clear_cache (E : env) : M proc unit :=
  try_except
    (st <- get ;;
     let cache_folder := Path.join (CACHE_DIR (settings st)) "mako" in
     d <- isdir cache_folder ;;
     when d (ext E (rmtree cache_folder)))
    (fun _ => ext E (logger_warning "Unable to remove the cache/mako directory!")).

(** *** force_update *)

(** The method [SickChill.force_update]; the plain name is taken by the
    command-line flag. *)
Definition force_update_m (E : env) : M proc bool :=
  ext E check_installed ;;
  if negb (installed E) then
    ext E (print "Sickchill updater no longer works with git or source installs, as they are intended for developers only. If you are a developer, you know how to update...") ;;
    ret false
  else
    ext E (print "Forcing SickChill to update using pip...") ;;
    ext E PipUpdateManager_update ;;
    if negb (update_ok E) then
      ext E (print "Failed to force an update.") ;;
      ret false
    else
      ext E (print "Successfully updated to the latest pip release. You may now run SickChill normally.") ;;
      ret true.

(** *** start *)

(** Lines 93 to 98: names, default data directory, arguments. *)
Definition start_preliminary (E : env) : M proc unit :=
  set_settings (fun s =>
    {| MY_FULLNAME := abspath E (this_file E);
       MY_ARGS := tl (sys_argv E);
       DATA_DIR := chosen_data_dir E;
       CONFIG_FILE := CONFIG_FILE s; CACHE_DIR := CACHE_DIR s;
       NO_RESIZE := NO_RESIZE s; NO_RESTART := NO_RESTART s;
       DEVELOPER := DEVELOPER s; WEB_PORT := WEB_PORT s;
       WEB_HOST := WEB_HOST s; WEB_IPV6 := WEB_IPV6 s;
       WEB_ROOT := WEB_ROOT s; ENABLE_HTTPS := ENABLE_HTTPS s;
       LAUNCH_BROWSER := LAUNCH_BROWSER s; started := started s |}).

(** Lines 105 to 107. *)
Definition start_force_update (E : env) (args : Args) : M proc unit :=
  when (force_update args)
    (result <- force_update_m E ;;
     os_exit (Z.b2z (negb result))).

(** Lines 109 to 121: flags and the two paths. *)
Definition start_flags (E : env) (args : Args) : M proc unit :=
  let daemonise := (daemon args && negb (String.eqb (platform_system E) "Windows"))%bool in
  let logging := negb (sys_frozen E || quiet args || daemon args) in
  set_self (fun o =>
    {| run_as_daemon := daemonise;
       web_server := web_server o;
       forced_port := port args;
       no_launch := (nolaunch args || daemon args)%bool;
       start_port := start_port o;
       console_logging := logging;
       flask_server := flask_server o |}) ;;
  when (truthy_str (pidfile args) && negb daemonise && logging)
    (ext E (print "Not running in daemon mode. PID file creation disabled.")) ;;
  set_settings (fun s =>
    let data_dir :=
      if truthy_str (datadir args)
      then abspath E (default "" (datadir args)) else DATA_DIR s in
    let config_file :=
      if truthy_str (config args)
      then abspath E (default "" (config args))
      else Path.join data_dir "config.ini" in
    {| MY_FULLNAME := MY_FULLNAME s; MY_ARGS := MY_ARGS s;
       DATA_DIR := data_dir; CONFIG_FILE := config_file;
       CACHE_DIR := CACHE_DIR s;
       NO_RESIZE := noresize args; NO_RESTART := NO_RESTART s;
       DEVELOPER := DEVELOPER s; WEB_PORT := WEB_PORT s;
       WEB_HOST := WEB_HOST s; WEB_IPV6 := WEB_IPV6 s;
       WEB_ROOT := WEB_ROOT s; ENABLE_HTTPS := ENABLE_HTTPS s;
       LAUNCH_BROWSER := LAUNCH_BROWSER s; started := started s |}).

(** Lines 123 to 139: the checks on the data directory and the
    configuration file. *)
Definition start_preflight (E : env) : M proc unit :=
  st <- get ;;
  let data_dir := DATA_DIR (settings st) in
  let config_file := CONFIG_FILE (settings st) in
  present <- access_F data_dir ;;
  when (negb present)
    (try_except_os (os_makedirs E data_dir 484)
       (fun _ => SystemExit ("Unable to create data directory: " +:+ data_dir))) ;;
  data_w <- access_W data_dir ;;
  when (negb data_w)
    (SystemExit ("Data directory must be writeable: " +:+ data_dir)) ;;
  config_w <- access_W config_file ;;
  when (negb config_w)
    (config_is_file <- isfile config_file ;;
     if config_is_file : bool then
       SystemExit ("Config file must be writeable: " +:+ config_file)
     else
       root_w <- access_W (dirname config_file) ;;
       when (negb root_w)
         (SystemExit ("Config file root dir must be writeable: "
                        +:+ dirname config_file))).

(** Lines 141 to 170: restore, configuration, hydration, cache. *)
Definition start_load (E : env) : M proc unit :=
  st <- get ;;
  let data_dir := DATA_DIR (settings st) in
  let config_file := CONFIG_FILE (settings st) in
  let logging := console_logging (self st) in
  ext E (chdir data_dir) ;;
  let restore_dir := Path.join data_dir "restore" in
  has_restore <- access_F restore_dir ;;
  when has_restore
    (ext E (restore_db_call restore_dir data_dir) ;;
     when logging
       (ext E (print ("Restore: restoring DB and config.ini "
                        +:+ (if restore_ok E then "SUCCESSFUL" else "FAILED")
                        +:+ "!")))) ;;
  config_is_file <- isfile config_file ;;
  when (logging && negb config_is_file)
    (ext E (print ("Unable to find " +:+ config_file
                     +:+ ", all settings will be default!"))) ;;
  ext E (ConfigObj config_file) ;;
  ext E (initialize logging) ;;
  set_settings (configured E) ;;
  ext E load_shows_from_db_call ;;
  ext E (logger_info "Starting SickChill [{version}] using '{config}'"
           [current_version E; config_file]) ;;
  clear_cache E ;;
  st <- get ;;
  when (DEVELOPER (settings st)) (ext E MovieList).

Definition set_start_port (p : Z) : M proc unit :=
  set_self (fun o =>
    {| run_as_daemon := run_as_daemon o; web_server := web_server o;
       forced_port := forced_port o; no_launch := no_launch o;
       start_port := p; console_logging := console_logging o;
       flask_server := flask_server o |}).

Definition set_web_server (w : gmap string Z) : M proc unit :=
  set_self (fun o =>
    {| run_as_daemon := run_as_daemon o; web_server := Some w;
       forced_port := forced_port o; no_launch := no_launch o;
       start_port := start_port o; console_logging := console_logging o;
       flask_server := flask_server o |}).

Definition set_flask_server (host : string) (p : Z) : M proc unit :=
  set_self (fun o =>
    {| run_as_daemon := run_as_daemon o; web_server := web_server o;
       forced_port := forced_port o; no_launch := no_launch o;
       start_port := start_port o; console_logging := console_logging o;
       flask_server := Some (host, p) |}).

(** Lines 172 to 186: the port and the web server. *)
Definition start_web_server (E : env) : M proc unit :=
  st <- get ;;
  web_options <-
    (if truthy_int (forced_port (self st)) then
       let forced := default 0%Z (forced_port (self st)) in
       ext E (logger_info "Forcing web server to port {port}" []) ;;
       set_start_port forced ;;
       ret (<["port" := forced]> (∅ : gmap string Z))
     else
       set_start_port (WEB_PORT (settings st)) ;;
       ret (∅ : gmap string Z)) ;;
  set_web_server web_options ;;
  ext E (SRWebServer_start web_options).

(** Lines 188 to 204: the optional Flask frontend. *)
Definition start_flask (E : env) (args : Args) : M proc unit :=
  when (flask args && FlaskServer_imported E)
    (st <- get ;;
     let port :=
       if truthy_int (flask_port args)
       then default 0%Z (flask_port args)
       else (start_port (self st) + 1)%Z in
     let web_host :=
       if truthy_str (flask_host args) then default "" (flask_host args)
       else if (negb (String.eqb (WEB_HOST (settings st)) "")
                && negb (String.eqb (WEB_HOST (settings st)) "0.0.0.0"))%bool
            then WEB_HOST (settings st)
            else if WEB_IPV6 (settings st) then "" else "0.0.0.0" in
     set_flask_server web_host port ;;
     ext E (FlaskServer_start web_host port)).

(** Lines 206 to 220: threads, caches, browser. *)
Definition start_threads_and_browser (E : env) : M proc unit :=
  ext E start_threads ;;
  ext E build_name_cache ;;
  ext E update_network_dict ;;
  st <- get ;;
  when (LAUNCH_BROWSER (settings st) && negb (no_launch (self st)))
    (ext E (launchBrowser (if ENABLE_HTTPS (settings st) then "https" else "http")
              (start_port (self st)) (WEB_ROOT (settings st)))).

(** [start], up to the point where it enters [while True: sleep(1)]. *)
Definition start (E : env) (args : Args) : M proc unit :=
  start_preliminary E ;;
  start_force_update E args ;;
  start_flags E args ;;
  start_preflight E ;;
  start_load E ;;
  start_web_server E ;;
  start_flask E args ;;
  start_threads_and_browser E.

(** *** shutdown *)

Definition mem (x : string) (l : list string) : bool :=
  existsb (String.eqb x) l.

Definition is_nil {A} (l : list A) : bool :=
  match l with [] => true | _ => false end.

Definition shutdown (E : env) (event : SystemEvent) : M proc unit :=
  st <- get ;;
  when (started (settings st))
    (ext E halt ;;
     ext E saveAll ;;
     when (bool_decide (is_Some (web_server (self st))))
       (ext E (logger_info "Shutting down Tornado" []) ;;
        ext E web_server_shutdown ;;
        try_except (ext E (web_server_join 10)) (fun _ => ret tt)) ;;
     clear_cache E ;;
     ext E remove_pid_file ;;
     when (SystemEvent_eqb event RESTART)
       (st <- get ;;
        let popen_list := [sys_executable E; MY_FULLNAME (settings st)] in
        when (negb (is_nil popen_list) && negb (NO_RESTART (settings st)))
          (let popen_list := (popen_list ++ MY_ARGS (settings st))%list in
           let popen_list :=
             if negb (mem "--nolaunch" popen_list)
             then (popen_list ++ ["--nolaunch"])%list else popen_list in
           ext E (logger_info "Restarting SickChill with {options}" popen_list) ;;
           ext E logger_shutdown ;;
           ext E (Popen popen_list (getcwd E))))) ;;
  ext E logger_shutdown ;;
  os_exit 0.

(** *** The specification's reading of the shutdown sequence *)

(** The calls whose exceptions [shutdown] catches: the join of the web
    server and the removal of the cache directory. *)
Definition swallowed (c : call) : bool :=
  match c with
  | web_server_join _ | rmtree _ => true
  | _ => false
  end.

(** Invalidating the cache: remove the directory if there is one, and
    warn when that fails. *)
Definition spec_cache_calls (E : env) (st : proc) : list call :=
  let cache_folder := Path.join (CACHE_DIR (settings st)) "mako" in
  match nodes st !! cache_folder with
  | Some n =>
      if is_dir n then
        rmtree cache_folder
          :: match fails E (rmtree cache_folder) with
             | Some _ => [logger_warning "Unable to remove the cache/mako directory!"]
             | None => []
             end
      else []
  | None => []
  end.

(** The same executable with the original arguments, plus the
    no-launch flag. *)
Definition spec_restart_argv (E : env) (s : Settings) : list string :=
  let original := sys_executable E :: MY_FULLNAME s :: MY_ARGS s in
  if mem "--nolaunch" original then original
  else (original ++ ["--nolaunch"])%list.

(** The teardown in the order the specification gives it. *)
Definition spec_teardown (E : env) (event : SystemEvent) (st : proc) : list call :=
  if started (settings st) then
    ([halt; saveAll]
     ++ match web_server (self st) with
        | Some _ => [logger_info "Shutting down Tornado" [];
                     web_server_shutdown; web_server_join 10]
        | None => []
        end
     ++ spec_cache_calls E st
     ++ [remove_pid_file]
     ++ (if (SystemEvent_eqb event RESTART && negb (NO_RESTART (settings st)))%bool
         then [logger_info "Restarting SickChill with {options}"
                 (spec_restart_argv E (settings st));
               logger_shutdown;
               Popen (spec_restart_argv E (settings st)) (getcwd E)]
         else [])
     ++ [logger_shutdown])%list
  else [logger_shutdown].

(** *** The specification's reading of the preflight *)

Definition can_write (m : gmap string node) (p : string) : bool :=
  match m !! p with Some n => writable n | None => false end.

Definition is_file (m : gmap string node) (p : string) : bool :=
  match m !! p with Some n => negb (is_dir n) | None => false end.





(** A computation that, however it ends, leaves a state related by
    [R] to the one it started in. *)
Definition preserves (R : proc -> proc -> Prop) {A} (m : M proc A) : Prop :=
  forall st, R st (outcome_state (m st)).

(** A relation that holds between a state and itself, composes, and
    is not disturbed by making a call. *)
Record steady (R : proc -> proc -> Prop) : Prop := {
  steady_refl : forall st, R st st;
  steady_trans : forall a b c, R a b -> R b c -> R a c;
  steady_call : forall st c, R st (with_trace st (trace st ++ [c])%list)
}.

(** Nothing of the instance has changed. *)
Definition same_self (a b : proc) : Prop := self b = self a.

(** Only calls have been made: the settings and the instance are as
    they were and the trace has grown. *)
Definition only_calls (a b : proc) : Prop :=
  settings b = settings a /\ self b = self a
  /\ exists l, trace b = (trace a ++ l)%list.

(** The calls [force_update] makes. *)
Definition is_update_call (c : call) : bool :=
  match c with
  | check_installed | PipUpdateManager_update | print _ => true
  | _ => false
  end.

(** *** Sample surroundings *)

Definition sample_settings : Settings :=
  {| MY_FULLNAME := "/app/SickChill.py"; MY_ARGS := ["--port"; "9000"];
     DATA_DIR := "/data"; CONFIG_FILE := "/data/config.ini";
     CACHE_DIR := "/data/cache";
     NO_RESIZE := false; NO_RESTART := false; DEVELOPER := false;
     WEB_PORT := 8081; WEB_HOST := "0.0.0.0"; WEB_IPV6 := false;
     WEB_ROOT := ""; ENABLE_HTTPS := false; LAUNCH_BROWSER := true;
     started := true |}.

Definition sample_self : Self :=
  {| run_as_daemon := false; web_server := Some ∅; forced_port := None;
     no_launch := false; start_port := 8081; console_logging := true;
     flask_server := None |}.

Definition sample_proc : proc :=
  {| settings := sample_settings; self := sample_self;
     nodes := <["/data" := {| is_dir := true; writable := true |}]>
                (<["/data/cache/mako" := {| is_dir := true; writable := true |}]> ∅);
     trace := [] |}.

(** Surroundings in which the calls listed by [failing] raise. *)
Definition sample_env (failing : call -> option exn) : env :=
  {| fails := failing;
     installed := true; update_ok := true; restore_ok := true;
     umask := 18;
     abspath := fun p => p;
     getcwd := "/data";
     sys_executable := "/usr/bin/python3";
     sys_argv := ["SickChill.py"; "--port"; "9000"];
     sys_frozen := false;
     platform_system := "Linux";
     this_file := "/app/SickChill.py";
     chosen_data_dir := "/data";
     current_version := "2024.3.9";
     FlaskServer_imported := true;
     configured := fun s => s |}.

Definition nothing_fails (c : call) : option exn := None.

Definition sample_args : Args :=
  {| force_update := false; noresize := false; quiet := false;
     daemon := false; nolaunch := false; port := Some 9000%Z;
     pidfile := None; datadir := None; config := None;
     flask := true; flask_port := None; flask_host := None |}.

Definition sample_update_args : Args :=
  {| force_update := true; noresize := false; quiet := false;
     daemon := false; nolaunch := false; port := None;
     pidfile := None; datadir := None; config := None;
     flask := false; flask_port := None; flask_host := None |}.

(** A source checkout: the package is not installed. *)
Definition sample_source_env : env :=
  {| fails := nothing_fails;
     installed := false; update_ok := true; restore_ok := true;
     umask := 18;
     abspath := fun p => p;
     getcwd := "/data";
     sys_executable := "/usr/bin/python3";
     sys_argv := ["SickChill.py"; "--force-update"];
     sys_frozen := false;
     platform_system := "Linux";
     this_file := "/app/SickChill.py";
     chosen_data_dir := "/data";
     current_version := "2024.3.9";
     FlaskServer_imported := true;
     configured := fun s => s |}.

(** A process that has just been created: nothing started yet. *)
Definition fresh_proc : proc :=
  {| settings :=
       {| MY_FULLNAME := ""; MY_ARGS := []; DATA_DIR := "";
          CONFIG_FILE := ""; CACHE_DIR := "/data/cache";
          NO_RESIZE := false; NO_RESTART := false; DEVELOPER := false;
          WEB_PORT := 8081; WEB_HOST := "0.0.0.0"; WEB_IPV6 := false;
          WEB_ROOT := ""; ENABLE_HTTPS := false; LAUNCH_BROWSER := true;
          started := false |};
     self :=
       {| run_as_daemon := false; web_server := None; forced_port := None;
          no_launch := false; start_port := 8081; console_logging := true;
          flask_server := None |};
     nodes := <["/data" := {| is_dir := true; writable := true |}]>
                (<["/data/config.ini" := {| is_dir := false; writable := true |}]> ∅);
     trace := [] |}.

(** The same, with a configuration file that may not be written. *)
Definition read_only_config_proc : proc :=
  {| settings := settings fresh_proc; self := self fresh_proc;
     nodes := <["/data" := {| is_dir := true; writable := true |}]>
                (<["/data/config.ini" := {| is_dir := false; writable := false |}]> ∅);
     trace := [] |}.

(** The scheduler cannot be halted. *)
Definition halt_fails (c : call) : option exn :=
  match c with
  | halt => Some (RuntimeError "scheduler did not stop")
  | _ => None
  end.

(** The web server does not join and the cache cannot be removed. *)
Definition swallowed_fail (c : call) : option exn :=
  match c with
  | web_server_join _ => Some (RuntimeError "cannot join current thread")
  | rmtree _ => Some (OSError "Permission denied")
  | _ => None
  end.

End Proc.

(** ** What a restore keeps *)

Module RestoreMore.

(** Every content found in [s] is still found somewhere in [s']. *)
Definition contents_kept (s s' : store) : Prop :=
  forall c p, s !! p = Some c -> exists p', s' !! p' = Some c.

(** Neither the name of a manifest file nor of one of its backups. *)
Definition foreign_name (x : string) : Prop :=
  forall f, In f files_list ->
    x <> f /\ forall t, x <> Path.bak_name f (Path.strftime t).

End RestoreMore.

(** ** Sequences of calls *)

Module ProcMore.
Import Proc.

(** Making the calls [cs] one after the other: a call that raises
    stops the sequence, unless what it raises is swallowed. *)
Fixpoint run_calls (E : env) (cs : list call) : M proc unit :=
  match cs with
  | [] => ret tt
  | c :: rest =>
      record c ;;
      match fails E c with
      | Some e => if swallowed c then run_calls E rest else raise e
      | None => run_calls E rest
      end
  end.

(** The call returns, or what it raises is swallowed. *)
Definition passes (E : env) (c : call) : Prop :=
  swallowed c = true \/ fails E c = None.

(** The calls made from one state to the next all satisfy [ok]. *)
Definition traced (ok : call -> bool) (a b : proc) : Prop :=
  exists l, trace b = (trace a ++ l)%list /\ forallb ok l = true.

(** The three calls that bring the program up: the shows are read from
    the database, the web server is started, the background threads are
    started. *)
Definition milestone (c : call) : bool :=
  match c with
  | load_shows_from_db_call | SRWebServer_start _ | start_threads => true
  | _ => false
  end.

Definition minor (c : call) : bool := negb (milestone c).

(** Between two states exactly one call that satisfies [P] was made,
    among calls that are no milestones. *)
Definition reaches (P : call -> bool) (st st' : proc) : Prop :=
  exists a c b,
    trace st' = (trace st ++ a ++ [c] ++ b)%list
    /\ P c = true /\ forallb minor a = true /\ forallb minor b = true.

Definition reaching (P : call -> bool) {A} (m : M proc A) : Prop :=
  forall st y st', m st = Ret y st' -> reaches P st st'.

Definition is_load (c : call) : bool :=
  match c with load_shows_from_db_call => true | _ => false end.

Definition is_web_start (c : call) : bool :=
  match c with SRWebServer_start _ => true | _ => false end.

Definition is_threads (c : call) : bool :=
  match c with start_threads => true | _ => false end.

(** The same, and the instance still has the value of [no_launch] it
    had. *)
Definition made_only (ok : call -> bool) (a b : proc) : Prop :=
  no_launch (self b) = no_launch (self a)
  /\ exists l, trace b = (trace a ++ l)%list /\ forallb ok l = true.

Definition not_launch (c : call) : bool :=
  match c with
  | launchBrowser _ _ _ => false
  | _ => true
  end.

(** A path as [os.path.abspath] returns it, the root apart: not empty
    and without a separator at its end. *)
Definition plain_dir (d : string) : Prop :=
  d <> "" /\ Path.ends_with_sep d = false.



End ProcMore.

(** ** Tornado's HTTP server: the request context and the message
    delegates of [httpserver.py]

    Strings are sequences of code points below 256, which is what the
    header parser produces (it decodes Latin-1). *)

Module Tornado.

(** *** The string methods [_apply_xheaders] uses *)

(** [s.split(sep)] for a separator of one character, as its first
    piece and the pieces after it: the result of [split] is never
    empty. *)
Fixpoint split_pieces (sep : ascii) (s : string) : string * list string :=
  match s with
  | EmptyString => (EmptyString, [])
  | String c r =>
      let '(h, t) := split_pieces sep r in
      if Ascii.eqb c sep then (EmptyString, h :: t) else (String c h, t)
  end.

Definition split (sep : ascii) (s : string) : list string :=
  let '(h, t) := split_pieces sep s in h :: t.

(** [sep.join(l)]. *)
Fixpoint join (sep : ascii) (l : list string) : string :=
  match l with
  | [] => EmptyString
  | [x] => x
  | x :: rest => x +:+ String sep (join sep rest)
  end.

(** [c.isspace()] below code point 256. *)
Definition is_space (c : ascii) : bool :=
  let n := nat_of_ascii c in
  ((9 <=? n) && (n <=? 13) || (28 <=? n) && (n <=? 32)
   || (n =? 133) || (n =? 160))%nat%bool.

Fixpoint lstrip (s : string) : string :=
  match s with
  | EmptyString => EmptyString
  | String c r => if is_space c then lstrip r else s
  end.

Fixpoint rstrip (s : string) : string :=
  match s with
  | EmptyString => EmptyString
  | String c r =>
      let r' := rstrip r in
      if (String.eqb r' "" && is_space c)%bool
      then EmptyString else String c r'
  end.

(** [s.strip()]. *)
Definition strip (s : string) : string := lstrip (rstrip s).

Fixpoint has_char (x : ascii) (s : string) : bool :=
  match s with
  | EmptyString => false
  | String c r => (Ascii.eqb c x || has_char x r)%bool
  end.

(** Truth value of a string: empty is false. *)
Definition nonempty (s : string) : bool := negb (String.eqb s "").

(** *** Headers *)

(** [HTTPHeaders]: the value (repeated lines joined by commas) under
    each normalised header name. *)
Definition HTTPHeaders : Type := gmap string string.

(** [headers.get(name, default)]. *)
Definition headers_get (headers : HTTPHeaders) (name dflt : string) : string :=
  default dflt (headers !! name).

(** *** _HTTPRequestContext *)

Inductive family : Type := AF_INET | AF_INET6 | AF_UNIX.

(** A socket address: the tuple an internet socket gives, whose first
    item is the host, or the path of a Unix socket. *)
Inductive sockaddr : Type :=
| InetAddr (host : string) (rest : list Z)
| UnixAddr (path : string).

(** [address[0]]; indexing an empty string raises [IndexError]. *)
Definition item0 (a : sockaddr) : option string :=
  match a with
  | InetAddr host _ => Some host
  | UnixAddr EmptyString => None
  | UnixAddr (String c _) => Some (String c EmptyString)
  end.

(** What [__init__] reads of the stream: the family of [stream.socket]
    ([None] when the socket is gone), and whether the stream is an
    [SSLIOStream]. *)
Record IOStream : Type := {
  socket : option family;
  is_ssl : bool
}.

Record _HTTPRequestContext : Type := {
  address : option sockaddr;
  address_family : option family;
  remote_ip : string;
  protocol : string;
  _orig_remote_ip : string;
  _orig_protocol : string;
  trusted_downstream : gset string
}.

Definition is_inet (f : option family) : bool :=
  match f with
  | Some AF_INET | Some AF_INET6 => true
  | _ => false
  end.

(** [_HTTPRequestContext.__init__]; [None] when [address[0]] raises. *)
Definition _HTTPRequestContext_init (stream : IOStream)
    (address : option sockaddr) (protocol : option string)
    (trusted_downstream : option (list string))
  : option _HTTPRequestContext :=
  let address_family := socket stream in
  let made (remote_ip : string) :=
    let protocol :=
      match protocol with
      | Some p => if nonempty p then p
                  else if is_ssl stream then "https" else "http"
      | None => if is_ssl stream then "https" else "http"
      end in
    {| address := address;
       address_family := address_family;
       remote_ip := remote_ip;
       protocol := protocol;
       _orig_remote_ip := remote_ip;
       _orig_protocol := protocol;
       trusted_downstream := list_to_set (default [] trusted_downstream) |} in
  if is_inet address_family then
    match address with
    | Some a => option_map made (item0 a)
    | None => Some (made "0.0.0.0")
    end
  else Some (made "0.0.0.0").

Definition set_remote_ip (ip : string) (self : _HTTPRequestContext)
  : _HTTPRequestContext :=
  {| address := address self; address_family := address_family self;
     remote_ip := ip; protocol := protocol self;
     _orig_remote_ip := _orig_remote_ip self;
     _orig_protocol := _orig_protocol self;
     trusted_downstream := trusted_downstream self |}.

Definition set_protocol (p : string) (self : _HTTPRequestContext)
  : _HTTPRequestContext :=
  {| address := address self; address_family := address_family self;
     remote_ip := remote_ip self; protocol := p;
     _orig_remote_ip := _orig_remote_ip self;
     _orig_protocol := _orig_protocol self;
     trusted_downstream := trusted_downstream self |}.

(** The [for] loop of [_apply_xheaders]: [ip] is bound to each stripped
    candidate in turn, and the loop is left at the first one that is
    not a trusted downstream host. *)
Fixpoint skip_trusted (trusted : gset string) (cands : list string)
    (ip : string) : string :=
  match cands with
  | [] => ip
  | cand :: rest =>
      let ip := strip cand in
      if bool_decide (ip ∈ trusted) then skip_trusted trusted rest ip else ip
  end.

Section Netutil.

(** [netutil.is_valid_ip]. *)
Variable is_valid_ip : string -> bool.

Definition _apply_xheaders (headers : HTTPHeaders)
    (self : _HTTPRequestContext) : _HTTPRequestContext :=
  let ip := headers_get headers "X-Forwarded-For" (remote_ip self) in
  let ip := skip_trusted (trusted_downstream self) (rev (split "," ip)) ip in
  let ip := headers_get headers "X-Real-Ip" ip in
  let self := if is_valid_ip ip then set_remote_ip ip self else self in
  let proto_header :=
    headers_get headers "X-Scheme"
      (headers_get headers "X-Forwarded-Proto" (protocol self)) in
  let proto_header :=
    if nonempty proto_header
    then strip (List.last (split "," proto_header) "")
    else proto_header in
  if (String.eqb proto_header "http" || String.eqb proto_header "https")%bool
  then set_protocol proto_header self else self.

End Netutil.

Definition _unapply_xheaders (self : _HTTPRequestContext)
  : _HTTPRequestContext :=
  set_protocol (_orig_protocol self) (set_remote_ip (_orig_remote_ip self) self).

(** *** Message delegates *)

(** What a method of a delegate can raise. *)
Inductive error : Type :=
| AssertionError
| AttributeError (name : string)
| Raised (what : string).

(** A method returns or raises; either way the state it leaves stays
    as it is. *)
Inductive result (S A : Type) : Type :=
| Ok (a : A) (s : S)
| Err (e : error) (s : S).
Arguments Ok {S A} a s.
Arguments Err {S A} e s.

Definition T (S A : Type) : Type := S -> result S A.

Definition done {S A} (a : A) : T S A := fun s => Ok a s.

Definition and_then {S A B} (m : T S A) (k : A -> T S B) : T S B :=
  fun s =>
    match m s with
    | Ok a s' => k a s'
    | Err e s' => Err e s'
    end.

Definition throw {S A} (e : error) : T S A := fun s => Err e s.

Definition change {S} (f : S -> S) : T S unit := fun s => Ok tt (f s).

Definition state_of {S A} (r : result S A) : S :=
  match r with
  | Ok _ s | Err _ s => s
  end.

Declare Scope http_scope.
Delimit Scope http_scope with http.
Notation "x <- m ;; k" := (and_then m (fun x => k))
  (at level 100, m at next level, k at level 200, right associativity)
  : http_scope.
Notation "m ;; k" := (and_then m (fun _ => k))
  (at level 100, k at level 200, right associativity) : http_scope.
Local Open Scope http_scope.

Definition bytes : Type := list Byte.byte.

(** A connection as the delegates see it: its request context, shared
    by all the requests it carries, and the state of the delegate [D]
    of the current request. *)
Record connection (D : Type) : Type := {
  context : _HTTPRequestContext;
  delegate : D
}.
Arguments context {D} _.
Arguments delegate {D} _.

Definition on_context {D} (f : _HTTPRequestContext -> _HTTPRequestContext)
  : T (connection D) unit :=
  change (fun w => {| context := f (context w); delegate := delegate w |}).

Definition on_delegate {D} (f : D -> D) : T (connection D) unit :=
  change (fun w => {| context := context w; delegate := f (delegate w) |}).

(** [httputil.HTTPMessageDelegate].  A method is taken with what it has
    done once it is over: what it returns to be awaited is not kept. *)
Record HTTPMessageDelegate (D : Type) : Type := {
  headers_received : string -> HTTPHeaders -> T (connection D) unit;
  data_received : bytes -> T (connection D) unit;
  finish : T (connection D) unit;
  on_connection_close : T (connection D) unit
}.
Arguments headers_received {D} _ _ _.
Arguments data_received {D} _ _.
Arguments finish {D} _.
Arguments on_connection_close {D} _.

(** **** _CallableAdapter *)

(** [httputil.HTTPServerRequest], as far as the adapter fills it. *)
Record HTTPServerRequest : Type := {
  start_line : string;
  headers : HTTPHeaders;
  body : bytes
}.

(** The calls the adapter makes out of this file. *)
Inductive call : Type :=
| _parse_body (request : HTTPServerRequest)
| request_callback (request : HTTPServerRequest).

(** The attributes of a [_CallableAdapter]; [_chunks] is [None] once
    [del self._chunks] has run.  [made] lists the calls made so far. *)
Record CallableAdapter : Type := {
  request : option HTTPServerRequest;
  _chunks : option (list bytes);
  made : list call
}.

(** [_CallableAdapter.__init__]. *)
Definition CallableAdapter_init : CallableAdapter :=
  {| request := None; _chunks := Some []; made := [] |}.

(** A call out of this file: noted, and it returns or raises as
    [raises] says. *)
Definition external (raises : call -> option string) (c : call)
  : T (connection CallableAdapter) unit :=
  on_delegate (fun a => {| request := request a; _chunks := _chunks a;
                           made := (made a ++ [c])%list |}) ;;
  match raises c with
  | Some what => throw (Raised what)
  | None => done tt
  end.

Definition _CallableAdapter (raises : call -> option string)
  : HTTPMessageDelegate CallableAdapter :=
  {| headers_received := fun start_line headers =>
       on_delegate (fun a =>
         {| request := Some {| start_line := start_line;
                               headers := headers; body := [] |};
            _chunks := _chunks a; made := made a |});
     data_received := fun chunk =>
       fun w =>
         match _chunks (delegate w) with
         | Some chunks =>
             on_delegate (fun a =>
               {| request := request a; _chunks := Some (chunks ++ [chunk])%list;
                  made := made a |}) w
         | None => throw (AttributeError "_chunks") w
         end;
     finish :=
       fun w =>
         match request (delegate w) with
         | None => throw AssertionError w
         | Some r =>
             match _chunks (delegate w) with
             | None => throw (AttributeError "_chunks") w
             | Some chunks =>
                 let r := {| start_line := start_line r;
                             headers := headers r;
                             body := concat chunks |} in
                 (on_delegate (fun a =>
                    {| request := Some r; _chunks := _chunks a;
                       made := made a |}) ;;
                  external raises (_parse_body r) ;;
                  external raises (request_callback r)) w
             end
         end;
     on_connection_close :=
       fun w =>
         match _chunks (delegate w) with
         | Some _ =>
             on_delegate (fun a =>
               {| request := request a; _chunks := None;
                  made := made a |}) w
         | None => throw (AttributeError "_chunks") w
         end |}.

(** **** _ProxyAdapter *)

Definition _cleanup {D} : T (connection D) unit :=
  on_context _unapply_xheaders.

Definition _ProxyAdapter {D} (is_valid_ip : string -> bool)
    (inner : HTTPMessageDelegate D) : HTTPMessageDelegate D :=
  {| headers_received := fun start_line headers =>
       on_context (_apply_xheaders is_valid_ip headers) ;;
       headers_received inner start_line headers;
     data_received := fun chunk => data_received inner chunk;
     finish := finish inner ;; _cleanup;
     on_connection_close := on_connection_close inner ;; _cleanup |}.

(** The calls a connection makes on the delegate of a request that
    arrives whole: the headers, the body chunk by chunk, the end. *)
Fixpoint receive {D} (d : HTTPMessageDelegate D) (chunks : list bytes)
  : T (connection D) unit :=
  match chunks with
  | [] => done tt
  | chunk :: rest => data_received d chunk ;; receive d rest
  end.

Definition serve {D} (d : HTTPMessageDelegate D) (start_line : string)
    (headers : HTTPHeaders) (chunks : list bytes) : T (connection D) unit :=
  headers_received d start_line headers ;;
  receive d chunks ;;
  finish d.

(** The delegate leaves the request context as it finds it, whatever
    it is given and however it ends. *)
Definition keeps_context {D} (d : HTTPMessageDelegate D) : Prop :=
  (forall start_line headers w,
      context (state_of (headers_received d start_line headers w)) = context w)
  /\ (forall chunk w, context (state_of (data_received d chunk w)) = context w)
  /\ (forall w, context (state_of (finish d w)) = context w)
  /\ (forall w, context (state_of (on_connection_close d w)) = context w).

(** The context after the headers of several requests have been
    applied one after the other. *)
Definition apply_all (is_valid_ip : string -> bool)
    (requests : list HTTPHeaders) (self : _HTTPRequestContext)
  : _HTTPRequestContext :=
  fold_left (fun self headers => _apply_xheaders is_valid_ip headers self)
    requests self.

(** *** A connection to try things on *)

(** A plain TCP stream from 192.0.2.1, behind the proxy 10.0.0.1. *)
Definition sample_stream : IOStream :=
  {| socket := Some AF_INET; is_ssl := false |}.

Definition sample_context : _HTTPRequestContext :=
  {| address := Some (InetAddr "192.0.2.1" [51234%Z]);
     address_family := Some AF_INET;
     remote_ip := "192.0.2.1"; protocol := "http";
     _orig_remote_ip := "192.0.2.1"; _orig_protocol := "http";
     trusted_downstream := list_to_set ["10.0.0.1"] |}.

(** Stands in for [netutil.is_valid_ip]: dotted digits. *)
Fixpoint dotted_digits (s : string) : bool :=
  match s with
  | EmptyString => true
  | String c r =>
      let n := nat_of_ascii c in
      (((48 <=? n) && (n <=? 57) || (n =? 46)) && dotted_digits r)%nat%bool
  end.

Definition sample_is_valid_ip (ip : string) : bool :=
  (nonempty ip && dotted_digits ip)%bool.

Definition forwarded_headers : HTTPHeaders :=
  {[ "X-Forwarded-For" := "198.51.100.9, 203.0.113.7, 10.0.0.1" ]}.

Definition secure_headers : HTTPHeaders :=
  <["X-Forwarded-Proto" := "https"]> forwarded_headers.

Definition plain_headers : HTTPHeaders :=
  {[ "Host" := "example.org" ]}.

End Tornado.

(** * Properties *)

(** ** Sequencing *)

Module PyFacts.

Lemma bind_ret_inv {S A C} (m : M S A) (k : A -> M S C) s c s' :
  (x <- m ;; k x) s = Ret c s' ->
  exists a s1, m s = Ret a s1 /\ k a s1 = Ret c s'.
Proof.
  unfold bind. destruct (m s) as [a s1|e s1|x s1]; try discriminate.
  intros H. now exists a, s1.
Qed.

End PyFacts.

(** ** Paths *)

Module PathFacts.
Import Path.

Lemma append_cons x (a b : string) : String x a +:+ b = String x (a +:+ b).
Proof. reflexivity. Qed.

Lemma append_assoc (a b c : string) : (a +:+ b) +:+ c = a +:+ b +:+ c.
Proof.
  induction a as [|x a IH]; [reflexivity|].
  now rewrite !append_cons, IH.
Qed.

Lemma length_append (a b : string) :
  String.length (a +:+ b) = String.length a + String.length b.
Proof.
  induction a as [|x a IH]; [reflexivity|].
  rewrite append_cons. simpl. now rewrite IH.
Qed.

Lemma append_inv_tail (u v w : string) : u +:+ w = v +:+ w -> u = v.
Proof.
  intros H.
  assert (String.length u = String.length v) as Hlen.
  { apply (f_equal String.length) in H. rewrite !length_append in H. lia. }
  revert v H Hlen. induction u as [|c u IH]; intros [|c' v] H Hlen;
    simpl in Hlen; try discriminate; [reflexivity|].
  rewrite !append_cons in H.
  injection H as -> H. f_equal. apply IH; [exact H | lia].
Qed.

Lemma join_relative a b :
  has_sep b = false -> join a b = dir_prefix a +:+ b.
Proof.
  intros Hb. unfold join, dir_prefix.
  assert (starts_with_sep b = false) as ->.
  { destruct b as [|c r]; [reflexivity|]. simpl in *.
    destruct (Ascii.eqb c sep); [discriminate | reflexivity]. }
  destruct (String.eqb a "" || ends_with_sep a)%bool; [reflexivity|].
  now rewrite append_assoc.
Qed.

Lemma ends_with_sep_split a :
  ends_with_sep a = true -> exists d, a = d +:+ "/".
Proof.
  induction a as [|c a IH]; [discriminate|].
  destruct a as [|c' a'].
  - simpl. intros H. apply Ascii.eqb_eq in H. subst c. now exists "".
  - intros H. destruct IH as [d Hd]; [exact H|].
    exists (String c d). now rewrite append_cons, <- Hd.
Qed.

Lemma has_sep_app a b : has_sep (a +:+ b) = (has_sep a || has_sep b)%bool.
Proof.
  induction a as [|c a IH]; [reflexivity|].
  rewrite append_cons. simpl. rewrite IH. now destruct (Ascii.eqb c sep).
Qed.

Lemma basename_sep_free x : has_sep x = false -> basename x = x.
Proof.
  destruct x as [|c r]; simpl; [reflexivity|]. intros H.
  apply orb_false_iff in H as [Hc Hr]. now rewrite Hr, Hc.
Qed.

Lemma basename_after_sep d x :
  has_sep x = false -> basename (d +:+ "/" +:+ x) = x.
Proof.
  intros Hx. induction d as [|c d IH].
  - change ("" +:+ "/" +:+ x) with (String sep x).
    cbn [basename]. now rewrite Hx, Ascii.eqb_refl.
  - rewrite append_cons. cbn [basename].
    rewrite has_sep_app, has_sep_app. cbn [has_sep].
    rewrite Ascii.eqb_refl. cbn [orb]. rewrite orb_true_r. exact IH.
Qed.

Lemma basename_join a x : has_sep x = false -> basename (join a x) = x.
Proof.
  intros Hx. rewrite join_relative by assumption. unfold dir_prefix.
  destruct (String.eqb a "") eqn:Ha; cbn [orb].
  - apply String.eqb_eq in Ha. subst a. now apply basename_sep_free.
  - destruct (ends_with_sep a) eqn:Hs.
    + destruct (ends_with_sep_split a Hs) as [d ->].
      rewrite append_assoc. now apply basename_after_sep.
    + rewrite append_assoc. now apply basename_after_sep.
Qed.

(** Two joined paths are equal only if their last components are. *)
Lemma join_leaf_inj a b x y :
  has_sep x = false -> has_sep y = false -> join a x = join b y -> x = y.
Proof.
  intros Hx Hy H. apply (f_equal basename) in H.
  now rewrite !basename_join in H by assumption.
Qed.

(** Whether two directories give the same paths does not depend on
    the file name. *)
Lemma join_same_dir a b x y :
  has_sep x = false -> has_sep y = false ->
  join a x = join b x -> join a y = join b y.
Proof.
  intros Hx Hy H. rewrite !join_relative in * by assumption.
  apply append_inv_tail in H. now rewrite H.
Qed.

Lemma digit_not_sep n : Ascii.eqb (digit n) sep = false.
Proof.
  unfold digit. pose proof (Nat.mod_upper_bound n 10 ltac:(lia)) as H.
  destruct (n mod 10) as [|[|[|[|[|[|[|[|[|[|k]]]]]]]]]]; try reflexivity; lia.
Qed.

Lemma strftime_sep_free t : has_sep (strftime t) = false.
Proof.
  unfold strftime, pad4, pad2. cbv [String.append]. cbn [has_sep].
  rewrite !digit_not_sep. reflexivity.
Qed.

Lemma bak_name_sep_free f t :
  has_sep f = false -> has_sep (bak_name f (strftime t)) = false.
Proof.
  intros Hf. unfold bak_name. rewrite !has_sep_app, Hf, strftime_sep_free.
  reflexivity.
Qed.

End PathFacts.

(** ** restore_db *)

Module RestoreFacts.
Import Path PyFacts PathFacts.

Ltac sep_free :=
  first [ reflexivity | apply bak_name_sep_free; reflexivity ].

(** Two paths with different last components are different. *)
Ltac path_ne :=
  let H := fresh "Heq" in
  unfold bak_file; intros H;
  apply join_leaf_inj in H; [ | sep_free | sep_free ];
  unfold bak_name in H; cbv [String.append] in H; discriminate H.

Section Run.
Context (E : os_env) (src dst : string).

Local Abbreviation P f := (Path.join src f).
Local Abbreviation D f := (Path.join dst f).
Local Abbreviation B i f := (bak_file E dst i f).
Local Abbreviation T f := (target src dst f).

Lemma shutil_move_ret a b (s s' : store) :
  shutil_move E a b s = Ret tt s' ->
  exists c, s !! a = Some c /\ os_refuses E a b = false
            /\ s' = <[b := c]> (delete a s).
Proof.
  unfold shutil_move. destruct (s !! a) as [c|]; [|discriminate].
  destruct (os_refuses E a b); [discriminate|].
  intros [= <-]. now exists c.
Qed.

Lemma shutil_move_frame a b (s : store) p :
  p <> a -> p <> b ->
  outcome_state (shutil_move E a b s) !! p = s !! p.
Proof.
  intros Hpa Hpb. unfold shutil_move.
  destruct (s !! a) as [c|]; [|reflexivity].
  destruct (os_refuses E a b); cbn [outcome_state].
  - destruct (copied E a b); [destruct (String.eqb a b)|]; try reflexivity.
    now rewrite lookup_insert_ne by congruence.
  - rewrite lookup_insert_ne by congruence.
    now rewrite lookup_delete_ne by congruence.
Qed.

Lemma shutil_move_no_exit a b (s : store) x s' :
  shutil_move E a b s <> Exit x s'.
Proof.
  unfold shutil_move. destruct (s !! a); [|discriminate].
  destruct (os_refuses E a b); discriminate.
Qed.

(** An iteration, with its tests resolved against the store. *)
Lemma restore_step_unfold i f (s : store) :
  restore_step E src dst i f s =
  match s !! P f with
  | None => Ret tt s
  | Some _ =>
      match s !! T f with
      | None => shutil_move E (P f) (T f) s
      | Some _ =>
          (shutil_move E (T f) (B i f) ;; shutil_move E (P f) (T f)) s
      end
  end.
Proof.
  unfold restore_step, isfile, bind at 1, target, bak_file.
  destruct (s !! P f) as [c|] eqn:Hsrc.
  - rewrite bool_decide_eq_true_2 by eauto.
    set (t := if String.eqb (P f) (P "sickbeard.db") then _ else _).
    unfold bind at 1.
    destruct (s !! t) as [d|] eqn:Hdst.
    + rewrite bool_decide_eq_true_2 by eauto. reflexivity.
    + rewrite bool_decide_eq_false_2 by (intros [? ?]; congruence).
      reflexivity.
  - rewrite bool_decide_eq_false_2 by (intros [? ?]; congruence).
    reflexivity.
Qed.

Lemma target_legacy : T "sickbeard.db" = D "sickchill.db".
Proof. unfold target. now rewrite String.eqb_refl. Qed.

Lemma target_current f :
  has_sep f = false -> f <> "sickbeard.db" -> T f = D f.
Proof.
  intros Hf Hne. unfold target.
  destruct (String.eqb_spec (P f) (P "sickbeard.db")) as [Heq|]; [|reflexivity].
  apply join_leaf_inj in Heq; [congruence | assumption | reflexivity].
Qed.

(** An iteration touches three paths at most. *)
Lemma restore_step_frame i f (s : store) p :
  p <> P f -> p <> T f -> p <> B i f ->
  outcome_state (restore_step E src dst i f s) !! p = s !! p.
Proof.
  intros Hp Ht Hb. rewrite restore_step_unfold.
  destruct (s !! P f); [|reflexivity].
  destruct (s !! T f).
  - unfold bind.
    pose proof (shutil_move_frame (T f) (B i f) s p Ht Hb) as H1.
    destruct (shutil_move E (T f) (B i f) s) as [[] s1'|e s1'|x s1'];
      simpl in H1; [|exact H1|exact H1].
    rewrite <- H1. now apply shutil_move_frame.
  - now apply shutil_move_frame.
Qed.

Lemma restore_step_no_exit i f (s : store) x s' :
  restore_step E src dst i f s <> Exit x s'.
Proof.
  rewrite restore_step_unfold.
  destruct (s !! P f); [|discriminate].
  destruct (s !! T f); [|apply shutil_move_no_exit].
  unfold bind.
  destruct (shutil_move E (T f) (B i f) s) as [[] s1'|e s1'|y s1'] eqn:Hm;
    [apply shutil_move_no_exit|discriminate|].
  now apply shutil_move_no_exit in Hm.
Qed.

Lemma restore_loop_frame files : forall i (s : store) p,
  (forall k f, files !! k = Some f ->
               p <> P f /\ p <> T f /\ p <> B (i + k) f) ->
  outcome_state (restore_loop E src dst i files s) !! p = s !! p.
Proof.
  induction files as [|f files IH]; intros i s p Hp; [reflexivity|].
  cbn [restore_loop]. unfold bind.
  destruct (Hp 0 f eq_refl) as (H1 & H2 & H3).
  rewrite Nat.add_0_r in H3.
  pose proof (restore_step_frame i f s p H1 H2 H3) as Hs.
  destruct (restore_step E src dst i f s) as [[] s1'|e s1'|x s1'];
    simpl in Hs; [|exact Hs|exact Hs].
  rewrite <- Hs. apply IH. intros k g Hk.
  specialize (Hp (S k) g Hk). now rewrite Nat.add_succ_r in Hp.
Qed.

Lemma restore_loop_ret_frame files i (s s' : store) p :
  restore_loop E src dst i files s = Ret tt s' ->
  (forall k f, files !! k = Some f ->
               p <> P f /\ p <> T f /\ p <> B (i + k) f) ->
  s' !! p = s !! p.
Proof.
  intros Hrun Hp. pose proof (restore_loop_frame files i s p Hp) as H.
  now rewrite Hrun in H.
Qed.

(** A successful call went through the loop and the statements
    after it. *)
Lemma restore_db_true (s s' : store) :
  restore_db E src dst s = Ret true s' ->
  exists s5, restore_loop E src dst 0 files_list s = Ret tt s5
             /\ restore_legacy E dst s5 = Ret tt s'.
Proof.
  unfold restore_db, try_except, restore_body.
  destruct ((restore_loop E src dst 0 files_list ;;
             restore_legacy E dst ;; ret true) s) as [b s1|e s1|x s1] eqn:Hb;
    [|discriminate|discriminate].
  intros [= -> ->].
  apply bind_ret_inv in Hb as ([] & s5 & Hloop & Hb).
  apply bind_ret_inv in Hb as ([] & s6 & Hleg & Hb).
  injection Hb as <-. now exists s5.
Qed.

Lemma restore_loop_cons i f files (s s' : store) :
  restore_loop E src dst i (f :: files) s = Ret tt s' ->
  exists s1, restore_step E src dst i f s = Ret tt s1
             /\ restore_loop E src dst (S i) files s1 = Ret tt s'.
Proof.
  cbn [restore_loop]. intros H.
  apply bind_ret_inv in H as ([] & s1 & H1 & H2). now exists s1.
Qed.

(** Moving the only file with content [c] takes the content along;
    moving another file leaves it where it is. *)
Lemma shutil_move_held_from a b (s s' : store) c :
  shutil_move E a b s = Ret tt s' ->
  held_only_at s c a -> held_only_at s' c b.
Proof.
  intros Hm Hc. apply shutil_move_ret in Hm as (x & Hx & _ & ->).
  intros q Hq. destruct (decide (q = b)) as [->|Hqb]; [reflexivity|].
  rewrite lookup_insert_ne in Hq by congruence.
  destruct (decide (q = a)) as [->|Hqa].
  - now rewrite lookup_delete_eq in Hq.
  - rewrite lookup_delete_ne in Hq by congruence.
    now apply Hc in Hq.
Qed.

Lemma shutil_move_held_other a b (s s' : store) c p :
  shutil_move E a b s = Ret tt s' ->
  held_only_at s c p -> a <> p -> held_only_at s' c p.
Proof.
  intros Hm Hc Hap. apply shutil_move_ret in Hm as (x & Hx & _ & ->).
  intros q Hq. destruct (decide (q = b)) as [->|Hqb].
  - rewrite lookup_insert_eq in Hq. injection Hq as ->.
    apply Hc in Hx. congruence.
  - rewrite lookup_insert_ne in Hq by congruence.
    destruct (decide (q = a)) as [->|Hqa].
    + now rewrite lookup_delete_eq in Hq.
    + rewrite lookup_delete_ne in Hq by congruence. now apply Hc.
Qed.

Lemma restore_step_held i f (s s' : store) c p :
  restore_step E src dst i f s = Ret tt s' ->
  held_only_at s c p -> p <> P f -> p <> T f -> held_only_at s' c p.
Proof.
  intros Hrun Hc Hp Ht. rewrite restore_step_unfold in Hrun.
  destruct (s !! P f); [|now injection Hrun as <-].
  destruct (s !! T f).
  - apply bind_ret_inv in Hrun as ([] & sb & Hbak & Hmove).
    eapply shutil_move_held_other; [exact Hmove| |congruence].
    eapply shutil_move_held_other; [exact Hbak|exact Hc|congruence].
  - eapply shutil_move_held_other; [exact Hrun|exact Hc|congruence].
Qed.

Lemma restore_loop_held files : forall i (s s' : store) c p,
  restore_loop E src dst i files s = Ret tt s' ->
  held_only_at s c p ->
  (forall k f, files !! k = Some f ->
               p <> P f /\ p <> T f /\ p <> B (i + k) f) ->
  held_only_at s' c p.
Proof.
  induction files as [|f files IH]; intros i s s' c p Hrun Hc Hp.
  - now injection Hrun as <-.
  - apply restore_loop_cons in Hrun as (s1 & Hstep & Hrun).
    destruct (Hp 0 f eq_refl) as (H1 & H2 & _).
    eapply IH; [exact Hrun| |].
    + eapply restore_step_held; eassumption.
    + intros k g Hk. specialize (Hp (S k) g Hk).
      now rewrite Nat.add_succ_r in Hp.
Qed.

(** The first iteration, when the backup has a legacy database:
    it ends up under the current name, whatever was there before. *)
Lemma restore_step_legacy (s s1 : store) c :
  restore_step E src dst 0 "sickbeard.db" s = Ret tt s1 ->
  s !! P "sickbeard.db" = Some c ->
  s1 !! D "sickchill.db" = Some c
  /\ s1 !! P "sickbeard.db" = None
  /\ (held_only_at s c (P "sickbeard.db") ->
      held_only_at s1 c (D "sickchill.db")).
Proof.
  intros Hrun Hsrc.
  rewrite restore_step_unfold, Hsrc, target_legacy in Hrun.
  destruct (s !! D "sickchill.db") as [d|] eqn:Hdst.
  - apply bind_ret_inv in Hrun as ([] & sb & Hbak & Hmove).
    pose proof Hmove as Hmove'. pose proof Hbak as Hbak'.
    apply shutil_move_ret in Hbak as (d' & _ & _ & ->).
    apply shutil_move_ret in Hmove as (c' & Hc' & _ & ->).
    rewrite lookup_insert_ne, lookup_delete_ne, Hsrc in Hc' by path_ne.
    injection Hc' as <-.
    split; [apply lookup_insert_eq|]. split.
    + rewrite lookup_insert_ne by path_ne. apply lookup_delete_eq.
    + intros Hc. eapply shutil_move_held_from; [exact Hmove'|].
      eapply shutil_move_held_other; [exact Hbak'|exact Hc|path_ne].
  - pose proof Hrun as Hmove'.
    apply shutil_move_ret in Hrun as (c' & Hc' & _ & ->).
    rewrite Hsrc in Hc'. injection Hc' as <-.
    split; [apply lookup_insert_eq|]. split.
    + rewrite lookup_insert_ne by path_ne. apply lookup_delete_eq.
    + intros Hc. eapply shutil_move_held_from; eassumption.
Qed.

(** With the backup and the data in one directory the second
    iteration finds its source gone, so a call that succeeded had
    two directories. *)
Lemma restore_db_true_distinct_dirs (s s' : store) c :
  s !! P "sickbeard.db" = Some c ->
  restore_db E src dst s = Ret true s' ->
  P "sickchill.db" <> D "sickchill.db".
Proof.
  intros Hleg Hrun Hsame.
  apply restore_db_true in Hrun as (s5 & Hloop & _).
  unfold files_list in Hloop.
  apply restore_loop_cons in Hloop as (s1 & Hstep0 & Hloop).
  apply restore_loop_cons in Hloop as (s2 & Hstep1 & _).
  destruct (restore_step_legacy s s1 c Hstep0 Hleg) as (H1dst & _ & _).
  rewrite restore_step_unfold in Hstep1.
  rewrite (target_current "sickchill.db") in Hstep1
    by (reflexivity || discriminate).
  rewrite Hsame, H1dst in Hstep1.
  apply bind_ret_inv in Hstep1 as ([] & sb & Hbak & Hmove).
  apply shutil_move_ret in Hbak as (d & _ & _ & ->).
  apply shutil_move_ret in Hmove as (c' & Hc & _ & _).
  rewrite lookup_insert_ne, lookup_delete_eq in Hc by path_ne.
  discriminate.
Qed.

(** A move that raises leaves the store as it was, or with what its
    copy had written at the destination. *)
Lemma shutil_move_raise a b (s s' : store) e :
  shutil_move E a b s = Raise e s' ->
  s' = s
  \/ exists c n, s !! a = Some c /\ a <> b /\ s' = <[b := copy_part n c]> s.
Proof.
  unfold shutil_move. destruct (s !! a) as [c|]; [|intros [= _ <-]; now left].
  destruct (os_refuses E a b); [|discriminate].
  intros [= _ <-].
  destruct (copied E a b) as [n|]; [|now left].
  destruct (String.eqb_spec a b); [now left|].
  right. now exists c, n.
Qed.

(** An iteration that raises has left the store as it was, or with
    part of a copy at the backup path or at the destination, or with
    the destination file moved to its backup, and then possibly part
    of a copy of the source at the destination. *)
Lemma restore_step_raise i f (s s' : store) e :
  restore_step E src dst i f s = Raise e s' ->
  s' = s
  \/ (exists c n, s !! P f = Some c /\ s !! T f = None
                  /\ s' = <[T f := copy_part n c]> s)
  \/ (exists d n, s !! T f = Some d /\ s' = <[B i f := copy_part n d]> s)
  \/ (exists d, s !! T f = Some d /\ s' = <[B i f := d]> (delete (T f) s))
  \/ (exists d c n,
        s !! T f = Some d
        /\ (<[B i f := d]> (delete (T f) s)) !! P f = Some c
        /\ s' = <[T f := copy_part n c]> (<[B i f := d]> (delete (T f) s))).
Proof.
  rewrite restore_step_unfold.
  destruct (s !! P f) as [c0|] eqn:Hc0; [|discriminate].
  destruct (s !! T f) as [d|] eqn:Hd.
  - unfold bind.
    destruct (shutil_move E (T f) (B i f) s) as [[] sb|e' sb|x sb] eqn:Hbak;
      [| |discriminate].
    + intros Hmove.
      apply shutil_move_ret in Hbak as (d' & Hd' & _ & ->).
      assert (d' = d) as -> by congruence.
      apply shutil_move_raise in Hmove as [->|(c & n & Hc & _ & ->)].
      * right. right. right. left. now exists d.
      * right. right. right. right. now exists d, c, n.
    + intros [= _ <-].
      apply shutil_move_raise in Hbak as [->|(d' & n & Hd' & _ & ->)].
      * now left.
      * right. right. left. exists d, n. split; [reflexivity|]. congruence.
  - intros Hmove.
    apply shutil_move_raise in Hmove as [->|(c & n & Hc & _ & ->)].
    + now left.
    + right. left. exists c, n. split; [congruence|]. now split.
Qed.

Lemma restore_loop_app pre : forall i rest (s : store),
  restore_loop E src dst i (pre ++ rest)%list s =
  (restore_loop E src dst i pre ;;
   restore_loop E src dst (i + length pre) rest) s.
Proof.
  induction pre as [|f pre IH]; intros i rest s.
  - cbn. now rewrite Nat.add_0_r.
  - cbn [restore_loop app length]. unfold bind.
    destruct (restore_step E src dst i f s) as [[] s1|e s1|x s1];
      [|reflexivity|reflexivity].
    rewrite IH. unfold bind. now rewrite Nat.add_succ_r.
Qed.

Lemma restore_loop_no_exit files : forall i (s : store) x s',
  restore_loop E src dst i files s <> Exit x s'.
Proof.
  induction files as [|f files IH]; intros i s x s'; [discriminate|].
  cbn [restore_loop]. unfold bind.
  destruct (restore_step E src dst i f s) as [[] s1|e s1|y s1] eqn:Hs;
    [apply IH|discriminate|].
  now apply restore_step_no_exit in Hs.
Qed.

Lemma restore_body_no_exit (s : store) x s' :
  restore_body E src dst s <> Exit x s'.
Proof.
  unfold restore_body, bind.
  destruct (restore_loop E src dst 0 files_list s) as [[] s1|e s1|y s1] eqn:Hl;
    [|discriminate|now apply restore_loop_no_exit in Hl].
  unfold restore_legacy, bind, isfile, when.
  destruct (_ && _)%bool; [|discriminate].
  destruct (shutil_move E (D "sickbeard.db") (D "sickchill.db") s1)
    as [[] s2|e s2|y s2] eqn:Hm; try discriminate.
  now apply shutil_move_no_exit in Hm.
Qed.

(** When the current database is in place the statements after the
    loop change nothing. *)
Lemma restore_legacy_current (s : store) c :
  s !! D "sickchill.db" = Some c -> restore_legacy E dst s = Ret tt s.
Proof.
  intros Hc. unfold restore_legacy, bind, isfile.
  rewrite (bool_decide_eq_true_2 (is_Some (s !! D "sickchill.db"))) by eauto.
  now rewrite andb_false_r.
Qed.

End Run.

(** The last three iterations leave alone every path whose last
    component is none of their files or backups. *)
Ltac tail_untouched :=
  let k := fresh "k" in
  let f := fresh "f" in
  let Hk := fresh "Hk" in
  intros k f Hk;
  destruct k as [|[|[|k]]]; simpl in Hk; try discriminate Hk;
  injection Hk as <-;
  (split; [|split]);
  rewrite ?target_current by (first [reflexivity | discriminate]);
  path_ne.

End RestoreFacts.

Module RestoreClaims.
Import Path PyFacts PathFacts RestoreFacts.

(** C1 (as the code has it).  When [src_dir] holds [sickbeard.db] and
    no [sickchill.db], [dst_dir] holds a [sickchill.db], and
    [restore_db] returns [True], then afterwards [dst_dir/sickchill.db]
    has the content that was in [src_dir/sickbeard.db], and the former
    content of [dst_dir/sickchill.db] is in
    [dst_dir/sickbeard.db.bak-<timestamp>]: the backup is named after
    the manifest entry being processed, with the time of the first
    iteration. *)
Theorem restore_db_backup_named_after_manifest_entry
    (E : os_env) (src dst : string) (s s' : store) (c_src c_dst : string) :
  s !! Path.join src "sickbeard.db" = Some c_src ->
  s !! Path.join dst "sickchill.db" = Some c_dst ->
  s !! Path.join src "sickchill.db" = None ->
  restore_db E src dst s = Ret true s' ->
  s' !! Path.join dst "sickchill.db" = Some c_src
  /\ s' !! Path.join dst
            (bak_name "sickbeard.db" (strftime (now E 0))) = Some c_dst
  /\ s' !! Path.join src "sickbeard.db" = None.
Proof.
  intros Hsrc Hdst Hnone Hrun.
  assert (Path.join src "sickchill.db" <> Path.join dst "sickchill.db")
    as Hdirs by congruence.
  apply restore_db_true in Hrun as (s5 & Hloop & Hleg).
  unfold files_list in Hloop.
  apply restore_loop_cons in Hloop as (s1 & Hstep0 & Hloop).
  apply restore_loop_cons in Hloop as (s2 & Hstep1 & Hloop).
  (* first iteration: back up, then move the legacy file in *)
  rewrite restore_step_unfold, Hsrc, target_legacy, Hdst in Hstep0.
  apply bind_ret_inv in Hstep0 as ([] & sb & Hbak & Hmove).
  apply shutil_move_ret in Hbak as (d & Hd & _ & ->).
  apply shutil_move_ret in Hmove as (c & Hc & _ & ->).
  rewrite Hdst in Hd. injection Hd as <-.
  rewrite lookup_insert_ne in Hc by path_ne.
  rewrite lookup_delete_ne in Hc by path_ne.
  rewrite Hsrc in Hc. injection Hc as <-.
  (* second iteration: nothing to move *)
  rewrite restore_step_unfold in Hstep1.
  rewrite lookup_insert_ne, lookup_delete_ne, lookup_insert_ne,
    lookup_delete_ne, Hnone in Hstep1 by (congruence || path_ne).
  injection Hstep1 as <-.
  (* the rest of the loop and the statements after it *)
  pose proof (fun p => restore_loop_ret_frame E src dst _ _ _ _ p Hloop)
    as Hframe.
  assert (s5 !! Path.join dst "sickchill.db" = Some c_src) as H5.
  { rewrite Hframe by tail_untouched. apply lookup_insert_eq. }
  rewrite (restore_legacy_current E dst s5 c_src H5) in Hleg.
  injection Hleg as <-.
  split; [exact H5|]. split.
  - fold (bak_file E dst 0 "sickbeard.db").
    rewrite Hframe by tail_untouched.
    rewrite lookup_insert_ne, lookup_delete_ne by path_ne.
    apply lookup_insert_eq.
  - rewrite Hframe by tail_untouched.
    rewrite lookup_insert_ne by path_ne. apply lookup_delete_eq.
Qed.

Lemma restore_db_backup_witness :
  let s' := outcome_state (restore_db sample_os "restore" "data" sample_store) in
  s' !! Path.join "data" "sickchill.db" = Some "backup"
  /\ s' !! Path.join "data"
            (bak_name "sickbeard.db" (strftime (now sample_os 0))) = Some "live"
  /\ s' !! Path.join "restore" "sickbeard.db" = None.
Proof.
  apply (restore_db_backup_named_after_manifest_entry
           sample_os "restore" "data" sample_store _ "backup" "live");
    vm_compute; reflexivity.
Defined.

Lemma restore_db_no_backup_under_current_name :
  sample_store !! Path.join "restore" "sickbeard.db" = Some "backup"
  /\ sample_store !! Path.join "data" "sickchill.db" = Some "live"
  /\ exists s',
      restore_db sample_os "restore" "data" sample_store = Ret true s'
      /\ forall stamp,
          s' !! Path.join "data" (bak_name "sickchill.db" stamp) = None.
Proof.
  split; [reflexivity|]. split; [reflexivity|].
  exists (<["data/sickchill.db" := "backup"]>
            (<["data/sickbeard.db.bak-20240309_070500" := "live"]> ∅)).
  split; [vm_compute; reflexivity|].
  intros stamp.
  assert (Path.join "data" (bak_name "sickchill.db" stamp)
          = "data/sickchill.db.bak-" +:+ stamp) as -> by reflexivity.
  rewrite !lookup_insert_ne by (cbv [String.append]; discriminate).
  apply lookup_empty.
Qed.

(** C10.  The manifest is processed in its fixed order, so when
    [src_dir] holds both [sickbeard.db] and [sickchill.db] and the
    call succeeds, [dst_dir/sickchill.db] ends with the content of
    [src_dir/sickchill.db], and the content of [src_dir/sickbeard.db]
    ends in [dst_dir/sickchill.db.bak-<timestamp>] (the backup made by
    the second iteration) and, if no other file had that content,
    nowhere else. *)
Theorem restore_db_later_manifest_entry_wins
    (E : os_env) (src dst : string) (s s' : store)
    (c_legacy c_current : string) :
  s !! Path.join src "sickbeard.db" = Some c_legacy ->
  s !! Path.join src "sickchill.db" = Some c_current ->
  restore_db E src dst s = Ret true s' ->
  files_list = ["sickbeard.db"; "sickchill.db"; "config.ini"; "failed.db"; "cache.db"]
  /\ s' !! Path.join dst "sickchill.db" = Some c_current
  /\ s' !! bak_file E dst 1 "sickchill.db" = Some c_legacy
  /\ s' !! Path.join src "sickbeard.db" = None
  /\ (held_only_at s c_legacy (Path.join src "sickbeard.db") ->
      held_only_at s' c_legacy (bak_file E dst 1 "sickchill.db")).
Proof.
  intros Hleg Hcur Hrun. split; [reflexivity|].
  pose proof (restore_db_true_distinct_dirs E src dst s s' c_legacy Hleg Hrun)
    as Hdirs.
  apply restore_db_true in Hrun as (s5 & Hloop & Hafter).
  unfold files_list in Hloop.
  apply restore_loop_cons in Hloop as (s1 & Hstep0 & Hloop).
  apply restore_loop_cons in Hloop as (s2 & Hstep1 & Hloop).
  destruct (restore_step_legacy E src dst s s1 c_legacy Hstep0 Hleg)
    as (H1dst & H1src & H1held).
  rewrite restore_step_unfold in Hstep1.
  rewrite (target_current src dst "sickchill.db") in Hstep1
    by (reflexivity || discriminate).
  - assert (s1 !! Path.join src "sickchill.db" = Some c_current) as H1cur.
    { pose proof (restore_step_frame E src dst 0 "sickbeard.db" s
                    (Path.join src "sickchill.db")) as Hf.
      rewrite Hstep0, target_legacy in Hf. simpl in Hf.
      rewrite Hf; [exact Hcur|path_ne|exact Hdirs|path_ne]. }
    rewrite H1cur, H1dst in Hstep1.
    apply bind_ret_inv in Hstep1 as ([] & sb & Hbak & Hmove).
    pose proof Hbak as Hbak'. pose proof Hmove as Hmove'.
    apply shutil_move_ret in Hbak as (d & Hd & _ & ->).
    apply shutil_move_ret in Hmove as (c & Hc & _ & ->).
    rewrite H1dst in Hd. injection Hd as <-.
    rewrite lookup_insert_ne, lookup_delete_ne, H1cur in Hc
      by (congruence || path_ne).
    injection Hc as <-.
    pose proof (fun p => restore_loop_ret_frame E src dst _ _ _ _ p Hloop)
      as Hframe.
    assert (s5 !! Path.join dst "sickchill.db" = Some c_current) as H5.
    { rewrite Hframe by tail_untouched. apply lookup_insert_eq. }
    rewrite (restore_legacy_current E dst s5 c_current H5) in Hafter.
    injection Hafter as <-.
    split; [exact H5|]. split; [|split].
    + rewrite Hframe by tail_untouched.
      rewrite lookup_insert_ne, lookup_delete_ne by path_ne.
      apply lookup_insert_eq.
    + rewrite Hframe by tail_untouched.
      rewrite lookup_insert_ne, lookup_delete_ne, lookup_insert_ne,
        lookup_delete_ne by path_ne.
      exact H1src.
    + intros Hheld.
      eapply restore_loop_held; [exact Hloop| |tail_untouched].
      eapply shutil_move_held_other; [exact Hmove'| |path_ne].
      eapply shutil_move_held_from; [exact Hbak'|].
      now apply H1held.
Qed.

Lemma restore_db_later_entry_witness :
  let s := <["restore/sickchill.db" := "newer"]> sample_store in
  let s' := outcome_state (restore_db sample_os "restore" "data" s) in
  files_list = ["sickbeard.db"; "sickchill.db"; "config.ini"; "failed.db"; "cache.db"]
  /\ s' !! Path.join "data" "sickchill.db" = Some "newer"
  /\ s' !! bak_file sample_os "data" 1 "sickchill.db" = Some "backup"
  /\ s' !! Path.join "restore" "sickbeard.db" = None
  /\ (held_only_at s "backup" (Path.join "restore" "sickbeard.db") ->
      held_only_at s' "backup" (bak_file sample_os "data" 1 "sickchill.db")).
Proof.
  apply (restore_db_later_manifest_entry_wins
           sample_os "restore" "data" _ _ "backup" "newer");
    vm_compute; reflexivity.
Defined.

(** C6.  In a call that succeeds, the iteration for [sickbeard.db]
    moves [src_dir/sickbeard.db] to [dst_dir/sickchill.db] (and there
    it stays when the backup has no [sickchill.db] of its own); and
    when, after the loop, [dst_dir] has a [sickbeard.db] and no
    [sickchill.db], the legacy file is renamed to [sickchill.db]. *)
Theorem restore_db_legacy_name_becomes_current
    (E : os_env) (src dst : string) (s s' : store) :
  restore_db E src dst s = Ret true s' ->
  (forall c, s !! Path.join src "sickbeard.db" = Some c ->
     (exists s1, restore_step E src dst 0 "sickbeard.db" s = Ret tt s1
                 /\ s1 !! Path.join dst "sickchill.db" = Some c
                 /\ s1 !! Path.join src "sickbeard.db" = None)
     /\ (s !! Path.join src "sickchill.db" = None ->
         s' !! Path.join dst "sickchill.db" = Some c
         /\ s' !! Path.join src "sickbeard.db" = None))
  /\ (exists s5, restore_loop E src dst 0 files_list s = Ret tt s5
       /\ forall c, s5 !! Path.join dst "sickbeard.db" = Some c ->
                    s5 !! Path.join dst "sickchill.db" = None ->
                    s' !! Path.join dst "sickchill.db" = Some c
                    /\ s' !! Path.join dst "sickbeard.db" = None).
Proof.
  intros Hrun. split.
  - intros c Hleg.
    pose proof (restore_db_true_distinct_dirs E src dst s s' c Hleg Hrun)
      as Hdirs.
    apply restore_db_true in Hrun as (s5 & Hloop & Hafter).
    unfold files_list in Hloop.
    apply restore_loop_cons in Hloop as (s1 & Hstep0 & Hloop).
    destruct (restore_step_legacy E src dst s s1 c Hstep0 Hleg)
      as (H1dst & H1src & _).
    split; [now exists s1|]. intros Hnone.
    apply restore_loop_cons in Hloop as (s2 & Hstep1 & Hloop).
    assert (s1 !! Path.join src "sickchill.db" = None) as H1none.
    { pose proof (restore_step_frame E src dst 0 "sickbeard.db" s
                    (Path.join src "sickchill.db")) as Hf.
      rewrite Hstep0, target_legacy in Hf. simpl in Hf.
      rewrite Hf; [exact Hnone|path_ne|exact Hdirs|path_ne]. }
    rewrite restore_step_unfold, H1none in Hstep1. injection Hstep1 as <-.
    pose proof (fun p => restore_loop_ret_frame E src dst _ _ _ _ p Hloop)
      as Hframe.
    assert (s5 !! Path.join dst "sickchill.db" = Some c) as H5.
    { now rewrite Hframe by tail_untouched. }
    rewrite (restore_legacy_current E dst s5 c H5) in Hafter.
    injection Hafter as <-.
    split; [exact H5|]. now rewrite Hframe by tail_untouched.
  - apply restore_db_true in Hrun as (s5 & Hloop & Hafter).
    exists s5. split; [exact Hloop|]. intros c Hleg Hnone.
    unfold restore_legacy, bind, isfile in Hafter.
    rewrite bool_decide_eq_true_2 in Hafter by eauto.
    rewrite bool_decide_eq_false_2 in Hafter by (intros [? ?]; congruence).
    simpl in Hafter.
    apply shutil_move_ret in Hafter as (c' & Hc' & _ & ->).
    rewrite Hleg in Hc'. injection Hc' as <-.
    split; [apply lookup_insert_eq|].
    rewrite lookup_insert_ne by path_ne. apply lookup_delete_eq.
Qed.

Lemma restore_db_legacy_name_witness :
  (let s' := outcome_state (restore_db sample_os "restore" "data" sample_store) in
   s' !! Path.join "data" "sickchill.db" = Some "backup"
   /\ s' !! Path.join "restore" "sickbeard.db" = None)
  /\ (let s' := outcome_state
                  (restore_db sample_os "restore" "data" sample_legacy_store) in
      s' !! Path.join "data" "sickchill.db" = Some "legacy"
      /\ s' !! Path.join "data" "sickbeard.db" = None).
Proof.
  split.
  - refine (proj2 (proj1 (restore_db_legacy_name_becomes_current
                            sample_os "restore" "data" sample_store _ _)
                     "backup" _) _);
      vm_compute; reflexivity.
  - destruct (proj2 (restore_db_legacy_name_becomes_current
                       sample_os "restore" "data" sample_legacy_store
                       (outcome_state (restore_db sample_os "restore" "data"
                                         sample_legacy_store))
                       ltac:(vm_compute; reflexivity)))
      as (s5 & Hloop & Hrename).
    assert (s5 = sample_legacy_store) as ->.
    { vm_compute in Hloop. now injection Hloop as <-. }
    apply (Hrename "legacy"); vm_compute; reflexivity.
Defined.

(** C5.  [restore_db] always returns a boolean and never raises:
    [True] when the statements under [try] ran to the end, [False]
    when one of them raised; and the store it leaves is the one the
    statements left, so what was moved before the exception stays
    moved.  In particular, when the iterations for the files [pre]
    succeeded and the next one raises, the result is [False] with all
    the moves of [pre] in place, and of the failing iteration what it
    got done: nothing; or part of a copy at the backup path or at the
    destination; or the backup of its destination, with or without
    part of a copy of the source at the destination. *)
Theorem restore_db_returns_bool_without_rollback
    (E : os_env) (src dst : string) (s : store) :
  restore_db E src dst s
  = Ret (negb (raised (restore_body E src dst s)))
        (outcome_state (restore_body E src dst s))
  /\ forall pre f post s1 e s2,
      files_list = (pre ++ f :: post)%list ->
      restore_loop E src dst 0 pre s = Ret tt s1 ->
      restore_step E src dst (length pre) f s1 = Raise e s2 ->
      let from := Path.join src f in
      let to := target src dst f in
      let bak := bak_file E dst (length pre) f in
      restore_db E src dst s = Ret false s2
      /\ (s2 = s1
          \/ (exists c n, s1 !! from = Some c /\ s1 !! to = None
                          /\ s2 = <[to := copy_part n c]> s1)
          \/ (exists d n, s1 !! to = Some d
                          /\ s2 = <[bak := copy_part n d]> s1)
          \/ (exists d, s1 !! to = Some d
                        /\ s2 = <[bak := d]> (delete to s1))
          \/ (exists d c n,
                s1 !! to = Some d
                /\ (<[bak := d]> (delete to s1)) !! from = Some c
                /\ s2 = <[to := copy_part n c]>
                          (<[bak := d]> (delete to s1)))).
Proof.
  split.
  - unfold restore_db, try_except.
    destruct (restore_body E src dst s) as [b s1|e s1|x s1] eqn:Hb.
    + unfold restore_body in Hb.
      apply bind_ret_inv in Hb as ([] & s2 & _ & Hb).
      apply bind_ret_inv in Hb as ([] & s3 & _ & Hb).
      now injection Hb as <- <-.
    + reflexivity.
    + now apply restore_body_no_exit in Hb.
  - intros pre f post s1 e s2 Hfiles Hpre Hstep. cbv zeta.
    split; [|now apply restore_step_raise in Hstep].
    unfold restore_db, try_except, restore_body, bind at 1.
    rewrite Hfiles, restore_loop_app. unfold bind at 1. rewrite Hpre.
    cbn [restore_loop]. unfold bind at 1.
    now rewrite Nat.add_0_l, Hstep.
Qed.

Lemma restore_db_without_rollback_witness :
  let s2 := outcome_state
              (restore_db sample_copying_os "restore" "data" sample_config_store) in
  restore_db sample_copying_os "restore" "data" sample_config_store
  = Ret false s2
  /\ s2 !! "data/sickchill.db" = Some "backup"
  /\ s2 !! "restore/sickbeard.db" = None
  /\ s2 !! "restore/config.ini" = Some "settings"
  /\ s2 !! "data/config.ini" = Some "settings".
Proof.
  split; [|vm_compute; repeat split; reflexivity].
  refine (proj1 (proj2 (restore_db_returns_bool_without_rollback
                          sample_copying_os "restore" "data" sample_config_store)
                   ["sickbeard.db"; "sickchill.db"] "config.ini"
                   ["failed.db"; "cache.db"]
                   (outcome_state
                      (restore_loop sample_copying_os "restore" "data" 0
                         ["sickbeard.db"; "sickchill.db"] sample_config_store))
                   (OSError "cannot move 'restore/config.ini' to 'data/config.ini'")
                   _ _ _ _));
    vm_compute; reflexivity.
Defined.

End RestoreClaims.

(** ** load_shows_from_db *)

Module HydrateClaims.
Import Hydrate.
Local Open Scope list_scope.

Section WithShow.
Context {show : Type} (E : tv_env show).

Lemma load_show_spec (row : sql_row) (r : registry show) :
  load_show E row r =
  Ret tt match build E row with
         | inr x => {| showList := showList r ++ [x]; log := log r |}
         | inl e =>
             {| showList := showList r;
                log := log r ++ [(ERROR, error_message row e);
                                 (DEBUG, format_exc E e)] |}
         end.
Proof.
  unfold load_show, try_except, bind, build, call_ext, logger,
    append_show, modify, raise, ret.
  destruct (TVShow E (indexer row) (indexer_id row)) as [e|x]; cbn.
  - now rewrite <- app_assoc.
  - destruct (nextEpisode E x) as [e|y]; cbn; [|reflexivity].
    now rewrite <- app_assoc.
Qed.

Lemma load_rows_spec (rows : list sql_row) : forall r : registry show,
  load_rows E rows r =
  Ret tt {| showList := showList r ++ built_shows E rows;
            log := log r ++ failure_log E rows |}.
Proof.
  induction rows as [|row rows IH]; intros r; cbn [load_rows].
  - cbn. rewrite !app_nil_r. now destruct r.
  - unfold bind. rewrite load_show_spec, IH. cbn [built_shows failure_log].
    destruct (build E row) as [e|x]; cbn [showList log];
      now rewrite <- !app_assoc.
Qed.

(** Hydration returns for every answer of rows: it replaces the
    registry by the shows that build and logs the others. *)
Lemma load_shows_from_db_spec (rows : list sql_row) (r : registry show) :
  load_shows_from_db E (inr rows) r =
  Ret tt {| showList := built_shows E rows;
            log := log r ++ (DEBUG, "Loading initial show list")
                     :: failure_log E rows |}.
Proof.
  unfold load_shows_from_db, bind, logger, set_showList, call_ext,
    modify, ret.
  rewrite load_rows_spec. cbn. now rewrite <- app_assoc.
Qed.

Lemma built_shows_app (l1 l2 : list sql_row) :
  built_shows E (l1 ++ l2) = built_shows E l1 ++ built_shows E l2.
Proof.
  induction l1 as [|row l1 IH]; [reflexivity|]. cbn.
  destruct (build E row); [exact IH | now rewrite IH].
Qed.

Lemma failure_log_app (l1 l2 : list sql_row) :
  failure_log E (l1 ++ l2) = failure_log E l1 ++ failure_log E l2.
Proof.
  induction l1 as [|row l1 IH]; [reflexivity|]. cbn.
  destruct (build E row); [now rewrite IH | exact IH].
Qed.

Lemma all_build (l : list sql_row) :
  (forall r, In r l -> builds E r = true) ->
  length (built_shows E l) = length l /\ failure_log E l = [].
Proof.
  induction l as [|row l IH]; intros Hall; [now split|].
  assert (builds E row = true) as Hrow by (apply Hall; now left).
  destruct IH as [IH1 IH2]; [intros r Hr; apply Hall; now right|].
  unfold builds in Hrow. cbn.
  destruct (build E row); [discriminate|]. cbn. now rewrite IH1.
Qed.

(** C4.  When the query returns N rows of which exactly one, [row],
    fails in [TVShow(...)] or in [nextEpisode()], hydration returns
    (it does not abort); the registry is then the shows built from
    the other rows, N - 1 of them, whatever it held before; and the
    one error it logs is the message naming the location of [row]
    and the error that was raised. *)
Theorem load_shows_from_db_skips_bad_row
    (pre post : list sql_row) (row : sql_row) (e : exn) (r0 : registry show) :
  (forall r, In r (pre ++ post) -> builds E r = true) ->
  build E row = inl e ->
  exists r',
    load_shows_from_db E (inr (pre ++ row :: post)) r0 = Ret tt r'
    /\ showList r' = built_shows E (pre ++ post)
    /\ length (showList r') = length (pre ++ row :: post) - 1
    /\ log r' = log r0 ++ [(DEBUG, "Loading initial show list");
                           (ERROR, error_message row e);
                           (DEBUG, format_exc E e)]
    /\ errors (log r') = errors (log r0) ++ [error_message row e]
    /\ error_message row e
       = "There was an error creating the show in " +:+ location row
           +:+ ": Error " +:+ exn_str e.
Proof.
  intros Hall Hbad. eexists. split; [apply load_shows_from_db_spec|].
  cbn [showList log].
  assert (forall r, In r pre -> builds E r = true) as Hpre.
  { intros r Hr. apply Hall, in_or_app. now left. }
  assert (forall r, In r post -> builds E r = true) as Hpost.
  { intros r Hr. apply Hall, in_or_app. now right. }
  destruct (all_build pre Hpre) as [Lpre Fpre].
  destruct (all_build post Hpost) as [Lpost Fpost].
  rewrite !built_shows_app, failure_log_app. cbn [built_shows failure_log].
  rewrite Hbad, Fpre, Fpost. cbn [app].
  split; [reflexivity|]. split.
  { rewrite !length_app. cbn [length]. rewrite Lpre, Lpost. lia. }
  split; [reflexivity|]. split; [|reflexivity].
  unfold errors. rewrite List.filter_app, map_app. reflexivity.
Qed.

End WithShow.

Lemma load_shows_from_db_skips_bad_row_witness :
  exists r',
    load_shows_from_db sample_tv (inr sample_rows) sample_registry = Ret tt r'
    /\ showList r' = [(1, 7)%Z; (1, 21)%Z]
    /\ errors (log r')
       = ["There was an error creating the show in /tv/Thirteen: Error show 13 not found on indexer"].
Proof.
  destruct (load_shows_from_db_skips_bad_row sample_tv
              [ {| indexer := 1; indexer_id := 7; location := "/tv/Seven" |} ]
              [ {| indexer := 1; indexer_id := 21; location := "/tv/Blackjack" |} ]
              {| indexer := 1; indexer_id := 13; location := "/tv/Thirteen" |}
              (RuntimeError "show 13 not found on indexer")
              sample_registry)
    as (r' & Hrun & Hshows & _ & _ & Herr & _).
  - intros r [<-|[<-|[]]]; reflexivity.
  - reflexivity.
  - exists r'. split; [exact Hrun|]. split; [exact Hshows|exact Herr].
Defined.

End HydrateClaims.

(** ** Running the process model *)

Module ProcFacts.
Import Proc.
Local Open Scope list_scope.

Lemma bind_get {A} (k : proc -> M proc A) st :
  (x <- get ;; k x) st = k st st.
Proof. reflexivity. Qed.

Lemma bind_ret_l {A B} (a : A) (k : A -> M proc B) st :
  (x <- ret a ;; k x) st = k a st.
Proof. reflexivity. Qed.

Lemma bind_assoc {A B C} (m : M proc A) (k : A -> M proc B)
    (h : B -> M proc C) st :
  (y <- (x <- m ;; k x) ;; h y) st = (x <- m ;; y <- k x ;; h y) st.
Proof. unfold bind. now destruct (m st). Qed.

Lemma ext_run (E : env) (c : call) st :
  ext E c st =
  match fails E c with
  | Some e => Raise e (with_trace st (trace st ++ [c]))
  | None => Ret tt (with_trace st (trace st ++ [c]))
  end.
Proof. unfold ext, record, bind, modify. now destruct (fails E c). Qed.

Lemma bind_ext_ok {A} (E : env) (c : call) (k : M proc A) st :
  fails E c = None ->
  (ext E c ;; k) st = k (with_trace st (trace st ++ [c])).
Proof. intros H. unfold bind. now rewrite ext_run, H. Qed.

Lemma bind_ext_fail {A} (E : env) (c : call) (k : M proc A) st e :
  fails E c = Some e ->
  (ext E c ;; k) st = Raise e (with_trace st (trace st ++ [c])).
Proof. intros H. unfold bind. now rewrite ext_run, H. Qed.

(** [try: call / except Exception: pass]. *)
Lemma bind_try_pass {A} (E : env) (c : call) (k : M proc A) st :
  (try_except (ext E c) (fun _ => ret tt) ;; k) st
  = k (with_trace st (trace st ++ [c])).
Proof.
  unfold bind at 1, try_except. rewrite ext_run.
  now destruct (fails E c).
Qed.

Lemma clear_cache_run (E : env) st :
  fails E (logger_warning "Unable to remove the cache/mako directory!") = None ->
  clear_cache E st = Ret tt (with_trace st (trace st ++ spec_cache_calls E st)).
Proof.
  intros Hwarn. unfold clear_cache, spec_cache_calls, try_except.
  rewrite bind_get. unfold isdir. rewrite bind_assoc, bind_get, bind_ret_l.
  assert (with_trace st (trace st ++ []) = st) as Hnil.
  { rewrite app_nil_r. now destruct st. }
  destruct (nodes st !! Path.join (CACHE_DIR (settings st)) "mako") as [n|];
    [destruct (is_dir n)|]; cbn [when]; try (now rewrite Hnil).
  rewrite ext_run.
  destruct (fails E (rmtree _)); [|reflexivity].
  rewrite ext_run, Hwarn. cbn [trace with_trace]. unfold with_trace.
  cbn [settings self nodes]. now rewrite <- app_assoc.
Qed.

Lemma bind_clear_cache {A} (E : env) (k : M proc A) st :
  fails E (logger_warning "Unable to remove the cache/mako directory!") = None ->
  (clear_cache E ;; k) st
  = k (with_trace st (trace st ++ spec_cache_calls E st)).
Proof. intros H. unfold bind. now rewrite clear_cache_run. Qed.

End ProcFacts.

(** ** shutdown *)

Module ShutdownClaims.
Import Proc ProcFacts.
Local Open Scope list_scope.

Ltac call_returns H :=
  rewrite bind_ext_ok by (apply H; reflexivity);
  cbn [settings self nodes trace with_trace].

(** How [shutdown] runs when no call outside the two guarded ones
    raises. *)
Lemma shutdown_run (E : env) (event : SystemEvent) (st : proc) :
  (forall c, swallowed c = false -> fails E c = None) ->
  shutdown E event st
  = Exit (ExitCode 0) (with_trace st (trace st ++ spec_teardown E event st)).
Proof.
  intros H. unfold shutdown, spec_teardown. rewrite bind_get.
  destruct (started (settings st)); cbn [when].
  2:{ rewrite bind_ret_l. call_returns H. reflexivity. }
  rewrite ?bind_assoc. call_returns H.
  rewrite ?bind_assoc. call_returns H.
  rewrite ?bind_assoc.
  assert (forall st1 : proc,
    settings st1 = settings st -> nodes st1 = nodes st ->
    ((clear_cache E ;;
      ext E remove_pid_file ;;
      when (SystemEvent_eqb event RESTART)
        (st0 <- get ;;
         let popen_list := [sys_executable E; MY_FULLNAME (settings st0)] in
         when (negb (is_nil popen_list) && negb (NO_RESTART (settings st0)))
           (let popen_list0 := popen_list ++ MY_ARGS (settings st0) in
            let popen_list1 :=
              if negb (mem "--nolaunch" popen_list0)
              then popen_list0 ++ ["--nolaunch"] else popen_list0 in
            ext E (logger_info "Restarting SickChill with {options}" popen_list1) ;;
            ext E logger_shutdown ;;
            ext E (Popen popen_list1 (getcwd E))))) ;;
     ext E logger_shutdown ;; os_exit 0) st1
    = Exit (ExitCode 0)
        (with_trace st1
           (trace st1 ++ spec_cache_calls E st ++ [remove_pid_file]
              ++ (if (SystemEvent_eqb event RESTART
                      && negb (NO_RESTART (settings st)))%bool
                  then [logger_info "Restarting SickChill with {options}"
                          (spec_restart_argv E (settings st));
                        logger_shutdown;
                        Popen (spec_restart_argv E (settings st)) (getcwd E)]
                  else [])
              ++ [logger_shutdown]))) as Hrest.
  { intros st1 Hset Hnodes.
    assert (spec_cache_calls E st1 = spec_cache_calls E st) as Hcc.
    { unfold spec_cache_calls. now rewrite Hset, Hnodes. }
    rewrite ?bind_assoc.
    rewrite bind_clear_cache by (apply H; reflexivity).
    rewrite ?bind_assoc. call_returns H. rewrite Hcc.
    unfold spec_restart_argv.
    destruct event; cbn [SystemEvent_eqb when andb].
    - rewrite ?bind_assoc; rewrite bind_get.
      cbn [settings self nodes trace with_trace is_nil negb andb].
      rewrite Hset.
      destruct (NO_RESTART (settings st)); cbn [negb when].
      + rewrite bind_ret_l. call_returns H.
        unfold os_exit, exit, with_trace. cbn [settings self nodes trace].
        repeat rewrite <- app_assoc. reflexivity.
      + change ([sys_executable E; MY_FULLNAME (settings st)]
                  ++ MY_ARGS (settings st))
          with (sys_executable E :: MY_FULLNAME (settings st)
                  :: MY_ARGS (settings st)).
        destruct (mem "--nolaunch" _); cbn [negb];
          rewrite ?bind_assoc; call_returns H;
          rewrite ?bind_assoc; call_returns H;
          rewrite ?bind_assoc; call_returns H;
          call_returns H;
          unfold os_exit, exit, with_trace; cbn [settings self nodes trace];
          repeat rewrite <- app_assoc; reflexivity.
    - rewrite bind_ret_l. call_returns H.
      unfold os_exit, exit, with_trace. cbn [settings self nodes trace].
      repeat rewrite <- app_assoc. reflexivity. }
  destruct (web_server (self st)) as [w|].
  - rewrite bool_decide_eq_true_2 by eauto. cbn [when].
    rewrite ?bind_assoc. call_returns H.
    rewrite ?bind_assoc. call_returns H.
    rewrite ?bind_assoc; rewrite bind_try_pass.
    rewrite Hrest by reflexivity.
    unfold with_trace. cbn [settings self nodes trace].
    repeat rewrite <- app_assoc. reflexivity.
  - rewrite bool_decide_eq_false_2 by (intros [? ?]; discriminate).
    cbn [when]. rewrite bind_ret_l. rewrite Hrest by reflexivity.
    unfold with_trace. cbn [settings self nodes trace].
    repeat rewrite <- app_assoc. reflexivity.
Qed.


(** C2 (as the code has it).  [shutdown] catches what the join of the
    web server raises and what the removal of the cache raises.  When
    no other call of the sequence raises, it reaches [os._exit(0)],
    for every event kind and whether or not the system was started. *)
Theorem shutdown_exits_zero_when_unguarded_calls_return
    (E : env) (event : SystemEvent) (st : proc) :
  (forall c, swallowed c = false -> fails E c = None) ->
  exists st', shutdown E event st = Exit (ExitCode 0) st'
              /\ status_code (ExitCode 0) = 0%Z.
Proof.
  intros H. eexists. split; [now apply shutdown_run|reflexivity].
Qed.

Lemma shutdown_exits_zero_witness :
  (exists st', shutdown (sample_env swallowed_fail) RESTART sample_proc
               = Exit (ExitCode 0) st' /\ status_code (ExitCode 0) = 0%Z)
  /\ (exists st', shutdown (sample_env swallowed_fail) SHUTDOWN sample_proc
                  = Exit (ExitCode 0) st' /\ status_code (ExitCode 0) = 0%Z).
Proof.
  split;
    apply (shutdown_exits_zero_when_unguarded_calls_return
             (sample_env swallowed_fail));
    intros c Hc; destruct c; try reflexivity; discriminate Hc.
Defined.

Lemma shutdown_without_exit_when_halt_raises :
  shutdown (sample_env halt_fails) SHUTDOWN sample_proc
  = Raise (RuntimeError "scheduler did not stop")
      (with_trace sample_proc [halt])
  /\ forall x st', shutdown (sample_env halt_fails) SHUTDOWN sample_proc
                   <> Exit x st'.
Proof.
  assert (shutdown (sample_env halt_fails) SHUTDOWN sample_proc
          = Raise (RuntimeError "scheduler did not stop")
              (with_trace sample_proc [halt])) as H by reflexivity.
  split; [exact H|]. intros x st'. rewrite H. discriminate.
Qed.




End ShutdownClaims.

(** ** start *)

Module StartClaims.
Import Proc ProcFacts.
Local Open Scope list_scope.

Lemma bind_modify {A} (f : proc -> proc) (k : M proc A) st :
  (modify f ;; k) st = k (f st).
Proof. reflexivity. Qed.

Ltac call_returns H :=
  rewrite bind_ext_ok by (apply H; reflexivity);
  cbn [settings self nodes trace with_trace].

(** C7.  With [--force-update], [start] does nothing but the update:
    after the preliminary assignments it asks whether the package is
    installed; if it is, it announces the update, runs it and reports
    how it went; if it is not, it says that the updater does not work
    there and runs no update.  It then leaves through [sys.exit], with
    status 0 when the update succeeded and 1 when it failed or the
    package is not installed.  These calls, in this order, are all
    the calls it makes. *)
Theorem start_force_update_exits (E : env) (args : Args) (st : proc) :
  force_update args = true ->
  (forall c, is_update_call c = true -> fails E c = None) ->
  exists st',
    start E args st
    = Exit (ExitCode (if (installed E && update_ok E)%bool then 0 else 1)) st'
    /\ trace st'
       = trace st
           ++ check_installed
           :: (if installed E then
                 [print "Forcing SickChill to update using pip...";
                  PipUpdateManager_update;
                  print (if update_ok E
                         then "Successfully updated to the latest pip release. You may now run SickChill normally."
                         else "Failed to force an update.")]
               else
                 [print "Sickchill updater no longer works with git or source installs, as they are intended for developers only. If you are a developer, you know how to update..."]).
Proof.
  intros Hf H. unfold start, start_preliminary, set_settings.
  rewrite bind_modify. unfold start_force_update. rewrite Hf. cbn [when].
  rewrite !bind_assoc. unfold force_update_m.
  rewrite !bind_assoc. call_returns H.
  destruct (installed E); cbn [negb andb].
  - rewrite ?bind_assoc. call_returns H.
    rewrite ?bind_assoc. call_returns H.
    destruct (update_ok E); cbn [negb];
      rewrite ?bind_assoc; call_returns H;
      rewrite ?bind_assoc, bind_ret_l;
      (eexists; split; [reflexivity|]);
      cbn [trace]; rewrite <- ?app_assoc; reflexivity.
  - rewrite ?bind_assoc. call_returns H.
    rewrite ?bind_assoc, bind_ret_l.
    eexists; split; [reflexivity|].
    cbn [trace]. rewrite <- ?app_assoc. reflexivity.
Qed.

Lemma start_force_update_exits_witness :
  (exists st',
     start (sample_env nothing_fails) sample_update_args fresh_proc
     = Exit (ExitCode 0) st'
     /\ trace st'
        = [check_installed;
           print "Forcing SickChill to update using pip...";
           PipUpdateManager_update;
           print "Successfully updated to the latest pip release. You may now run SickChill normally."])
  /\ (exists st',
       start sample_source_env sample_update_args fresh_proc
       = Exit (ExitCode 1) st'
       /\ trace st'
          = [check_installed;
             print "Sickchill updater no longer works with git or source installs, as they are intended for developers only. If you are a developer, you know how to update..."]).
Proof.
  split.
  - apply (start_force_update_exits (sample_env nothing_fails)
             sample_update_args fresh_proc); reflexivity.
  - apply (start_force_update_exits sample_source_env
             sample_update_args fresh_proc); reflexivity.
Defined.

(** The checks on the configuration file. *)
Lemma config_checks_run (config_file : string) (st : proc) :
  (config_w <- access_W (config_file) ;;
   when (negb config_w)
     (config_is_file <- isfile (config_file) ;;
      if config_is_file : bool then
        SystemExit ("Config file must be writeable: "
                      +:+ config_file)
      else
        root_w <- access_W (dirname (config_file)) ;;
        when (negb root_w)
          (SystemExit ("Config file root dir must be writeable: "
                         +:+ dirname (config_file))))) st
  = let m := nodes st in
    if (is_file m config_file && negb (can_write m config_file))%bool
    then Exit (ExitMsg ("Config file must be writeable: " +:+ config_file)) st
    else if (negb (is_file m config_file) && negb (can_write m config_file)
             && negb (can_write m (dirname config_file)))%bool
    then Exit (ExitMsg ("Config file root dir must be writeable: "
                          +:+ dirname config_file)) st
    else Ret tt st.
Proof.
  unfold access_W, isfile, can_write, is_file, SystemExit.
  rewrite !bind_assoc, bind_get, bind_ret_l. cbv zeta.
  destruct (nodes st !! config_file) as [[d w]|] eqn:Hcfg;
    cbn [writable is_dir].
  - destruct w; cbn [negb when andb].
    + rewrite !andb_false_r. reflexivity.
    + rewrite !bind_assoc, bind_get, Hcfg, bind_ret_l. cbn [is_dir].
      rewrite !andb_true_r.
      destruct d; cbn [negb andb]; [|reflexivity].
      rewrite !bind_assoc, bind_get, bind_ret_l.
      destruct (nodes st !! dirname (config_file)) as [[d' w']|];
        [destruct w'|]; reflexivity.
  - cbn [negb when andb].
    rewrite !bind_assoc, bind_get, Hcfg, bind_ret_l.
    rewrite !bind_assoc, bind_get, bind_ret_l.
    destruct (nodes st !! dirname (config_file)) as [[d' w']|];
      [destruct w'|]; reflexivity.
Qed.


(** [start] is the run up to the preflight, the preflight, and the
    rest. *)
Lemma start_split (E : env) (args : Args) (st0 : proc) :
  start E args st0
  = ((start_preliminary E ;; start_force_update E args ;; start_flags E args) ;;
     start_preflight E ;;
     start_load E ;; start_web_server E ;; start_flask E args ;;
     start_threads_and_browser E) st0.
Proof.
  unfold start, bind.
  destruct (start_preliminary E st0) as [[] s1|e s1|x s1]; [|reflexivity..].
  destruct (start_force_update E args s1) as [[] s2|e s2|x s2]; [|reflexivity..].
  now destruct (start_flags E args s2) as [[] s3|e s3|x s3].
Qed.



(** *** What a phase of [start] leaves alone *)

Section Preserve.
Context (R : proc -> proc -> Prop) (HR : steady R).

Lemma preserves_ret {A} (a : A) : preserves R (ret a).
Proof. intros st. apply (steady_refl R HR). Qed.

Lemma preserves_get : preserves R get.
Proof. intros st. apply (steady_refl R HR). Qed.

Lemma preserves_exit {A} x : preserves R (@exit proc A x).
Proof. intros st. apply (steady_refl R HR). Qed.

Lemma preserves_raise {A} e : preserves R (@raise proc A e).
Proof. intros st. apply (steady_refl R HR). Qed.

Lemma preserves_bind {A B} (m : M proc A) (k : A -> M proc B) :
  preserves R m -> (forall a, preserves R (k a)) ->
  preserves R (x <- m ;; k x).
Proof.
  intros Hm Hk st. specialize (Hm st). unfold bind.
  destruct (m st) as [a s1|e s1|x s1]; cbn in *; [|exact Hm..].
  eapply (steady_trans R HR); [exact Hm|apply Hk].
Qed.

Lemma preserves_ext (E : env) (c : call) : preserves R (ext E c).
Proof.
  intros st. rewrite ext_run.
  destruct (fails E c); cbn; apply (steady_call R HR).
Qed.

Lemma preserves_when (b : bool) (m : M proc unit) :
  preserves R m -> preserves R (when b m).
Proof. destruct b; [trivial|]. intros _. apply preserves_ret. Qed.

Lemma preserves_if {A} (b : bool) (m1 m2 : M proc A) :
  preserves R m1 -> preserves R m2 -> preserves R (if b then m1 else m2).
Proof. now destruct b. Qed.

Lemma preserves_try_except {A} (body : M proc A) (handler : exn -> M proc A) :
  preserves R body -> (forall e, preserves R (handler e)) ->
  preserves R (try_except body handler).
Proof.
  intros Hb Hh st. specialize (Hb st). unfold try_except.
  destruct (body st) as [a s1|e s1|x s1]; cbn in *; [exact Hb| |exact Hb].
  eapply (steady_trans R HR); [exact Hb|apply Hh].
Qed.

Lemma preserves_try_except_os {A} (body : M proc A)
    (handler : exn -> M proc A) :
  preserves R body -> (forall e, preserves R (handler e)) ->
  preserves R (try_except_os body handler).
Proof.
  intros Hb Hh st. specialize (Hb st). unfold try_except_os.
  destruct (body st) as [a s1|e s1|x s1]; cbn in *; [exact Hb| |exact Hb].
  destruct (is_os_error e); [|exact Hb].
  eapply (steady_trans R HR); [exact Hb|apply Hh].
Qed.


Lemma preserves_clear_cache (E : env) : preserves R (clear_cache E).
Proof.
  unfold clear_cache, isdir.
  apply preserves_try_except; [|intros e; apply preserves_ext].
  apply preserves_bind; [apply preserves_get|intros st].
  apply preserves_bind.
  - apply preserves_bind; [apply preserves_get|intros ?; apply preserves_ret].
  - intros d. apply preserves_when, preserves_ext.
Qed.

End Preserve.


Lemma same_self_steady : steady same_self.
Proof.
  split; unfold same_self.
  - reflexivity.
  - intros a b c Hab Hbc. congruence.
  - reflexivity.
Qed.

Lemma only_calls_steady : steady only_calls.
Proof.
  split; unfold only_calls.
  - intros st. repeat split. exists []. now rewrite app_nil_r.
  - intros a b c (Hs1 & Ho1 & l1 & Ht1) (Hs2 & Ho2 & l2 & Ht2).
    repeat split; [congruence..|].
    exists (l1 ++ l2). now rewrite Ht2, Ht1, app_assoc.
  - intros st c. repeat split. now exists [c].
Qed.

Create HintDb preserve.
#[local] Hint Resolve preserves_ret preserves_get preserves_exit
  preserves_raise preserves_bind preserves_ext preserves_when
  preserves_if preserves_try_except preserves_try_except_os
  preserves_clear_cache same_self_steady only_calls_steady : preserve.










End StartClaims.

(** ** More on restore_db *)

Module RestoreExtras.
Import Path PyFacts PathFacts RestoreFacts RestoreMore.

Section Run.
Context (E : os_env) (src dst : string).

Local Abbreviation P f := (Path.join src f).
Local Abbreviation D f := (Path.join dst f).
Local Abbreviation B i f := (bak_file E dst i f).
Local Abbreviation T f := (target src dst f).

Lemma restore_db_state (s : store) :
  outcome_state (restore_db E src dst s)
  = outcome_state (restore_body E src dst s).
Proof.
  unfold restore_db, try_except.
  now destruct (restore_body E src dst s).
Qed.

Lemma restore_legacy_frame (s : store) p :
  p <> D "sickbeard.db" -> p <> D "sickchill.db" ->
  outcome_state (restore_legacy E dst s) !! p = s !! p.
Proof.
  intros H1 H2. unfold restore_legacy, bind, isfile, when.
  destruct (_ && _)%bool; [|reflexivity].
  now apply shutil_move_frame.
Qed.

Lemma restore_body_frame (s : store) p :
  (forall k f, files_list !! k = Some f ->
               p <> P f /\ p <> T f /\ p <> B (0 + k) f) ->
  p <> D "sickbeard.db" -> p <> D "sickchill.db" ->
  outcome_state (restore_body E src dst s) !! p = s !! p.
Proof.
  intros Hloop H1 H2. unfold restore_body, bind.
  pose proof (restore_loop_frame E src dst files_list 0 s p Hloop) as Hl.
  destruct (restore_loop E src dst 0 files_list s) as [[] s1|e s1|x s1];
    cbn in Hl; [|exact Hl..].
  pose proof (restore_legacy_frame s1 p H1 H2) as Hg.
  destruct (restore_legacy E dst s1) as [[] s2|e s2|x s2]; cbn in *; congruence.
Qed.

Lemma join_ne_by_basename d x p :
  has_sep x = false -> basename p <> x -> p <> Path.join d x.
Proof.
  intros Hx Hne ->. now rewrite basename_join in Hne.
Qed.

End Run.

(** X1.  However [restore_db] ends, a file whose name is neither a
    manifest name nor a manifest name followed by [.bak-<timestamp>]
    is where it was, with the content it had, in the backup directory
    as in the data directory. *)
Theorem restore_db_leaves_foreign_files
    (E : os_env) (src dst : string) (s : store) (p : string) :
  foreign_name (basename p) ->
  outcome_state (restore_db E src dst s) !! p = s !! p.
Proof.
  intros Hp. rewrite restore_db_state.
  assert (forall f d, In f files_list -> p <> Path.join d f) as Hfile.
  { intros f d Hf. apply join_ne_by_basename.
    - cbn in Hf. destruct Hf as [<-|[<-|[<-|[<-|[<-|[]]]]]]; reflexivity.
    - now apply Hp. }
  assert (forall f d t, In f files_list ->
                        p <> Path.join d (bak_name f (strftime t))) as Hbak.
  { intros f d t Hf. apply join_ne_by_basename.
    - apply bak_name_sep_free.
      cbn in Hf. destruct Hf as [<-|[<-|[<-|[<-|[<-|[]]]]]]; reflexivity.
    - now apply Hp. }
  apply restore_body_frame.
  - intros k f Hk.
    assert (In f files_list) as Hf.
    { apply list_elem_of_In. eapply list_elem_of_lookup_2. exact Hk. }
    split; [now apply Hfile|]. split; [|now apply Hbak].
    unfold target. destruct (String.eqb _ _); apply Hfile; [|exact Hf].
    cbn. auto.
  - apply Hfile. cbn. auto.
  - apply Hfile. cbn. auto.
Qed.

Lemma restore_db_leaves_foreign_files_witness :
  outcome_state (restore_db sample_os "restore" "data"
                   (<["data/notes.txt" := "keep"]> sample_store))
    !! "data/notes.txt" = Some "keep".
Proof.
  rewrite (restore_db_leaves_foreign_files sample_os "restore" "data").
  - reflexivity.
  - intros f Hf. cbn in Hf.
    destruct Hf as [<-|[<-|[<-|[<-|[<-|[]]]]]];
      (split; [discriminate|intros t; unfold bak_name;
               cbv [String.append basename has_sep]; discriminate]).
Defined.

Lemma contents_kept_refl (s : store) : contents_kept s s.
Proof. intros c p Hp. now exists p. Qed.

Lemma contents_kept_trans (s1 s2 s3 : store) :
  contents_kept s1 s2 -> contents_kept s2 s3 -> contents_kept s1 s3.
Proof.
  intros H12 H23 c p Hp. destruct (H12 c p Hp) as [p2 Hp2]. eauto.
Qed.

Section Keep.
Context (E : os_env) (src dst : string).

Local Abbreviation P f := (Path.join src f).
Local Abbreviation D f := (Path.join dst f).
Local Abbreviation B i f := (bak_file E dst i f).
Local Abbreviation T f := (target src dst f).

(** A move onto a free path loses nothing. *)
Lemma shutil_move_keeps a b (s : store) :
  s !! b = None -> contents_kept s (outcome_state (shutil_move E a b s)).
Proof.
  intros Hb. unfold shutil_move.
  destruct (s !! a) as [x|] eqn:Ha; [|apply contents_kept_refl].
  destruct (os_refuses E a b); cbn [outcome_state].
  { destruct (copied E a b) as [n|]; [|apply contents_kept_refl].
    destruct (String.eqb a b); [apply contents_kept_refl|].
    intros c p Hp. exists p. rewrite lookup_insert_ne by congruence.
    exact Hp. }
  intros c p Hp. destruct (decide (p = a)) as [->|Hpa].
  - exists b. rewrite lookup_insert_eq. congruence.
  - exists p. rewrite lookup_insert_ne by congruence.
    now rewrite lookup_delete_ne by congruence.
Qed.

Lemma restore_step_keeps i f (s : store) :
  s !! B i f = None -> T f <> B i f ->
  contents_kept s (outcome_state (restore_step E src dst i f s)).
Proof.
  intros Hfree Hne. rewrite restore_step_unfold.
  destruct (s !! P f); [|apply contents_kept_refl].
  destruct (s !! T f) as [d|] eqn:Hd; [|now apply shutil_move_keeps].
  unfold bind.
  pose proof (shutil_move_keeps (T f) (B i f) s Hfree) as Hbak.
  destruct (shutil_move E (T f) (B i f) s) as [[] s1|e s1|x s1] eqn:Hm;
    cbn in Hbak; [|exact Hbak..].
  eapply contents_kept_trans; [exact Hbak|].
  apply shutil_move_keeps.
  apply shutil_move_ret in Hm as (d' & _ & _ & ->).
  rewrite lookup_insert_ne by congruence. apply lookup_delete_eq.
Qed.

Lemma restore_loop_keeps files : forall i (s : store),
  (forall k f, files !! k = Some f ->
               s !! B (i + k) f = None /\ T f <> B (i + k) f) ->
  (forall k f j g, files !! k = Some f -> files !! j = Some g -> k < j ->
                   B (i + j) g <> P f /\ B (i + j) g <> T f
                   /\ B (i + j) g <> B (i + k) f) ->
  contents_kept s (outcome_state (restore_loop E src dst i files s)).
Proof.
  induction files as [|f files IH]; intros i s Hfree Hapart.
  { apply contents_kept_refl. }
  cbn [restore_loop]. unfold bind.
  destruct (Hfree 0 f eq_refl) as [Hf Hne]. rewrite Nat.add_0_r in Hf, Hne.
  pose proof (restore_step_keeps i f s Hf Hne) as Hstep.
  destruct (restore_step E src dst i f s) as [[] s1|e s1|x s1] eqn:Hrun;
    cbn in Hstep; [|exact Hstep..].
  eapply contents_kept_trans; [exact Hstep|]. apply IH.
  - intros k g Hk. destruct (Hfree (S k) g Hk) as [Hg Hgne].
    rewrite Nat.add_succ_r in Hg, Hgne. split; [|exact Hgne].
    destruct (Hapart 0 f (S k) g eq_refl Hk ltac:(lia)) as (H1 & H2 & H3).
    rewrite Nat.add_0_r, Nat.add_succ_r in *.
    pose proof (restore_step_frame E src dst i f s _ H1 H2 H3) as Hframe.
    rewrite Hrun in Hframe. cbn in Hframe. cbn [Nat.add].
    now rewrite Hframe.
  - intros k g j h Hk Hj Hlt.
    specialize (Hapart (S k) g (S j) h Hk Hj ltac:(lia)).
    now rewrite !Nat.add_succ_r in Hapart.
Qed.

Lemma restore_legacy_keeps (s : store) :
  contents_kept s (outcome_state (restore_legacy E dst s)).
Proof.
  unfold restore_legacy, bind, isfile, when.
  destruct (bool_decide (is_Some (s !! D "sickbeard.db"))); cbn [andb];
    [|apply contents_kept_refl].
  destruct (s !! D "sickchill.db") as [c|] eqn:Hc.
  - rewrite bool_decide_eq_true_2 by eauto. apply contents_kept_refl.
  - rewrite bool_decide_eq_false_2 by (intros [? ?]; discriminate).
    now apply shutil_move_keeps.
Qed.

End Keep.

Ltac resolve_target :=
  rewrite ?target_legacy;
  rewrite ?target_current by (first [reflexivity | discriminate]).

(** X2.  Nothing is lost when the backup names are free: if, for each
    manifest file, the path of the backup its iteration would make is
    not taken, then however [restore_db] ends, every content that was
    in the store is still in it (possibly under another path). *)
Theorem restore_db_loses_nothing
    (E : os_env) (src dst : string) (s : store) :
  (forall k f, files_list !! k = Some f -> s !! bak_file E dst k f = None) ->
  contents_kept s (outcome_state (restore_db E src dst s)).
Proof.
  intros Hfree. rewrite restore_db_state. unfold restore_body, bind.
  assert (contents_kept s
            (outcome_state (restore_loop E src dst 0 files_list s))) as Hloop.
  { apply restore_loop_keeps.
    - intros k f Hk. split; [now apply Hfree|].
      destruct k as [|[|[|[|[|k]]]]]; cbn in Hk; try discriminate Hk;
        injection Hk as <-; resolve_target; path_ne.
    - intros k f j g Hk Hj Hlt.
      destruct k as [|[|[|[|[|k]]]]]; cbn in Hk; try discriminate Hk;
        injection Hk as <-;
        (destruct j as [|[|[|[|[|j]]]]]; cbn in Hj; try discriminate Hj;
         try lia; injection Hj as <-);
        (split; [|split]); resolve_target; path_ne. }
  destruct (restore_loop E src dst 0 files_list s) as [[] s1|e s1|x s1];
    cbn in Hloop; [|exact Hloop..].
  pose proof (restore_legacy_keeps E dst s1) as Hleg.
  destruct (restore_legacy E dst s1) as [[] s2|e s2|x s2]; cbn in *;
    eapply contents_kept_trans; eassumption.
Qed.

Lemma restore_db_loses_nothing_witness :
  contents_kept sample_config_store
    (outcome_state (restore_db sample_refusing_os "restore" "data"
                      sample_config_store)).
Proof.
  apply restore_db_loses_nothing.
  intros k f Hk.
  destruct k as [|[|[|[|[|k]]]]]; cbn in Hk; try discriminate Hk;
    injection Hk as <-; vm_compute; reflexivity.
Defined.

Section Once.
Context (E : os_env) (src dst : string).

Local Abbreviation P f := (Path.join src f).
Local Abbreviation D f := (Path.join dst f).
Local Abbreviation B i f := (bak_file E dst i f).
Local Abbreviation T f := (target src dst f).

Lemma restore_step_absent i f (s : store) :
  s !! P f = None -> restore_step E src dst i f s = Ret tt s.
Proof. intros H. now rewrite restore_step_unfold, H. Qed.

Lemma restore_loop_absent files : forall i (s : store),
  (forall f, In f files -> s !! P f = None) ->
  restore_loop E src dst i files s = Ret tt s.
Proof.
  induction files as [|f files IH]; intros i s H; [reflexivity|].
  cbn [restore_loop]. unfold bind.
  rewrite restore_step_absent by (apply H; now left).
  apply IH. intros g Hg. apply H. now right.
Qed.

(** An iteration whose source is its own destination backs the file
    up and then finds it gone. *)
Lemma restore_step_onto_itself i f (s : store) :
  T f = P f -> P f <> B i f -> is_Some (s !! P f) ->
  exists e s', restore_step E src dst i f s = Raise e s'.
Proof.
  intros Hsame Hne [c Hc]. rewrite restore_step_unfold, Hsame, Hc.
  unfold bind, shutil_move at 1. rewrite Hc.
  destruct (os_refuses E (P f) (B i f)); [eauto|].
  unfold shutil_move. rewrite lookup_insert_ne by congruence.
  rewrite lookup_delete_eq. eauto.
Qed.

Lemma restore_loop_onto_itself files : forall i (s : store),
  (forall f, In f files -> T f = P f /\ forall j, P f <> B j f) ->
  (exists f, In f files /\ is_Some (s !! P f)) ->
  exists e s', restore_loop E src dst i files s = Raise e s'.
Proof.
  induction files as [|f files IH]; intros i s Hself (f0 & Hin & Hsome).
  { destruct Hin. }
  cbn [restore_loop]. unfold bind.
  destruct (s !! P f) as [c|] eqn:Hf.
  - destruct (Hself f ltac:(now left)) as [Ht Hb].
    destruct (restore_step_onto_itself i f s Ht (Hb i) ltac:(eauto))
      as (e & s' & ->).
    eauto.
  - rewrite (restore_step_absent i f s Hf). apply IH.
    + intros g Hg. apply Hself. now right.
    + exists f0. split; [|exact Hsome].
      destruct Hin as [->|Hin]; [|exact Hin].
      rewrite Hf in Hsome. now destruct Hsome.
Qed.

Lemma same_dir_every_file f :
  has_sep f = false ->
  P "sickchill.db" = D "sickchill.db" -> P f = D f.
Proof.
  intros Hf Hsame.
  now apply (join_same_dir src dst "sickchill.db" f).
Qed.

Lemma distinct_dirs_every_file f :
  has_sep f = false ->
  P "sickchill.db" <> D "sickchill.db" -> P f <> D f.
Proof.
  intros Hf Hne Heq. apply Hne.
  now apply (join_same_dir src dst f "sickchill.db").
Qed.

Lemma restore_loop_raise_false (s s' : store) e :
  restore_loop E src dst 0 files_list s = Raise e s' ->
  restore_db E src dst s = Ret false s'.
Proof.
  intros H. unfold restore_db, try_except, restore_body, bind. now rewrite H.
Qed.

Lemma restore_loop_step i f files (s : store) :
  restore_loop E src dst i (f :: files) s
  = match restore_step E src dst i f s with
    | Ret _ s1 => restore_loop E src dst (S i) files s1
    | Raise e s1 => Raise e s1
    | Exit x s1 => Exit x s1
    end.
Proof. reflexivity. Qed.

(** With the backup and the data in one directory, the loop raises as
    soon as the directory holds one of the manifest files. *)
Lemma restore_loop_one_directory (s : store) :
  P "sickchill.db" = D "sickchill.db" ->
  (exists f, In f files_list /\ is_Some (s !! P f)) ->
  exists e s', restore_loop E src dst 0 files_list s = Raise e s'.
Proof.
  intros Hsame (f0 & Hin & Hsome).
  assert (forall f, In f ["sickchill.db"; "config.ini"; "failed.db"; "cache.db"] ->
                    T f = P f /\ forall j, P f <> B j f) as Htail.
  { intros f Hf. cbn in Hf.
    destruct Hf as [<-|[<-|[<-|[<-|[]]]]];
      (split; [resolve_target; symmetry; now apply same_dir_every_file
              |intros j; path_ne]). }
  unfold files_list. rewrite restore_loop_step.
  destruct (s !! P "sickbeard.db") as [c|] eqn:Hleg.
  - destruct (restore_step E src dst 0 "sickbeard.db" s)
      as [[] s1|e s1|x s1] eqn:Hstep; [|eauto|].
    + destruct (restore_step_legacy E src dst s s1 c Hstep Hleg) as (Hd & _ & _).
      apply restore_loop_onto_itself; [exact Htail|].
      exists "sickchill.db". split; [now left|]. rewrite Hsame. eauto.
    + now apply restore_step_no_exit in Hstep.
  - rewrite (restore_step_absent 0 "sickbeard.db" s Hleg).
    apply restore_loop_onto_itself; [exact Htail|].
    exists f0. split; [|exact Hsome].
    destruct Hin as [<-|Hin]; [|exact Hin].
    rewrite Hleg in Hsome. now destruct Hsome.
Qed.

Lemma restore_legacy_again (s s' : store) :
  restore_legacy E dst s = Ret tt s' -> restore_legacy E dst s' = Ret tt s'.
Proof.
  unfold restore_legacy, bind, isfile, when.
  destruct (s !! D "sickbeard.db") as [c|] eqn:Hleg.
  - rewrite (bool_decide_eq_true_2 (is_Some (Some c))) by eauto.
    destruct (s !! D "sickchill.db") as [d|] eqn:Hcur.
    + rewrite (bool_decide_eq_true_2 (is_Some (Some d))) by eauto.
      cbn [andb negb]. intros [= <-]. rewrite Hleg, Hcur.
      rewrite (bool_decide_eq_true_2 (is_Some (Some c))) by eauto.
      now rewrite (bool_decide_eq_true_2 (is_Some (Some d))) by eauto.
    + rewrite (bool_decide_eq_false_2 (is_Some None))
        by (intros [? ?]; discriminate).
      cbn [andb negb]. intros Hm. apply shutil_move_ret in Hm as (c' & _ & _ & ->).
      rewrite lookup_insert_ne, lookup_delete_eq by path_ne.
      now rewrite (bool_decide_eq_false_2 (is_Some None))
        by (intros [? ?]; discriminate).
  - rewrite (bool_decide_eq_false_2 (is_Some None))
      by (intros [? ?]; discriminate).
    cbn [andb negb]. intros [= <-]. rewrite Hleg.
    now rewrite (bool_decide_eq_false_2 (is_Some None))
      by (intros [? ?]; discriminate).
Qed.

Lemma restore_step_consumes i f (s s1 : store) :
  restore_step E src dst i f s = Ret tt s1 ->
  P f <> T f -> P f <> B i f -> s1 !! P f = None.
Proof.
  intros Hrun Ht Hb. rewrite restore_step_unfold in Hrun.
  destruct (s !! P f) as [c|] eqn:Hf; [|now injection Hrun as <-].
  destruct (s !! T f).
  - apply bind_ret_inv in Hrun as ([] & sb & _ & Hmove).
    apply shutil_move_ret in Hmove as (c' & _ & _ & ->).
    rewrite lookup_insert_ne by congruence. apply lookup_delete_eq.
  - apply shutil_move_ret in Hrun as (c' & _ & _ & ->).
    rewrite lookup_insert_ne by congruence. apply lookup_delete_eq.
Qed.

Lemma restore_loop_consumes files : forall i (s s' : store),
  restore_loop E src dst i files s = Ret tt s' ->
  (forall k f, files !! k = Some f -> P f <> T f /\ P f <> B (i + k) f) ->
  (forall k f j g, files !! k = Some f -> files !! j = Some g -> k < j ->
                   P f <> P g /\ P f <> T g /\ P f <> B (i + j) g) ->
  forall f, In f files -> s' !! P f = None.
Proof.
  induction files as [|f files IH]; intros i s s' Hrun Hown Hlater g Hg.
  { destruct Hg. }
  apply restore_loop_cons in Hrun as (s1 & Hstep & Hrun).
  destruct Hg as [<-|Hg].
  - destruct (Hown 0 f eq_refl) as [Ht Hb]. rewrite Nat.add_0_r in Hb.
    rewrite (restore_loop_ret_frame E src dst _ _ _ _ (P f) Hrun).
    + now apply (restore_step_consumes i f s s1).
    + intros k h Hk. specialize (Hlater 0 f (S k) h eq_refl Hk ltac:(lia)).
      now rewrite Nat.add_succ_r in Hlater.
  - apply (IH (S i) s1 s' Hrun); [| |exact Hg].
    + intros k h Hk. specialize (Hown (S k) h Hk).
      now rewrite Nat.add_succ_r in Hown.
    + intros k h j h' Hk Hj Hlt.
      specialize (Hlater (S k) h (S j) h' Hk Hj ltac:(lia)).
      now rewrite Nat.add_succ_r in Hlater.
Qed.

End Once.

(** X3.  Restoring a directory onto itself fails: when [src_dir] and
    [dst_dir] give the same paths and the directory holds any of the
    manifest files, [restore_db] returns [False] (an iteration backs
    its file up and then finds nothing to move). *)
Theorem restore_db_onto_itself_fails
    (E : os_env) (src dst : string) (s : store) :
  Path.join src "sickchill.db" = Path.join dst "sickchill.db" ->
  (exists f, In f files_list /\ is_Some (s !! Path.join src f)) ->
  exists s', restore_db E src dst s = Ret false s'.
Proof.
  intros Hsame Hsome.
  destruct (restore_loop_one_directory E src dst s Hsame Hsome)
    as (e & s' & Hloop).
  exists s'. now apply (restore_loop_raise_false E src dst s s' e).
Qed.

Lemma restore_db_onto_itself_fails_witness :
  exists s',
    restore_db sample_os "data" "data"
      (<["data/config.ini" := "settings"]> ∅) = Ret false s'.
Proof.
  apply restore_db_onto_itself_fails; [reflexivity|].
  exists "config.ini". split; [cbn; auto|]. vm_compute. eauto.
Defined.

(** X4.  A successful restore uses the backup up: afterwards [src_dir]
    holds none of the manifest files, and calling [restore_db] again
    on the result returns [True] and changes nothing. *)
Theorem restore_db_consumes_backup
    (E : os_env) (src dst : string) (s s' : store) :
  restore_db E src dst s = Ret true s' ->
  (forall f, In f files_list -> s' !! Path.join src f = None)
  /\ restore_db E src dst s' = Ret true s'.
Proof.
  intros Hrun.
  assert (forall f, In f files_list -> s' !! Path.join src f = None) as Hgone.
  { destruct (decide (Path.join src "sickchill.db" = Path.join dst "sickchill.db"))
      as [Hsame|Hdirs].
    - (* one directory: there was nothing to restore *)
      assert (forall f, In f files_list -> s !! Path.join src f = None) as Hnone.
      { intros f Hf. destruct (s !! Path.join src f) as [c|] eqn:Hc; [|reflexivity].
        destruct (restore_loop_one_directory E src dst s Hsame) as (e & sx & Hl).
        { exists f. split; [exact Hf|]. rewrite Hc. eauto. }
        apply restore_loop_raise_false in Hl. congruence. }
      apply restore_db_true in Hrun as (s5 & Hloop & Hafter).
      rewrite (restore_loop_absent E src dst files_list 0 s Hnone) in Hloop.
      injection Hloop as <-.
      assert (s !! Path.join dst "sickbeard.db" = None) as Hleg.
      { rewrite <- (same_dir_every_file src dst "sickbeard.db" eq_refl Hsame).
        apply Hnone. cbn. auto. }
      unfold restore_legacy, bind, isfile, when in Hafter. rewrite Hleg in Hafter.
      rewrite (bool_decide_eq_false_2 (is_Some None)) in Hafter
        by (intros [? ?]; discriminate).
      cbn [andb] in Hafter. injection Hafter as <-. exact Hnone.
    - apply restore_db_true in Hrun as (s5 & Hloop & Hafter).
      intros f Hf.
      assert (s5 !! Path.join src f = None) as H5.
      { apply (restore_loop_consumes E src dst files_list 0 s s5 Hloop);
          [| |exact Hf].
        - intros k g Hk.
          destruct k as [|[|[|[|[|k]]]]]; cbn in Hk; try discriminate Hk;
            injection Hk as <-; (split; [|path_ne]); resolve_target;
            first [ path_ne
                  | now apply distinct_dirs_every_file ].
        - intros k g j h Hk Hj Hlt.
          destruct k as [|[|[|[|[|k]]]]]; cbn in Hk; try discriminate Hk;
            injection Hk as <-;
            (destruct j as [|[|[|[|[|j]]]]]; cbn in Hj; try discriminate Hj;
             try lia; injection Hj as <-);
            (split; [|split]); resolve_target; path_ne. }
      pose proof (restore_legacy_frame E dst s5 (Path.join src f)) as Hframe.
      rewrite Hafter in Hframe. cbn [outcome_state] in Hframe.
      rewrite Hframe; [exact H5| |].
      + cbn in Hf. destruct Hf as [<-|[<-|[<-|[<-|[<-|[]]]]]];
          first [ path_ne | now apply distinct_dirs_every_file ].
      + cbn in Hf. destruct Hf as [<-|[<-|[<-|[<-|[<-|[]]]]]];
          first [ path_ne | exact Hdirs ]. }
  split; [exact Hgone|].
  apply restore_db_true in Hrun as (s5 & _ & Hafter).
  apply restore_legacy_again in Hafter.
  unfold restore_db, try_except, restore_body, bind.
  rewrite (restore_loop_absent E src dst files_list 0 s' Hgone).
  now rewrite Hafter.
Qed.

Lemma restore_db_consumes_backup_witness :
  let s' := outcome_state (restore_db sample_os "restore" "data" sample_store) in
  (forall f, In f files_list -> s' !! Path.join "restore" f = None)
  /\ restore_db sample_os "restore" "data" s' = Ret true s'.
Proof.
  apply (restore_db_consumes_backup sample_os "restore" "data" sample_store).
  vm_compute. reflexivity.
Defined.

End RestoreExtras.

(** ** More on load_shows_from_db *)

Module HydrateExtras.
Import Hydrate HydrateClaims.
Local Open Scope list_scope.

Section WithShow.
Context {show : Type} (E : tv_env show).

Lemma rows_accounted (rows : list sql_row) :
  length (built_shows E rows) + length (errors (failure_log E rows))
  = length rows.
Proof.
  induction rows as [|row rows IH]; [reflexivity|].
  cbn [built_shows failure_log]. destruct (build E row) as [e|x].
  - unfold errors in *. cbn. rewrite <- IH. lia.
  - cbn. now rewrite IH.
Qed.

(** X5.  Every row is accounted for: whatever the rows are, hydration
    returns, and the number of shows in the registry plus the number
    of errors it logged is the number of rows. *)
Theorem load_shows_from_db_accounts_for_rows
    (rows : list sql_row) (r0 : registry show) :
  exists r' new_errors,
    load_shows_from_db E (inr rows) r0 = Ret tt r'
    /\ errors (log r') = errors (log r0) ++ new_errors
    /\ length (showList r') + length new_errors = length rows.
Proof.
  eexists. exists (errors (failure_log E rows)).
  split; [apply load_shows_from_db_spec|]. cbn [showList log]. split.
  - unfold errors. rewrite List.filter_app, map_app. reflexivity.
  - apply rows_accounted.
Qed.

(** X6.  Hydration raises exactly when the query does; it then raises
    what the query raised and leaves the old registry in place (the
    registry is emptied only once the rows are there). *)
Theorem load_shows_from_db_raises_with_query
    (answer : exn + list sql_row) (r0 : registry show) :
  match answer with
  | inl e =>
      exists r', load_shows_from_db E answer r0 = Raise e r'
                 /\ showList r' = showList r0
  | inr rows =>
      exists r', load_shows_from_db E answer r0 = Ret tt r'
  end.
Proof.
  destruct answer as [e|rows].
  - eexists. split; reflexivity.
  - eexists. apply load_shows_from_db_spec.
Qed.

End WithShow.

End HydrateExtras.

(** ** More on shutdown and clear_cache *)

Module ShutdownExtras.
Import Proc ProcMore ProcFacts.
Local Open Scope list_scope.

Lemma with_trace_same (st : proc) : with_trace st (trace st ++ []) = st.
Proof. rewrite app_nil_r. now destruct st. Qed.

Lemma bind_ext_any {A} (E : env) (c : call) (k : M proc A) st :
  (ext E c ;; k) st
  = match fails E c with
    | Some e => Raise e (with_trace st (trace st ++ [c]))
    | None => k (with_trace st (trace st ++ [c]))
    end.
Proof. unfold bind. rewrite ext_run. now destruct (fails E c). Qed.

Lemma bind_run_nil {A} (E : env) (k : M proc A) st :
  (run_calls E [] ;; k) st = k st.
Proof. reflexivity. Qed.

Lemma bind_run_cons {A} (E : env) (c : call) (r : list call) (k : M proc A) st :
  swallowed c = false ->
  (run_calls E (c :: r) ;; k) st
  = match fails E c with
    | Some e => Raise e (with_trace st (trace st ++ [c]))
    | None => (run_calls E r ;; k) (with_trace st (trace st ++ [c]))
    end.
Proof.
  intros Hc. cbn [run_calls]. unfold bind, record, modify. rewrite Hc.
  now destruct (fails E c).
Qed.

Lemma bind_run_swallowed {A} (E : env) (c : call) (r : list call)
    (k : M proc A) st :
  swallowed c = true ->
  (run_calls E (c :: r) ;; k) st
  = (run_calls E r ;; k) (with_trace st (trace st ++ [c])).
Proof.
  intros Hc. cbn [run_calls]. unfold bind, record, modify. rewrite Hc.
  now destruct (fails E c).
Qed.

Lemma bind_run_app {A} (E : env) (l1 l2 : list call) (k : M proc A) : forall st,
  (run_calls E (l1 ++ l2) ;; k) st
  = (run_calls E l1 ;; run_calls E l2 ;; k) st.
Proof.
  induction l1 as [|c l1 IH]; intros st; [reflexivity|].
  cbn [app run_calls]. unfold bind, record, modify in *.
  destruct (fails E c); [destruct (swallowed c)|]; try reflexivity; apply IH.
Qed.

(** The state a sequence of calls leaves differs only in its trace. *)
Lemma bind_run_congr {A} (E : env) (cs : list call) (k1 k2 : M proc A) :
  forall st,
    (forall t, k1 (with_trace st t) = k2 (with_trace st t)) ->
    (run_calls E cs ;; k1) st = (run_calls E cs ;; k2) st.
Proof.
  induction cs as [|c cs IH]; intros st Hk.
  - rewrite !bind_run_nil. rewrite <- (with_trace_same st). apply Hk.
  - cbn [run_calls]. unfold bind, record, modify in *.
    assert (forall t, k1 (with_trace (with_trace st (trace st ++ [c])) t)
                      = k2 (with_trace (with_trace st (trace st ++ [c])) t)) as Hk'.
    { intros t. apply (Hk t). }
    destruct (fails E c); [destruct (swallowed c)|]; try reflexivity;
      now apply IH.
Qed.

(** [clear_cache] is the sequence of its calls. *)
Lemma bind_clear_cache_any {A} (E : env) (k : M proc A) st :
  (clear_cache E ;; k) st = (run_calls E (spec_cache_calls E st) ;; k) st.
Proof.
  unfold clear_cache, spec_cache_calls, try_except, isdir.
  unfold bind at 1. rewrite bind_get, bind_assoc, bind_get, bind_ret_l.
  destruct (nodes st !! Path.join (CACHE_DIR (settings st)) "mako") as [n|];
    [destruct (is_dir n)|]; cbn [when]; try reflexivity.
  rewrite ext_run.
  destruct (fails E (rmtree _)) as [e|] eqn:Hrm.
  - rewrite bind_run_swallowed by reflexivity.
    rewrite bind_run_cons by reflexivity. rewrite ext_run.
    cbn [trace with_trace]. now destruct (fails E (logger_warning _)).
  - cbn [run_calls]. unfold bind, record, modify. now rewrite Hrm.
Qed.

Ltac in_step E :=
  rewrite ?bind_assoc;
  rewrite bind_ext_any, bind_run_cons by reflexivity;
  cbn [settings self nodes trace with_trace];
  match goal with
  | |- context [fails E ?c] => destruct (fails E c); [reflexivity|]
  end.

Lemma spec_cache_calls_with_trace (E : env) st t :
  spec_cache_calls E (with_trace st t) = spec_cache_calls E st.
Proof. reflexivity. Qed.

(** From the clearing of the cache to the exit. *)
Ltac from_cache E st event :=
  rewrite ?bind_assoc;
  rewrite bind_clear_cache_any, bind_run_app, spec_cache_calls_with_trace;
  apply bind_run_congr; intros ?;
  cbn [settings self nodes trace with_trace];
  unfold spec_restart_argv;
  destruct event; cbn [SystemEvent_eqb when andb app];
  [ in_step E; rewrite ?bind_assoc; rewrite bind_get;
    cbn [settings self nodes trace with_trace is_nil negb andb];
    destruct (NO_RESTART (settings st)); cbn [negb when app];
    [ rewrite bind_ret_l; in_step E; reflexivity
    | change ([sys_executable E; MY_FULLNAME (settings st)]
                ++ MY_ARGS (settings st))
        with (sys_executable E :: MY_FULLNAME (settings st)
                :: MY_ARGS (settings st));
      destruct (mem "--nolaunch" _); cbn [negb];
      in_step E; in_step E; in_step E; in_step E; reflexivity ]
  | in_step E; rewrite bind_ret_l; in_step E; reflexivity ].

(** [shutdown] is the sequence of the calls of the teardown, followed
    by the exit. *)
Lemma shutdown_as_calls (E : env) (event : SystemEvent) (st : proc) :
  shutdown E event st
  = (run_calls E (spec_teardown E event st) ;; os_exit 0) st.
Proof.
  unfold shutdown, spec_teardown. rewrite bind_get.
  destruct (started (settings st)); cbn [when].
  2:{ rewrite bind_ret_l. in_step E. reflexivity. }
  cbn [app]. in_step E. in_step E.
  destruct (web_server (self st)) as [w|].
  - rewrite bool_decide_eq_true_2 by eauto. cbn [when app].
    in_step E. in_step E.
    rewrite ?bind_assoc; rewrite bind_try_pass.
    rewrite bind_run_swallowed by reflexivity.
    cbn [settings self nodes trace with_trace].
    from_cache E st event.
  - rewrite bool_decide_eq_false_2 by (intros [? ?]; discriminate).
    cbn [when app]. rewrite ?bind_assoc; rewrite bind_ret_l.
    from_cache E st event.
Qed.

(** A sequence of calls runs to its end, or stops at the first call
    that raises something nobody swallows. *)
Lemma run_calls_outcome (E : env) (cs : list call) : forall st,
  (Forall (passes E) cs
   /\ run_calls E cs st = Ret tt (with_trace st (trace st ++ cs)))
  \/ (exists done c rest e,
        cs = done ++ c :: rest /\ Forall (passes E) done
        /\ swallowed c = false /\ fails E c = Some e
        /\ run_calls E cs st
           = Raise e (with_trace st (trace st ++ done ++ [c]))).
Proof.
  induction cs as [|c cs IH]; intros st.
  { left. split; [constructor|]. cbn. now rewrite with_trace_same. }
  cbn [run_calls]. unfold bind, record, modify.
  assert (forall l, with_trace (with_trace st (trace st ++ [c]))
                      (trace (with_trace st (trace st ++ [c])) ++ l)
                    = with_trace st (trace st ++ c :: l)) as Hw.
  { intros l. unfold with_trace. cbn. now rewrite <- app_assoc. }
  assert (passes E c ->
          (Forall (passes E) (c :: cs)
           /\ run_calls E cs (with_trace st (trace st ++ [c]))
              = Ret tt (with_trace st (trace st ++ c :: cs)))
          \/ (exists done c0 rest e,
                c :: cs = done ++ c0 :: rest /\ Forall (passes E) done
                /\ swallowed c0 = false /\ fails E c0 = Some e
                /\ run_calls E cs (with_trace st (trace st ++ [c]))
                   = Raise e (with_trace st (trace st ++ done ++ [c0]))))
    as Hgo.
  { intros Hc.
    destruct (IH (with_trace st (trace st ++ [c])))
      as [[Hall Hrun]|(done & c0 & rest & e & -> & Hall & Hs & Hf & Hrun)].
    - left. split; [now constructor|]. now rewrite Hrun, Hw.
    - right. exists (c :: done), c0, rest, e.
      repeat split; try assumption; [now constructor|].
      now rewrite Hrun, Hw. }
  destruct (fails E c) as [e|] eqn:Hf.
  - destruct (swallowed c) eqn:Hs.
    + apply Hgo. now left.
    + right. exists [], c, cs, e. repeat split; try assumption. constructor.
  - apply Hgo. now right.
Qed.

(** X7.  Whatever fails, [shutdown] never returns to its caller.  Its
    calls are those of the teardown order, up to the first one that
    raises something not swallowed: it then raises the same, having
    made no later call; when there is none, it makes them all and
    ends the process with status 0. *)
Theorem shutdown_stops_at_first_failure
    (E : env) (event : SystemEvent) (st : proc) :
  let calls := spec_teardown E event st in
  (Forall (passes E) calls
   /\ shutdown E event st
      = Exit (ExitCode 0) (with_trace st (trace st ++ calls)))
  \/ (exists done c rest e,
        calls = done ++ c :: rest /\ Forall (passes E) done
        /\ swallowed c = false /\ fails E c = Some e
        /\ shutdown E event st
           = Raise e (with_trace st (trace st ++ done ++ [c]))).
Proof.
  cbv zeta. rewrite shutdown_as_calls. unfold bind.
  destruct (run_calls_outcome E (spec_teardown E event st) st)
    as [[Hall Hrun]|(done & c & rest & e & Hcs & Hall & Hs & Hf & Hrun)].
  - left. split; [exact Hall|]. now rewrite Hrun.
  - right. exists done, c, rest, e. repeat split; try assumption.
    now rewrite Hrun.
Qed.

Lemma popen_in_teardown (E : env) (event : SystemEvent) (st : proc) argv cwd :
  In (Popen argv cwd) (spec_teardown E event st) ->
  started (settings st) = true /\ event = RESTART
  /\ NO_RESTART (settings st) = false
  /\ argv = spec_restart_argv E (settings st) /\ cwd = getcwd E.
Proof.
  unfold spec_teardown, spec_cache_calls.
  destruct (started (settings st)); [|intros [H|[]]; discriminate H].
  rewrite !in_app_iff. intros [H|[H|[H|[H|[H|H]]]]].
  - cbn in H. destruct H as [H|[H|[]]]; discriminate H.
  - destruct (web_server (self st)); cbn in H;
      [destruct H as [H|[H|[H|[]]]]; discriminate H|destruct H].
  - destruct (nodes st !! _) as [n|]; [destruct (is_dir n)|]; cbn in H;
      try (now destruct H).
    destruct H as [H|H]; [discriminate H|].
    destruct (fails E _); cbn in H; [destruct H as [H|[]]; discriminate H|].
    destruct H.
  - cbn in H. destruct H as [H|[]]; discriminate H.
  - destruct event; cbn [SystemEvent_eqb andb] in H; [|destruct H].
    destruct (NO_RESTART (settings st)); cbn in H; [destruct H|].
    destruct H as [H|[H|[H|[]]]]; try discriminate H.
    injection H as <- <-. repeat split.
  - cbn in H. destruct H as [H|[]]; discriminate H.
Qed.

(** X8.  [shutdown] starts a new process only on a restart: if its
    calls include a [Popen], then the system was started, the event is
    [RESTART] and [NO_RESTART] is off, and the process is started in
    the current directory with the executable, the original arguments
    and [--nolaunch]. *)
Theorem shutdown_spawns_only_on_restart
    (E : env) (event : SystemEvent) (st : proc) (argv : list string) (cwd : string) :
  In (Popen argv cwd) (trace (outcome_state (shutdown E event st))) ->
  In (Popen argv cwd) (trace st)
  \/ (started (settings st) = true /\ event = RESTART
      /\ NO_RESTART (settings st) = false
      /\ argv = spec_restart_argv E (settings st) /\ cwd = getcwd E).
Proof.
  rewrite shutdown_as_calls. unfold bind.
  destruct (run_calls_outcome E (spec_teardown E event st) st)
    as [[Hall Hrun]|(done & c & rest & e & Hcs & Hall & Hs & Hf & Hrun)];
    rewrite Hrun; cbn [outcome_state trace with_trace os_exit exit];
    rewrite !in_app_iff; intros Hin.
  - destruct Hin as [Hin|Hin]; [now left|right].
    now apply (popen_in_teardown E event st).
  - destruct Hin as [Hin|Hin]; [now left|right].
    apply (popen_in_teardown E event st). rewrite Hcs.
    rewrite in_app_iff. cbn in *. tauto.
Qed.

Lemma shutdown_spawns_only_on_restart_witness :
  In (Popen ["/usr/bin/python3"; "/app/SickChill.py"; "--port"; "9000";
             "--nolaunch"] "/data")
     (trace sample_proc)
  \/ (started (settings sample_proc) = true /\ RESTART = RESTART
      /\ NO_RESTART (settings sample_proc) = false
      /\ ["/usr/bin/python3"; "/app/SickChill.py"; "--port"; "9000"; "--nolaunch"]
         = spec_restart_argv (sample_env nothing_fails) (settings sample_proc)
      /\ "/data" = getcwd (sample_env nothing_fails)).
Proof.
  apply (shutdown_spawns_only_on_restart (sample_env nothing_fails) RESTART).
  vm_compute. tauto.
Defined.

(** X9.  [clear_cache] does nothing when the cache folder is not a
    directory.  When it is, it first calls [rmtree] on it; what the
    removal raises is swallowed and a warning is logged instead; so
    [clear_cache] raises only when the removal failed and the warning
    raises too, and then what the warning raised. *)
Theorem clear_cache_swallows_removal (E : env) (st : proc) :
  let cache_folder := Path.join (CACHE_DIR (settings st)) "mako" in
  let warning := logger_warning "Unable to remove the cache/mako directory!" in
  clear_cache E st
  = match nodes st !! cache_folder with
    | Some n =>
        if is_dir n then
          match fails E (rmtree cache_folder) with
          | None =>
              Ret tt (with_trace st (trace st ++ [rmtree cache_folder]))
          | Some _ =>
              match fails E warning with
              | None =>
                  Ret tt (with_trace st
                            (trace st ++ [rmtree cache_folder; warning]))
              | Some e =>
                  Raise e (with_trace st
                             (trace st ++ [rmtree cache_folder; warning]))
              end
          end
        else Ret tt st
    | None => Ret tt st
    end.
Proof.
  cbv zeta. unfold clear_cache, try_except.
  rewrite bind_get. unfold isdir. rewrite bind_assoc, bind_get, bind_ret_l.
  destruct (nodes st !! Path.join (CACHE_DIR (settings st)) "mako") as [n|];
    [destruct (is_dir n)|]; cbn [when]; try reflexivity.
  rewrite ext_run.
  destruct (fails E (rmtree _)); [|reflexivity].
  rewrite ext_run. cbn [trace with_trace]. unfold with_trace.
  cbn [settings self nodes trace]. rewrite <- app_assoc.
  now destruct (fails E (logger_warning _)).
Qed.

End ShutdownExtras.

(** ** More on start *)

Module StartExtras.
Import Proc ProcMore PyFacts ProcFacts StartClaims.
Local Open Scope list_scope.

(** *** Relations kept by the phases, whatever their calls do *)

Section Kept.
Context (R : proc -> proc -> Prop).
Context (R_refl : forall st, R st st).
Context (R_trans : forall a b c, R a b -> R b c -> R a c).

Lemma kept_ret {A} (a : A) : preserves R (ret a).
Proof. intros st. apply R_refl. Qed.

Lemma kept_get : preserves R get.
Proof. intros st. apply R_refl. Qed.

Lemma kept_exit {A} x : preserves R (@exit proc A x).
Proof. intros st. apply R_refl. Qed.

Lemma kept_bind {A B} (m : M proc A) (k : A -> M proc B) :
  preserves R m -> (forall a, preserves R (k a)) ->
  preserves R (x <- m ;; k x).
Proof.
  intros Hm Hk st. specialize (Hm st). unfold bind.
  destruct (m st) as [a s1|e s1|x s1]; cbn in *; [|exact Hm..].
  eapply R_trans; [exact Hm|apply Hk].
Qed.

Lemma kept_when (b : bool) (m : M proc unit) :
  preserves R m -> preserves R (when b m).
Proof. destruct b; [trivial|]. intros _. apply kept_ret. Qed.

Lemma kept_if {A} (b : bool) (m1 m2 : M proc A) :
  preserves R m1 -> preserves R m2 -> preserves R (if b then m1 else m2).
Proof. now destruct b. Qed.

Lemma kept_try_except {A} (body : M proc A) (handler : exn -> M proc A) :
  preserves R body -> (forall e, preserves R (handler e)) ->
  preserves R (try_except body handler).
Proof.
  intros Hb Hh st. specialize (Hb st). unfold try_except.
  destruct (body st) as [a s1|e s1|x s1]; cbn in *; [exact Hb| |exact Hb].
  eapply R_trans; [exact Hb|apply Hh].
Qed.

Lemma kept_try_except_os {A} (body : M proc A) (handler : exn -> M proc A) :
  preserves R body -> (forall e, preserves R (handler e)) ->
  preserves R (try_except_os body handler).
Proof.
  intros Hb Hh st. specialize (Hb st). unfold try_except_os.
  destruct (body st) as [a s1|e s1|x s1]; cbn in *; [exact Hb| |exact Hb].
  destruct (is_os_error e); [|exact Hb].
  eapply R_trans; [exact Hb|apply Hh].
Qed.

Lemma kept_modify (f : proc -> proc) :
  (forall st, R st (f st)) -> preserves R (modify f).
Proof. intros Hf st. apply Hf. Qed.

Lemma kept_ext (E : env) (c : call) :
  (forall st, R st (with_trace st (trace st ++ [c]))) ->
  preserves R (ext E c).
Proof.
  intros Hc st. rewrite ext_run. destruct (fails E c); cbn; apply Hc.
Qed.

End Kept.

Lemma kept_ret_inv (R : proc -> proc -> Prop) {A} (m : M proc A) st a st' :
  preserves R m -> m st = Ret a st' -> R st st'.
Proof. intros H Hrun. specialize (H st). now rewrite Hrun in H. Qed.

Lemma made_only_refl ok st : made_only ok st st.
Proof. split; [reflexivity|]. exists []. now rewrite app_nil_r. Qed.

Lemma made_only_trans ok a b c :
  made_only ok a b -> made_only ok b c -> made_only ok a c.
Proof.
  intros (H1 & l1 & Ht1 & Hl1) (H2 & l2 & Ht2 & Hl2).
  split; [congruence|]. exists (l1 ++ l2).
  rewrite Ht2, Ht1, app_assoc. split; [reflexivity|].
  rewrite forallb_app. now rewrite Hl1, Hl2.
Qed.

Lemma made_only_call ok c st :
  ok c = true -> made_only ok st (with_trace st (trace st ++ [c])).
Proof.
  intros Hc. split; [reflexivity|]. exists [c]. split; [reflexivity|].
  cbn. now rewrite Hc.
Qed.

Lemma made_only_same ok (a b : proc) :
  trace b = trace a -> no_launch (self b) = no_launch (self a) ->
  made_only ok a b.
Proof.
  intros Ht Hn. split; [exact Hn|]. exists []. now rewrite app_nil_r.
Qed.

(** Every phase but the last is built from calls other than the launch
    of the browser and from assignments that leave [no_launch] alone. *)
Ltac kept_made :=
  repeat
    lazymatch goal with
    | |- preserves _ (ext _ _) =>
        apply kept_ext; intros ?; apply made_only_call; reflexivity
    | |- preserves _ (modify _) =>
        apply kept_modify; intros ?; apply made_only_same; reflexivity
    | |- preserves _ (ret _) =>
        apply (kept_ret _ (made_only_refl not_launch))
    | |- preserves _ get =>
        apply (kept_get _ (made_only_refl not_launch))
    | |- preserves _ (exit _) =>
        apply (kept_exit _ (made_only_refl not_launch))
    | |- preserves _ (when _ _) =>
        apply (kept_when _ (made_only_refl not_launch))
    | |- preserves _ (if _ then _ else _) => apply kept_if
    | |- preserves _ (try_except _ _) =>
        apply (kept_try_except _ (made_only_trans not_launch));
        [|intros ?; cbv beta]
    | |- preserves _ (try_except_os _ _) =>
        apply (kept_try_except_os _ (made_only_trans not_launch));
        [|intros ?; cbv beta]
    | |- preserves _ (bind _ _) =>
        apply (kept_bind _ (made_only_trans not_launch));
        [|intros ?; cbv beta]
    end.

Lemma start_preliminary_made (E : env) :
  preserves (made_only not_launch) (start_preliminary E).
Proof. unfold start_preliminary, set_settings. kept_made. Qed.

Lemma start_force_update_made (E : env) (args : Args) :
  preserves (made_only not_launch) (start_force_update E args).
Proof.
  unfold start_force_update, force_update_m, os_exit. kept_made.
Qed.

Lemma start_preflight_made (E : env) :
  preserves (made_only not_launch) (start_preflight E).
Proof.
  unfold start_preflight, access_F, access_W, isfile, os_makedirs,
    set_nodes, SystemExit.
  cbv zeta. kept_made.
Qed.

Lemma start_load_made (E : env) :
  preserves (made_only not_launch) (start_load E).
Proof.
  unfold start_load, access_F, isfile, set_settings, clear_cache, isdir.
  cbv zeta. kept_made.
Qed.

Lemma start_web_server_made (E : env) :
  preserves (made_only not_launch) (start_web_server E).
Proof.
  unfold start_web_server, set_start_port, set_web_server, set_self.
  cbv zeta. kept_made.
Qed.

Lemma start_flask_made (E : env) (args : Args) :
  preserves (made_only not_launch) (start_flask E args).
Proof.
  unfold start_flask, set_flask_server, set_self. cbv zeta. kept_made.
Qed.

(** The flags: a message at most, and [no_launch] as the arguments
    say. *)
Lemma start_flags_made (E : env) (args : Args) st :
  (exists l, trace (outcome_state (start_flags E args st)) = trace st ++ l
             /\ forallb not_launch l = true)
  /\ (forall st', start_flags E args st = Ret tt st' ->
        no_launch (self st') = (nolaunch args || daemon args)%bool).
Proof.
  unfold start_flags, set_self, set_settings. cbv zeta.
  rewrite bind_modify.
  destruct (truthy_str (pidfile args) && _ && _)%bool; cbn [when].
  - rewrite ShutdownExtras.bind_ext_any.
    destruct (fails E _); cbn [outcome_state trace with_trace].
    + split; [exists [print "Not running in daemon mode. PID file creation disabled."]; now split|].
      discriminate.
    + unfold modify. cbn [outcome_state trace self no_launch].
      split; [exists [print "Not running in daemon mode. PID file creation disabled."]; now split|].
      now intros st' [= <-].
  - rewrite bind_ret_l. unfold modify. cbn [outcome_state trace].
    split; [exists []; split; [now rewrite app_nil_r|reflexivity]|].
    now intros st' [= <-].
Qed.

(** The last phase launches no browser when [no_launch] is set. *)
Lemma start_threads_made (E : env) st :
  no_launch (self st) = true ->
  made_only not_launch st (outcome_state (start_threads_and_browser E st)).
Proof.
  intros Hn. unfold start_threads_and_browser.
  rewrite ShutdownExtras.bind_ext_any.
  destruct (fails E start_threads);
    [apply made_only_call; reflexivity|].
  rewrite ShutdownExtras.bind_ext_any.
  cbn [settings self nodes trace with_trace].
  destruct (fails E build_name_cache).
  { cbn [outcome_state]. split; [reflexivity|].
    exists [start_threads; build_name_cache]. cbn.
    now rewrite <- app_assoc. }
  rewrite ShutdownExtras.bind_ext_any.
  cbn [settings self nodes trace with_trace].
  destruct (fails E update_network_dict).
  { cbn [outcome_state]. split; [reflexivity|].
    exists [start_threads; build_name_cache; update_network_dict]. cbn.
    now rewrite <- !app_assoc. }
  rewrite bind_get. cbn [settings self nodes trace with_trace].
  rewrite Hn, andb_false_r. cbn [when outcome_state ret].
  split; [reflexivity|].
  exists [start_threads; build_name_cache; update_network_dict]. cbn.
  now rewrite <- !app_assoc.
Qed.

Lemma made_only_bind {A B} (m : M proc A) (k : A -> M proc B) st :
  made_only not_launch st (outcome_state (m st)) ->
  (forall a s1, m st = Ret a s1 ->
                made_only not_launch s1 (outcome_state (k a s1))) ->
  made_only not_launch st (outcome_state ((x <- m ;; k x) st)).
Proof.
  intros Hm Hk. unfold bind.
  destruct (m st) as [a s1|e s1|x s1] eqn:Hrun; cbn in *; [|exact Hm..].
  eapply made_only_trans; [exact Hm|]. now apply Hk.
Qed.

(** X10.  With [--nolaunch] or [--daemon], [start] never launches a
    browser, however far it gets and whatever its calls do. *)
Theorem start_never_launches_browser_when_told_not_to
    (E : env) (args : Args) (st0 : proc) :
  (nolaunch args || daemon args)%bool = true ->
  exists l,
    trace (outcome_state (start E args st0)) = trace st0 ++ l
    /\ forall protocol port web_root,
        ~ In (launchBrowser protocol port web_root) l.
Proof.
  intros Hflag.
  assert (exists l,
            trace (outcome_state (start E args st0)) = trace st0 ++ l
            /\ forallb not_launch l = true) as (l & Hl & Hok).
  { unfold start. unfold bind at 1.
    pose proof (start_preliminary_made E st0) as H1.
    destruct (start_preliminary E st0) as [[] s1|e s1|x s1];
      cbn [outcome_state] in *; [|exact (proj2 H1)..].
    unfold bind at 1.
    pose proof (start_force_update_made E args s1) as H2.
    pose proof (made_only_trans _ _ _ _ H1 H2) as H12.
    destruct (start_force_update E args s1) as [[] s2|e s2|x s2];
      cbn [outcome_state] in *; [|exact (proj2 H12)..].
    unfold bind at 1.
    destruct (start_flags_made E args s2) as [(l3 & Ht3 & Hl3) Hn3].
    destruct H12 as (_ & l12 & Ht12 & Hl12).
    destruct (start_flags E args s2) as [[] s3|e s3|x s3] eqn:Hflags;
      cbn [outcome_state] in *;
      try (exists (l12 ++ l3); rewrite Ht3, Ht12, app_assoc, forallb_app,
             Hl12, Hl3; now split).
    specialize (Hn3 s3 eq_refl). rewrite Hflag in Hn3.
    assert (made_only not_launch s3
              (outcome_state
                 ((start_preflight E ;; start_load E ;; start_web_server E ;;
                   start_flask E args ;; start_threads_and_browser E) s3)))
      as (_ & l4 & Ht4 & Hl4).
    { apply made_only_bind; [apply start_preflight_made|].
      intros [] s4 H4.
      pose proof (kept_ret_inv _ _ _ _ _ (start_preflight_made E) H4) as [Hn4 _].
      apply made_only_bind; [apply start_load_made|].
      intros [] s5 H5.
      pose proof (kept_ret_inv _ _ _ _ _ (start_load_made E) H5) as [Hn5 _].
      apply made_only_bind; [apply start_web_server_made|].
      intros [] s6 H6.
      pose proof (kept_ret_inv _ _ _ _ _ (start_web_server_made E) H6) as [Hn6 _].
      apply made_only_bind; [apply start_flask_made|].
      intros [] s7 H7.
      pose proof (kept_ret_inv _ _ _ _ _ (start_flask_made E args) H7) as [Hn7 _].
      apply start_threads_made. congruence. }
    exists (l12 ++ l3 ++ l4).
    rewrite Ht4, Ht3, Ht12, <- !app_assoc, !forallb_app, Hl12, Hl3, Hl4.
    now split. }
  exists l. split; [exact Hl|].
  intros protocol port web_root Hin.
  rewrite forallb_forall in Hok. specialize (Hok _ Hin). discriminate.
Qed.

Lemma start_never_launches_browser_witness :
  exists l,
    trace (outcome_state
             (start (sample_env nothing_fails)
                {| force_update := false; noresize := false; quiet := false;
                   daemon := false; nolaunch := true; port := None;
                   pidfile := None; datadir := None; config := None;
                   flask := false; flask_port := None; flask_host := None |}
                fresh_proc))
    = trace fresh_proc ++ l
    /\ forall protocol port web_root,
        ~ In (launchBrowser protocol port web_root) l.
Proof.
  apply start_never_launches_browser_when_told_not_to. reflexivity.
Defined.

(** *** The order in which [start] brings the program up *)

Lemma traced_refl ok st : traced ok st st.
Proof. exists []. now rewrite app_nil_r. Qed.

Lemma traced_trans ok a b c : traced ok a b -> traced ok b c -> traced ok a c.
Proof.
  intros (l1 & Ht1 & Hl1) (l2 & Ht2 & Hl2). exists (l1 ++ l2).
  rewrite Ht2, Ht1, app_assoc. split; [reflexivity|].
  rewrite forallb_app. now rewrite Hl1, Hl2.
Qed.

Lemma traced_call ok c st :
  ok c = true -> traced ok st (with_trace st (trace st ++ [c])).
Proof.
  intros Hc. exists [c]. split; [reflexivity|]. cbn. now rewrite Hc.
Qed.

Lemma traced_same ok (a b : proc) : trace b = trace a -> traced ok a b.
Proof. intros Ht. exists []. now rewrite app_nil_r. Qed.

Ltac kept_minor :=
  repeat
    lazymatch goal with
    | |- preserves _ (ext _ _) =>
        apply kept_ext; intros ?; apply traced_call; reflexivity
    | |- preserves _ (modify _) =>
        apply kept_modify; intros ?; apply traced_same; reflexivity
    | |- preserves _ (ret _) => apply (kept_ret _ (traced_refl minor))
    | |- preserves _ get => apply (kept_get _ (traced_refl minor))
    | |- preserves _ (exit _) => apply (kept_exit _ (traced_refl minor))
    | |- preserves _ (when _ _) => apply (kept_when _ (traced_refl minor))
    | |- preserves _ (if _ then _ else _) => apply kept_if
    | |- preserves _ (try_except _ _) =>
        apply (kept_try_except _ (traced_trans minor));
        [|intros ?; cbv beta]
    | |- preserves _ (try_except_os _ _) =>
        apply (kept_try_except_os _ (traced_trans minor));
        [|intros ?; cbv beta]
    | |- preserves _ (bind _ _) =>
        apply (kept_bind _ (traced_trans minor)); [|intros ?; cbv beta]
    end.

Lemma reaching_bind P {A B} (m : M proc A) (k : A -> M proc B) :
  preserves (traced minor) m -> (forall x, reaching P (k x)) ->
  reaching P (x <- m ;; k x).
Proof.
  intros Hm Hk st y st' Hrun.
  apply bind_ret_inv in Hrun as (x & s1 & H1 & H2).
  pose proof (kept_ret_inv _ _ _ _ _ Hm H1) as (l & Hl & Hok).
  destruct (Hk x s1 y st' H2) as (a & c & b & Ht & Hc & Ha & Hb).
  exists (l ++ a), c, b. rewrite Ht, Hl, <- !app_assoc.
  repeat split; try assumption. rewrite forallb_app. now rewrite Hok, Ha.
Qed.

Lemma reaching_here P {A} (E : env) (c : call) (k : M proc A) :
  P c = true -> preserves (traced minor) k -> reaching P (ext E c ;; k).
Proof.
  intros Hc Hk st y st' Hrun.
  apply bind_ret_inv in Hrun as ([] & s1 & H1 & H2).
  rewrite ext_run in H1. destruct (fails E c); [discriminate|].
  injection H1 as <-.
  pose proof (kept_ret_inv _ _ _ _ _ Hk H2) as (l & Hl & Hok).
  exists [], c, l. cbn [trace with_trace] in Hl.
  rewrite Hl, <- !app_assoc. now repeat split.
Qed.

Lemma reaching_last P (E : env) (c : call) :
  P c = true -> reaching P (ext E c).
Proof.
  intros Hc st y st' Hrun.
  rewrite ext_run in Hrun. destruct (fails E c); [discriminate|].
  injection Hrun as _ <-.
  exists [], c, []. cbn. now repeat split.
Qed.

Lemma start_before_load_minor (E : env) (args : Args) :
  preserves (traced minor)
    (start_preliminary E ;; start_force_update E args ;; start_flags E args ;;
     start_preflight E).
Proof.
  unfold start_preliminary, start_force_update, force_update_m, os_exit,
    start_flags, start_preflight, access_F, access_W, isfile, os_makedirs,
    set_nodes, set_self, set_settings, SystemExit.
  cbv zeta. kept_minor.
Qed.

Lemma start_load_reaching (E : env) : reaching is_load (start_load E).
Proof.
  unfold start_load, access_F, isfile, set_settings, clear_cache, isdir.
  cbv zeta.
  repeat (apply reaching_bind; [solve [kept_minor]|intros ?; cbv beta]).
  apply reaching_here; [reflexivity|kept_minor].
Qed.

Lemma start_web_server_reaching (E : env) :
  reaching is_web_start (start_web_server E).
Proof.
  unfold start_web_server, set_start_port, set_web_server, set_self.
  cbv zeta.
  repeat (apply reaching_bind; [solve [kept_minor]|intros ?; cbv beta]).
  apply reaching_last. reflexivity.
Qed.

Lemma start_flask_minor (E : env) (args : Args) :
  preserves (traced minor) (start_flask E args).
Proof.
  unfold start_flask, set_flask_server, set_self. cbv zeta. kept_minor.
Qed.

Lemma start_threads_reaching (E : env) :
  reaching is_threads (start_threads_and_browser E).
Proof.
  unfold start_threads_and_browser.
  apply reaching_here; [reflexivity|kept_minor].
Qed.

(** X11.  When [start] gets as far as its main loop, it has read the
    shows from the database, then started the web server, then started
    the background threads: each of the three exactly once, in this
    order. *)
Theorem start_brings_up_in_order
    (E : env) (args : Args) (st0 st' : proc) :
  start E args st0 = Ret tt st' ->
  exists a b c d web_options,
    trace st'
    = trace st0 ++ a ++ [load_shows_from_db_call]
        ++ b ++ [SRWebServer_start web_options]
        ++ c ++ [start_threads] ++ d
    /\ forallb minor (a ++ b ++ c ++ d) = true.
Proof.
  intros Hrun.
  assert (start E args st0
          = ((start_preliminary E ;; start_force_update E args ;;
              start_flags E args ;; start_preflight E) ;;
             start_load E ;; start_web_server E ;; start_flask E args ;;
             start_threads_and_browser E) st0) as Hsplit.
  { unfold start, bind.
    destruct (start_preliminary E st0) as [[] s1|e s1|x s1];
      [|reflexivity..].
    destruct (start_force_update E args s1) as [[] s2|e s2|x s2];
      [|reflexivity..].
    destruct (start_flags E args s2) as [[] s3|e s3|x s3];
      [|reflexivity..].
    now destruct (start_preflight E s3) as [[] s4|e s4|x s4]. }
  rewrite Hsplit in Hrun. clear Hsplit.
  apply bind_ret_inv in Hrun as ([] & s4 & H4 & Hrun).
  apply bind_ret_inv in Hrun as ([] & s5 & H5 & Hrun).
  apply bind_ret_inv in Hrun as ([] & s6 & H6 & Hrun).
  apply bind_ret_inv in Hrun as ([] & s7 & H7 & H8).
  pose proof (kept_ret_inv _ _ _ _ _ (start_before_load_minor E args) H4)
    as (l0 & Ht0 & Hl0).
  destruct (start_load_reaching E _ _ _ H5)
    as (a1 & c1 & b1 & Ht1 & Hc1 & Ha1 & Hb1).
  destruct (start_web_server_reaching E _ _ _ H6)
    as (a2 & c2 & b2 & Ht2 & Hc2 & Ha2 & Hb2).
  pose proof (kept_ret_inv _ _ _ _ _ (start_flask_minor E args) H7)
    as (lf & Htf & Hlf).
  destruct (start_threads_reaching E _ _ _ H8)
    as (a3 & c3 & b3 & Ht3 & Hc3 & Ha3 & Hb3).
  destruct c1; try discriminate Hc1.
  destruct c2 as [| | | | | | | | | | | | | | | | | | | | | | | | | ];
    try discriminate Hc2.
  destruct c3; try discriminate Hc3.
  eexists (l0 ++ a1), (b1 ++ a2), (b2 ++ lf ++ a3), b3, _.
  split.
  - rewrite Ht3, Htf, Ht2, Ht1, Ht0. cbn [app].
    repeat rewrite <- app_assoc. cbn [app]. reflexivity.
  - rewrite !forallb_app.
    now rewrite Hl0, Ha1, Hb1, Ha2, Hb2, Hlf, Ha3, Hb3.
Qed.

Lemma start_brings_up_in_order_witness :
  exists a b c d web_options,
    trace (outcome_state
             (start (sample_env nothing_fails) sample_args fresh_proc))
    = trace fresh_proc ++ a ++ [load_shows_from_db_call]
        ++ b ++ [SRWebServer_start web_options]
        ++ c ++ [start_threads] ++ d
    /\ forallb minor (a ++ b ++ c ++ d) = true.
Proof.
  apply (start_brings_up_in_order (sample_env nothing_fails) sample_args).
  vm_compute. reflexivity.
Defined.

(** *** The configuration file in its default place *)

Lemma head_of_leaf d x :
  Path.has_sep x = false -> head_of (d +:+ "/" +:+ x) = d +:+ "/".
Proof.
  intros Hx. induction d as [|c d IH].
  - change (head_of (String "/" x) = "/"). cbn [head_of].
    rewrite Hx. reflexivity.
  - rewrite !PathFacts.append_cons. cbn [head_of].
    rewrite PathFacts.has_sep_app.
    change (Path.has_sep ("/" +:+ x)) with (Path.has_sep (String "/" x)).
    cbn [Path.has_sep].
    change (Ascii.eqb "/" Path.sep) with true.
    cbn [orb]. rewrite orb_true_r. f_equal. exact IH.
Qed.

Lemma rstrip_sep_slash d : rstrip_sep (d +:+ "/") = rstrip_sep d.
Proof.
  induction d as [|c d IH]; [reflexivity|].
  rewrite PathFacts.append_cons. cbn [rstrip_sep]. now rewrite IH.
Qed.

Lemma rstrip_sep_plain d : Path.ends_with_sep d = false -> rstrip_sep d = d.
Proof.
  induction d as [|c d IH]; [reflexivity|].
  intros H. cbn [rstrip_sep]. destruct d as [|c' d'].
  - cbn in H |- *. now rewrite H.
  - rewrite IH by exact H. reflexivity.
Qed.

(** The directory of a file joined to a plain directory is that
    directory. *)
Lemma dirname_join d x :
  plain_dir d -> Path.has_sep x = false -> dirname (Path.join d x) = d.
Proof.
  intros [Hne Hend] Hx.
  rewrite PathFacts.join_relative by exact Hx. unfold Path.dir_prefix.
  rewrite Hend, orb_false_r.
  destruct (String.eqb_spec d ""); [contradiction|].
  rewrite PathFacts.append_assoc.
  unfold dirname. rewrite head_of_leaf by exact Hx. cbv zeta.
  rewrite rstrip_sep_slash, rstrip_sep_plain by exact Hend.
  now destruct (String.eqb_spec d "").
Qed.

Lemma start_flags_default_config (E : env) (args : Args) st st' :
  start_flags E args st = Ret tt st' ->
  truthy_str (config args) = false ->
  CONFIG_FILE (settings st')
  = Path.join (DATA_DIR (settings st')) "config.ini".
Proof.
  unfold start_flags, set_self, set_settings. cbv zeta.
  rewrite bind_modify. intros Hrun Hcfg.
  destruct (truthy_str (pidfile args) && _ && _)%bool; cbn [when] in Hrun.
  - destruct (fails E (print "Not running in daemon mode. PID file creation disabled."))
      as [e|] eqn:Hc.
    + now rewrite (bind_ext_fail E _ _ _ e Hc) in Hrun.
    + rewrite (bind_ext_ok E _ _ _ Hc) in Hrun.
      injection Hrun as <-. cbn [settings DATA_DIR CONFIG_FILE].
      now rewrite Hcfg.
  - rewrite bind_ret_l in Hrun.
    injection Hrun as <-. cbn [settings DATA_DIR CONFIG_FILE].
    now rewrite Hcfg.
Qed.

(** X12.  Without [--config] the configuration file is [config.ini] in
    the data directory, and a data directory that is there and writable
    is then all the preflight needs, unless [config.ini] is a file that
    cannot be written: [start] makes no directory, never aborts over
    the directory of the configuration file, and goes on to the rest of
    the startup in the state it had. *)
Theorem start_default_config_needs_only_data_dir
    (E : env) (args : Args) (st0 st : proc) :
  (start_preliminary E ;; start_force_update E args ;; start_flags E args) st0
  = Ret tt st ->
  truthy_str (config args) = false ->
  plain_dir (DATA_DIR (settings st)) ->
  can_write (nodes st) (DATA_DIR (settings st)) = true ->
  let config_file := Path.join (DATA_DIR (settings st)) "config.ini" in
  CONFIG_FILE (settings st) = config_file
  /\ start E args st0
     = if (is_file (nodes st) config_file
           && negb (can_write (nodes st) config_file))%bool
       then Exit (ExitMsg ("Config file must be writeable: " +:+ config_file)) st
       else (start_load E ;; start_web_server E ;; start_flask E args ;;
             start_threads_and_browser E) st.
Proof.
  intros Hpre Hcfg Hplain Hw config_file.
  assert (CONFIG_FILE (settings st) = config_file) as Hfile.
  { apply bind_ret_inv in Hpre as ([] & s1 & _ & Hpre).
    apply bind_ret_inv in Hpre as ([] & s2 & _ & Hflags).
    exact (start_flags_default_config E args s2 st Hflags Hcfg). }
  split; [exact Hfile|].
  rewrite start_split. unfold bind at 1. rewrite Hpre.
  unfold bind at 1.
  assert (start_preflight E st
          = if (is_file (nodes st) config_file
                && negb (can_write (nodes st) config_file))%bool
            then Exit (ExitMsg ("Config file must be writeable: "
                                  +:+ config_file)) st
            else Ret tt st) as ->.
  { unfold start_preflight. rewrite bind_get. cbv zeta.
    unfold access_F at 1. rewrite !bind_assoc, bind_get, bind_ret_l.
    assert (is_Some (nodes st !! DATA_DIR (settings st))) as Hthere.
    { unfold can_write in Hw.
      destruct (nodes st !! DATA_DIR (settings st)); [eauto|discriminate]. }
    rewrite bool_decide_eq_true_2 by exact Hthere. cbn [negb when].
    rewrite bind_ret_l.
    unfold access_W at 1. rewrite !bind_assoc, bind_get, bind_ret_l.
    fold (can_write (nodes st) (DATA_DIR (settings st))).
    rewrite Hw. cbn [negb when].
    rewrite bind_ret_l, config_checks_run. cbv zeta.
    rewrite Hfile. unfold config_file.
    rewrite dirname_join by (exact Hplain || reflexivity).
    rewrite Hw. cbn [negb]. rewrite andb_false_r. reflexivity. }
  now destruct (is_file (nodes st) config_file
                && negb (can_write (nodes st) config_file))%bool.
Qed.

Lemma start_default_config_witness :
  CONFIG_FILE (settings (outcome_state
     ((start_preliminary (sample_env nothing_fails) ;;
       start_force_update (sample_env nothing_fails) sample_args ;;
       start_flags (sample_env nothing_fails) sample_args)
        read_only_config_proc)))
  = "/data/config.ini"
  /\ exists st,
      start (sample_env nothing_fails) sample_args read_only_config_proc
      = Exit (ExitMsg "Config file must be writeable: /data/config.ini") st.
Proof.
  split; [reflexivity|]. eexists.
  refine (eq_trans
            (proj2 (start_default_config_needs_only_data_dir
                      (sample_env nothing_fails) sample_args
                      read_only_config_proc _ _ _ _ _)) _).
  - vm_compute. reflexivity.
  - reflexivity.
  - split; [discriminate|reflexivity].
  - vm_compute. reflexivity.
  - vm_compute. reflexivity.
Defined.

End StartExtras.

(** ** The request context and the delegates of the HTTP server *)

Module TornadoExtras.
Import Tornado.
Local Open Scope list_scope.
Local Open Scope http_scope.

(** *** Splitting and joining *)

Lemma split_pieces_free sep x :
  has_char sep x = false -> split_pieces sep x = (x, []).
Proof.
  induction x as [|c x IH]; [reflexivity|].
  cbn [has_char split_pieces]. intros H.
  apply orb_false_iff in H as [Hc Hx].
  now rewrite (IH Hx), Hc.
Qed.

Lemma split_free sep x : has_char sep x = false -> split sep x = [x].
Proof. intros H. unfold split. now rewrite split_pieces_free. Qed.

Lemma split_cons sep c x :
  split sep (String c x)
  = if Ascii.eqb c sep then EmptyString :: split sep x
    else match split sep x with
         | h :: t => String c h :: t
         | [] => []
         end.
Proof.
  unfold split. cbn [split_pieces].
  destruct (split_pieces sep x) as [h t]. now destruct (Ascii.eqb c sep).
Qed.

Lemma split_app sep a b :
  split sep (a +:+ String sep b) = split sep a ++ split sep b.
Proof.
  induction a as [|c a IH].
  - change (EmptyString +:+ String sep b) with (String sep b).
    rewrite split_cons, Ascii.eqb_refl. reflexivity.
  - rewrite PathFacts.append_cons, !split_cons, IH.
    destruct (Ascii.eqb c sep); [reflexivity|].
    unfold split at 1 3. now destruct (split_pieces sep a).
Qed.

(** Splitting what was joined gives the pieces back. *)
Lemma split_join sep l :
  l <> [] -> Forall (fun x => has_char sep x = false) l ->
  split sep (join sep l) = l.
Proof.
  induction l as [|x l IH]; [congruence|]. intros _ Hall.
  apply Forall_cons in Hall as [Hx Hl].
  destruct l as [|y l]; [now apply split_free|].
  change (join sep (x :: y :: l)) with (x +:+ String sep (join sep (y :: l))).
  rewrite split_app, split_free by exact Hx.
  now rewrite IH.
Qed.

Lemma skip_trusted_app trusted ts x rest ip :
  Forall (fun t => strip t ∈ trusted) ts -> strip x ∉ trusted ->
  skip_trusted trusted (ts ++ x :: rest) ip = strip x.
Proof.
  intros Hts Hx. revert ip.
  induction ts as [|t ts IH]; intros ip; cbn [app skip_trusted].
  - now rewrite bool_decide_eq_false_2.
  - apply Forall_cons in Hts as [Ht Hts].
    rewrite bool_decide_eq_true_2 by exact Ht. now apply IH.
Qed.

Section Context.
Variable is_valid_ip : string -> bool.

(** *** What applying the headers changes *)

Lemma apply_changes h c :
  (remote_ip (_apply_xheaders is_valid_ip h c) = remote_ip c
   \/ is_valid_ip (remote_ip (_apply_xheaders is_valid_ip h c)) = true)
  /\ (protocol (_apply_xheaders is_valid_ip h c) = protocol c
      \/ protocol (_apply_xheaders is_valid_ip h c) = "http" \/ protocol (_apply_xheaders is_valid_ip h c) = "https")
  /\ address (_apply_xheaders is_valid_ip h c) = address c
  /\ address_family (_apply_xheaders is_valid_ip h c) = address_family c
  /\ _orig_remote_ip (_apply_xheaders is_valid_ip h c) = _orig_remote_ip c
  /\ _orig_protocol (_apply_xheaders is_valid_ip h c) = _orig_protocol c
  /\ trusted_downstream (_apply_xheaders is_valid_ip h c) = trusted_downstream c.
Proof.
  unfold _apply_xheaders. cbv zeta.
  set (ip := headers_get h "X-Real-Ip" _).
  destruct (is_valid_ip ip) eqn:Hvalid;
    cbn [protocol set_remote_ip];
    set (proto := if nonempty _ then _ else _);
    (destruct (String.eqb_spec proto "http") as [->|_];
     [|destruct (String.eqb_spec proto "https") as [->|_]]);
    cbn; auto 10.
Qed.

(** X13.  Whatever headers the requests of a connection carry, applying
    them one after the other leaves the context with the address it
    had or one that [is_valid_ip] accepts, and with the protocol it
    had or one of http and https; the socket address, the trusted
    hosts and the saved original values are never touched. *)
Theorem apply_xheaders_changes_only_to_valid
    (requests : list HTTPHeaders) (c : _HTTPRequestContext) :
  let c' := apply_all is_valid_ip requests c in
  (remote_ip c' = remote_ip c \/ is_valid_ip (remote_ip c') = true)
  /\ (protocol c' = protocol c
      \/ protocol c' = "http" \/ protocol c' = "https")
  /\ address c' = address c
  /\ address_family c' = address_family c
  /\ _orig_remote_ip c' = _orig_remote_ip c
  /\ _orig_protocol c' = _orig_protocol c
  /\ trusted_downstream c' = trusted_downstream c.
Proof.
  unfold apply_all. revert c.
  induction requests as [|h requests IH]; intros c; cbn [fold_left].
  - auto 10.
  - destruct (IH (_apply_xheaders is_valid_ip h c)) as (Hip & Hproto & H1 & H2 & H3 & H4 & H5).
    destruct (apply_changes h c) as (Hip' & Hproto' & G1 & G2 & G3 & G4 & G5).
    repeat split; try congruence.
    + destruct Hip as [->|Hip]; [exact Hip'|now right].
    + destruct Hproto as [->|Hproto]; [exact Hproto'|now right].
Qed.

Lemma unapply_after_apply_all requests c :
  _unapply_xheaders (apply_all is_valid_ip requests c) = _unapply_xheaders c.
Proof.
  destruct (apply_xheaders_changes_only_to_valid requests c)
    as (_ & _ & H1 & H2 & H3 & H4 & H5).
  unfold _unapply_xheaders, set_protocol, set_remote_ip.
  cbn. now rewrite H1, H2, H3, H4, H5.
Qed.

Lemma init_clean stream addr proto trusted c :
  _HTTPRequestContext_init stream addr proto trusted = Some c ->
  _unapply_xheaders c = c.
Proof.
  unfold _HTTPRequestContext_init. cbv zeta. intros H.
  assert (exists ip p t,
             c = {| address := addr; address_family := socket stream;
                    remote_ip := ip; protocol := p;
                    _orig_remote_ip := ip; _orig_protocol := p;
                    trusted_downstream := t |}) as (ip & p & t & ->).
  { destruct (is_inet (socket stream)); [destruct addr as [a|]|].
    - destruct (item0 a) as [ip|]; [|discriminate].
      injection H as <-. eauto.
    - injection H as <-. eauto.
    - injection H as <-. eauto. }
  reflexivity.
Qed.

(** X14.  What the headers of a request rewrite does not outlive the
    request: from a context as [__init__] makes it, [_unapply_xheaders]
    brings back exactly that context, however many sets of headers
    have been applied since. *)
Theorem xheaders_do_not_outlive_the_request
    (stream : IOStream) (addr : option sockaddr) (proto : option string)
    (trusted : option (list string))
    (c : _HTTPRequestContext) (requests : list HTTPHeaders) :
  _HTTPRequestContext_init stream addr proto trusted = Some c ->
  _unapply_xheaders (apply_all is_valid_ip requests c) = c.
Proof.
  intros Hinit. rewrite unapply_after_apply_all.
  exact (init_clean _ _ _ _ _ Hinit).
Qed.

(** X15.  Of the entries of [X-Forwarded-For] the one that counts is
    the rightmost that is not a trusted downstream host: what stands
    to its left changes nothing.  Without [X-Real-Ip] it becomes the
    remote address if [is_valid_ip] accepts it, and the address stays
    as it is if not. *)
Theorem forwarded_for_rightmost_untrusted
    (h : HTTPHeaders) (c : _HTTPRequestContext)
    (left : list string) (x : string) (right : list string) :
  Forall (fun e => has_char "," e = false) (left ++ x :: right) ->
  Forall (fun t => strip t ∈ trusted_downstream c) right ->
  strip x ∉ trusted_downstream c ->
  h !! "X-Forwarded-For" = Some (join "," (left ++ x :: right)) ->
  h !! "X-Real-Ip" = None ->
  remote_ip (_apply_xheaders is_valid_ip h c)
  = if is_valid_ip (strip x) then strip x else remote_ip c.
Proof.
  intros Hfree Hright Hx Hfor Hreal.
  assert (remote_ip (_apply_xheaders is_valid_ip h c)
          = let ip := headers_get h "X-Forwarded-For" (remote_ip c) in
            let ip := skip_trusted (trusted_downstream c)
                        (rev (split "," ip)) ip in
            let ip := headers_get h "X-Real-Ip" ip in
            if is_valid_ip ip then ip else remote_ip c) as ->.
  { unfold _apply_xheaders. cbv zeta.
    set (ip := headers_get h "X-Real-Ip" _).
    destruct (is_valid_ip ip);
      cbn [protocol set_remote_ip];
      set (proto := if nonempty _ then _ else _);
      now destruct (String.eqb proto "http" || String.eqb proto "https")%bool. }
  cbv zeta. unfold headers_get. rewrite Hfor, Hreal. cbn [default from_option id].
  rewrite split_join by (exact Hfree || now destruct left).
  rewrite rev_app_distr. cbn [rev]. rewrite <- app_assoc. cbn [app].
  rewrite skip_trusted_app; [reflexivity| |exact Hx].
  apply Forall_forall. intros t Ht.
  apply list_elem_of_In, in_rev, list_elem_of_In in Ht.
  rewrite Forall_forall in Hright. now apply Hright.
Qed.

(** X16.  A request without any of the four proxy headers leaves the
    context as it is, provided the address and the protocol it holds
    have no comma in them and no white space around them. *)
Theorem apply_xheaders_without_proxy_headers
    (h : HTTPHeaders) (c : _HTTPRequestContext) :
  h !! "X-Forwarded-For" = None -> h !! "X-Real-Ip" = None ->
  h !! "X-Scheme" = None -> h !! "X-Forwarded-Proto" = None ->
  has_char "," (remote_ip c) = false -> strip (remote_ip c) = remote_ip c ->
  has_char "," (protocol c) = false -> strip (protocol c) = protocol c ->
  _apply_xheaders is_valid_ip h c = c.
Proof.
  intros H1 H2 H3 H4 Hip Hips Hp Hps.
  unfold _apply_xheaders, headers_get. cbv zeta.
  rewrite H1, H2, H3, H4. cbn [default from_option id].
  rewrite (split_free _ _ Hip). cbn [rev app skip_trusted].
  rewrite Hips.
  assert ((if bool_decide (remote_ip c ∈ trusted_downstream c)
           then remote_ip c else remote_ip c) = remote_ip c) as ->
      by now destruct (bool_decide _).
  assert (set_remote_ip (remote_ip c) c = c) as Hsame by now destruct c.
  assert ((if is_valid_ip (remote_ip c)
           then set_remote_ip (remote_ip c) c else c) = c) as ->
      by (now destruct (is_valid_ip _)).
  rewrite (split_free _ _ Hp). cbn [List.last]. rewrite Hps.
  assert ((if nonempty (protocol c) then protocol c else protocol c)
          = protocol c) as -> by now destruct (nonempty _).
  destruct (String.eqb _ "http" || String.eqb _ "https")%bool;
    [|reflexivity].
  now destruct c.
Qed.

End Context.

Lemma xheaders_do_not_outlive_witness :
  _unapply_xheaders
    (apply_all sample_is_valid_ip [forwarded_headers; secure_headers]
       sample_context)
  = sample_context.
Proof.
  apply (xheaders_do_not_outlive_the_request sample_is_valid_ip sample_stream
           (Some (InetAddr "192.0.2.1" [51234%Z])) None
           (Some ["10.0.0.1"])).
  reflexivity.
Defined.

Lemma forwarded_for_rightmost_untrusted_witness :
  remote_ip (_apply_xheaders sample_is_valid_ip forwarded_headers sample_context)
  = "203.0.113.7".
Proof.
  refine (eq_trans
            (forwarded_for_rightmost_untrusted sample_is_valid_ip forwarded_headers
               sample_context ["198.51.100.9"] " 203.0.113.7" [" 10.0.0.1"]
               _ _ _ _ _) _).
  - repeat constructor.
  - apply Forall_cons. split; [|apply Forall_nil; exact I].
    apply elem_of_list_to_set. now left.
  - intros H. apply elem_of_list_to_set in H.
    apply list_elem_of_In in H. destruct H as [H|[]]. discriminate H.
  - reflexivity.
  - reflexivity.
  - reflexivity.
Defined.

Lemma apply_xheaders_without_proxy_headers_witness :
  _apply_xheaders sample_is_valid_ip plain_headers sample_context
  = sample_context.
Proof.
  apply (apply_xheaders_without_proxy_headers sample_is_valid_ip); reflexivity.
Defined.

(** *** The two adapters *)

Section Adapters.
Variable is_valid_ip : string -> bool.

Lemma unapply_apply h c :
  _unapply_xheaders (_apply_xheaders is_valid_ip h c) = _unapply_xheaders c.
Proof. exact (unapply_after_apply_all is_valid_ip [h] c). Qed.

(** X17.  Behind a [_ProxyAdapter] the rewritten context is put back
    only by a request that ends well: if the calls of a request all
    return, the connection has its original address and protocol
    again; if one of them raises, the context stays as the headers of
    that request rewrote it. *)
Theorem proxy_restores_only_after_finish_returns {D}
    (d : HTTPMessageDelegate D) (start_line : string) (h : HTTPHeaders)
    (chunks : list bytes) (w : connection D) :
  keeps_context d ->
  match serve (_ProxyAdapter is_valid_ip d) start_line h chunks w with
  | Ok _ w' => context w' = _unapply_xheaders (context w)
  | Err _ w' => context w' = _apply_xheaders is_valid_ip h (context w)
  end.
Proof.
  intros (Hhead & Hdata & Hfin & _).
  unfold serve, _ProxyAdapter.
  cbn [headers_received finish].
  unfold and_then at 1 2. unfold on_context at 1, change at 1.
  specialize (Hhead start_line h
                {| context := _apply_xheaders is_valid_ip h (context w);
                   delegate := delegate w |}).
  destruct (headers_received d start_line h _) as [[] w1|e w1];
    cbn [state_of context] in Hhead; [|exact Hhead].
  unfold and_then at 1.
  assert (context (state_of (receive {|
             headers_received := fun start_line headers =>
               on_context (_apply_xheaders is_valid_ip headers) ;;
               headers_received d start_line headers;
             data_received := fun chunk => data_received d chunk;
             finish := finish d ;; _cleanup;
             on_connection_close := on_connection_close d ;; _cleanup |}
             chunks w1)) = context w1) as Hchunks.
  { generalize w1. clear -Hdata.
    induction chunks as [|chunk chunks IH]; intros w1; [reflexivity|].
    cbn [receive data_received]. unfold and_then.
    specialize (Hdata chunk w1).
    destruct (data_received d chunk w1) as [[] w2|e w2]; cbn in *;
      [|exact Hdata].
    now rewrite IH. }
  destruct (receive _ chunks w1) as [[] w2|e w2]; cbn [state_of] in Hchunks;
    [|congruence].
  unfold and_then at 1. specialize (Hfin w2).
  destruct (finish d w2) as [[] w3|e w3]; cbn [state_of] in Hfin;
    [|congruence].
  unfold _cleanup, on_context, change. cbn [context].
  rewrite Hfin, Hchunks, Hhead.
  apply unapply_apply.
Qed.

End Adapters.

(** *** The adapter of a plain callback *)

Lemma receive_callable raises chunks c r cs m :
  receive (_CallableAdapter raises) chunks
    {| context := c;
       delegate := {| request := r; _chunks := Some cs; made := m |} |}
  = Ok tt {| context := c;
             delegate := {| request := r; _chunks := Some (cs ++ chunks);
                            made := m |} |}.
Proof.
  revert cs. induction chunks as [|chunk chunks IH]; intros cs.
  - cbn [receive]. now rewrite app_nil_r.
  - cbn [receive]. unfold and_then at 1.
    cbn [_CallableAdapter data_received delegate _chunks on_delegate change
         context request made].
    unfold on_delegate, change. cbn [delegate context request made _chunks].
    rewrite IH. now rewrite <- app_assoc.
Qed.

(** X18.  A plain callback is handed the request once its body is
    whole: the chunks received, in the order they came and however the
    body was cut into them, make up the body; the body is parsed first,
    and a parser that raises keeps the callback from being called. *)
Theorem callable_adapter_hands_over_whole_body
    (raises : call -> option string) (line : string) (h : HTTPHeaders)
    (chunks : list bytes) (c : _HTTPRequestContext) :
  let r := {| start_line := line; headers := h;
              body := concat chunks |} in
  let after (calls : list call) :=
    {| context := c;
       delegate := {| request := Some r; _chunks := Some chunks;
                      made := calls |} |} in
  serve (_CallableAdapter raises) line h chunks
    {| context := c; delegate := CallableAdapter_init |}
  = match raises (_parse_body r) with
    | Some what => Err (Raised what) (after [_parse_body r])
    | None =>
        match raises (request_callback r) with
        | Some what =>
            Err (Raised what) (after [_parse_body r; request_callback r])
        | None => Ok tt (after [_parse_body r; request_callback r])
        end
    end.
Proof.
  intros r after. unfold serve, CallableAdapter_init.
  unfold and_then at 1.
  cbn [_CallableAdapter headers_received on_delegate change context delegate
       request _chunks made].
  unfold and_then at 1. rewrite receive_callable. cbn [app].
  cbn [_CallableAdapter finish delegate request _chunks start_line headers].
  fold r. unfold external, on_delegate, change, and_then, throw, done.
  cbn [context delegate request _chunks made app].
  destruct (raises (_parse_body r)); [reflexivity|].
  cbn [context delegate request _chunks made app].
  now destruct (raises (request_callback r)).
Qed.

(** A [_CallableAdapter] has no business with the request context. *)
Lemma callable_adapter_keeps_context raises :
  keeps_context (_CallableAdapter raises).
Proof.
  unfold keeps_context.
  cbn [_CallableAdapter headers_received data_received finish
       on_connection_close].
  split; [|split; [|split]].
  - reflexivity.
  - intros chunk w. now destruct (_chunks (delegate w)).
  - intros w. destruct (request (delegate w)) as [r|]; [|reflexivity].
    destruct (_chunks (delegate w)) as [chunks|]; [|reflexivity].
    unfold external, and_then, on_delegate, change, throw, done.
    cbn [context delegate].
    repeat match goal with
           | |- context [raises ?c] => destruct (raises c)
           end; reflexivity.
  - intros w. now destruct (_chunks (delegate w)).
Qed.

Lemma proxy_restores_witness :
  match
    serve (_ProxyAdapter sample_is_valid_ip (_CallableAdapter (fun _ => None)))
      "GET / HTTP/1.1" secure_headers []
      {| context := sample_context; delegate := CallableAdapter_init |}
  with
  | Ok _ w' => context w' = _unapply_xheaders sample_context
  | Err _ w' =>
      context w'
      = _apply_xheaders sample_is_valid_ip secure_headers sample_context
  end.
Proof.
  apply (proxy_restores_only_after_finish_returns sample_is_valid_ip
           (_CallableAdapter (fun _ => None)) "GET / HTTP/1.1" secure_headers []
           {| context := sample_context; delegate := CallableAdapter_init |}).
  apply callable_adapter_keeps_context.
Defined.

End TornadoExtras.
